(** * Jobly: the company repository, its store and the API client

    A shallow embedding of the data-access layer of the Jobly job board
    ([models/company.js], the behaviour pinned down by [models/user.test.js])
    and of the error path of the frontend client ([src/API/api.js]).

    The relational store is PostgreSQL reached through [db.query(sql, binds)].
    It is not part of the repository, so it is modelled here: every statement
    the code sends is a pair of the SQL text the code builds and the relational
    meaning of that text, and [Store.exec] gives the meaning of the statement
    shapes the repository uses (single-table SELECT / INSERT / UPDATE / DELETE
    with a conjunctive WHERE over positional parameters, ORDER BY, RETURNING). *)

From Stdlib Require Import List String Ascii ZArith Lia Bool.
From Stdlib Require Import Sorted Permutation.
From Stdlib Require Import Decimal DecimalString DecimalNat DecimalZ.
Import ListNotations.

Set Warnings "-register-all".

Local Open Scope list_scope.
Local Open Scope string_scope.

(* ================================================================= *)
(** ** JavaScript odds and ends *)

Module JS.

(** The double-quote character, used inside SQL text for aliases. *)
Definition dq : string := String "034"%char EmptyString.

(** Line feed, as it occurs inside the template literals. *)
Definition nl : string := String "010"%char EmptyString.

(** [String(n)] for an array length. *)
Definition show_nat (n : nat) : string :=
  NilEmpty.string_of_uint (Nat.to_uint n).

(** [String(z)] for an integer. *)
Definition show_Z (z : Z) : string :=
  NilZero.string_of_int (Z.to_int z).

(** [Array.prototype.join]. *)
Fixpoint join (sep : string) (xs : list string) : string :=
  match xs with
  | [] => EmptyString
  | [x] => x
  | x :: rest => x ++ sep ++ join sep rest
  end.

(** Truthiness of a string: only the empty string is falsy. *)
Definition truthy_string (s : string) : bool :=
  match s with EmptyString => false | String _ _ => true end.

(** [a > b] on two possibly-undefined integers: [undefined] converts to
    NaN, and every comparison with NaN is false. *)
Definition gt (a b : option Z) : bool :=
  match a, b with
  | Some x, Some y => (y <? x)%Z
  | _, _ => false
  end.

(** [x !== undefined]. *)
Definition defined {A : Type} (x : option A) : bool :=
  match x with Some _ => true | None => false end.

(** Association-list lookup, first binding wins: property access on a
    plain object whose own properties are listed in order. *)
Fixpoint lookup {A : Type} (k : string) (o : list (string * A)) : option A :=
  match o with
  | [] => None
  | (k', v) :: rest => if String.eqb k k' then Some v else lookup k rest
  end.

(** [o[k] = v]: overwrite in place when the property exists, append
    otherwise. *)
Fixpoint set_prop {A : Type} (k : string) (v : A) (o : list (string * A))
  : list (string * A) :=
  match o with
  | [] => [(k, v)]
  | (k', v') :: rest =>
      if String.eqb k k' then (k, v) :: rest else (k', v') :: set_prop k v rest
  end.

(** [delete o[k]]. *)
Definition delete_prop {A : Type} (k : string) (o : list (string * A))
  : list (string * A) :=
  filter (fun kv => negb (String.eqb k (fst kv))) o.

End JS.

(* ================================================================= *)
(** ** Values, rows and sorting *)

Module Data.

(** A scalar as it travels between JavaScript and a SQL column. *)
Inductive value : Type :=
| VNull
| VBool (b : bool)
| VNum (n : Z)
| VStr (s : string).

Definition value_eqb (a b : value) : bool :=
  match a, b with
  | VNull, VNull => true
  | VBool x, VBool y => Bool.eqb x y
  | VNum x, VNum y => (x =? y)%Z
  | VStr x, VStr y => String.eqb x y
  | _, _ => false
  end.

Definition rank (a : value) : nat :=
  match a with VBool _ => 0 | VNum _ => 1 | VStr _ => 2 | VNull => 3 end.

(** The order ORDER BY uses: numbers by value, text by character code,
    NULL last. *)
Definition value_leb (a b : value) : bool :=
  match a, b with
  | VBool x, VBool y => implb x y
  | VNum x, VNum y => (x <=? y)%Z
  | VStr x, VStr y => String.leb x y
  | _, _ => Nat.leb (rank a) (rank b)
  end.

(** [`${v}`]. *)
Definition to_string (v : value) : string :=
  match v with
  | VNull => "null"
  | VBool true => "true"
  | VBool false => "false"
  | VNum z => JS.show_Z z
  | VStr s => s
  end.

(** A row: column (or result key) to value, in column order. *)
Definition row : Type := list (string * value).

Definition get (c : string) (r : row) : value :=
  match JS.lookup c r with Some v => v | None => VNull end.

Section Sort.
Context {A : Type} (leb : A -> A -> bool).

Fixpoint insert (x : A) (l : list A) : list A :=
  match l with
  | [] => [x]
  | y :: l' => if leb x y then x :: l else y :: insert x l'
  end.

(** Stable insertion sort. *)
Definition sort (l : list A) : list A := fold_right insert [] l.
End Sort.

Definition key_leb (c : string) (r1 r2 : row) : bool :=
  value_leb (get c r1) (get c r2).

End Data.

(* ================================================================= *)
(** ** LIKE patterns *)

Module Like.

Inductive pat : Type :=
| PAny                (* %  : any run of characters *)
| POne                (* _  : exactly one character *)
| PChar (c : ascii).  (* a literal character; a backslash escapes the next *)

Fixpoint parse (s : string) : option (list pat) :=
  match s with
  | EmptyString => Some []
  | String c s' =>
      if Ascii.eqb c "%"%char then option_map (cons PAny) (parse s')
      else if Ascii.eqb c "_"%char then option_map (cons POne) (parse s')
      else if Ascii.eqb c "\"%char then
        match s' with
        | EmptyString => None
        | String c' s'' => option_map (cons (PChar c')) (parse s'')
        end
      else option_map (cons (PChar c)) (parse s')
  end.

Fixpoint matches (p : list pat) : string -> bool :=
  match p with
  | [] => fun s => match s with EmptyString => true | String _ _ => false end
  | PAny :: p' =>
      fix skip (s : string) : bool :=
        matches p' s
        || match s with EmptyString => false | String _ s' => skip s' end
  | POne :: p' =>
      fun s => match s with EmptyString => false | String _ s' => matches p' s' end
  | PChar c :: p' =>
      fun s =>
        match s with
        | EmptyString => false
        | String d s' => Ascii.eqb c d && matches p' s'
        end
  end.

Definition lower_ascii (c : ascii) : ascii :=
  let n := nat_of_ascii c in
  if (65 <=? n)%nat && (n <=? 90)%nat then ascii_of_nat (n + 32) else c.

Fixpoint lower (s : string) : string :=
  match s with
  | EmptyString => EmptyString
  | String c s' => String (lower_ascii c) (lower s')
  end.

Definition lower_pat (p : pat) : pat :=
  match p with PChar c => PChar (lower_ascii c) | _ => p end.

Definition well_formed (pattern : string) : bool :=
  match parse pattern with Some _ => true | None => false end.

(** [subject ILIKE pattern]. *)
Definition ilike (pattern subject : string) : bool :=
  match parse pattern with
  | Some p => matches (map lower_pat p) (lower subject)
  | None => false
  end.

(** The characters LIKE gives a meaning to. *)
Definition meta (c : ascii) : bool :=
  Ascii.eqb c "%"%char || Ascii.eqb c "_"%char || Ascii.eqb c "\"%char.

Fixpoint plain (s : string) : bool :=
  match s with
  | EmptyString => true
  | String c s' => negb (meta c) && plain s'
  end.

(** The pattern that matches exactly the string [s]. *)
Fixpoint literal (s : string) : list pat :=
  match s with
  | EmptyString => []
  | String c s' => PChar c :: literal s'
  end.

(** [needle] occurs in [subject], letter case ignored. *)
Definition contains_ci (needle subject : string) : Prop :=
  exists pre post, lower subject = pre ++ lower needle ++ post.

End Like.

(* ================================================================= *)
(** ** The relational store *)

Module Store.
Import Data.

(** Column types. [TNat] is an INTEGER column with a CHECK (>= 0). *)
Inductive ctype : Type := TText | TInt | TNat | TBool | TNumeric.

Record column : Type :=
  { col_name : string; col_type : ctype; col_nullable : bool }.

(** [fk_col] of the table refers to column [fk_ref] of table [fk_table]. *)
Record foreign_key : Type :=
  { fk_col : string; fk_table : string; fk_ref : string }.

Record tabledef : Type :=
  { t_cols : list column; t_key : list string; t_refs : list foreign_key }.

(** Is the value of the column's SQL type?  NULL is of every type.  The
    driver's text coercions (a numeric string sent for an INTEGER column)
    are outside the model: such a bind is refused here. *)
Definition has_type (ty : ctype) (v : value) : bool :=
  match v, ty with
  | VNull, _ => true
  | VStr _, (TText | TNumeric) => true
  | VNum _, (TInt | TNat | TNumeric) => true
  | VBool _, TBool => true
  | _, _ => false
  end.

(** May the value be stored in the column: type, NOT NULL and CHECK. *)
Definition fits (ty : ctype) (nullable : bool) (v : value) : bool :=
  has_type ty v
  && match v, ty with
     | VNull, _ => nullable
     | VNum z, TNat => (0 <=? z)%Z
     | _, _ => true
     end.

Fixpoint find_col (c : string) (cols : list column) : option column :=
  match cols with
  | [] => None
  | x :: rest => if String.eqb c (col_name x) then Some x else find_col c rest
  end.

(** Modelled from the spec: the table definitions (the schema file is not
    part of the sources).  Column names are the ones the SQL text of the
    repository mentions; types and optionality follow the data model:
    Company (handle unique key, name, description, numEmployees integer
    >= 0, logoUrl optional), Job (id surrogate key, title, salary optional
    integer, equity optional decimal, companyHandle), User (username unique
    key, firstName, lastName, email, isAdmin boolean, password hash),
    Application (composite key (username, jobId), status).  The foreign
    keys are the ones the data model names: a job's companyHandle must
    reference an existing company, an application's username and jobId an
    existing user and job.  "Cascading is not assumed": a row that is still
    referenced can be neither deleted nor given another key. *)
Definition companies_def : tabledef :=
  {| t_cols :=
       [ {| col_name := "handle"; col_type := TText; col_nullable := false |};
         {| col_name := "name"; col_type := TText; col_nullable := false |};
         {| col_name := "description"; col_type := TText; col_nullable := false |};
         {| col_name := "num_employees"; col_type := TNat; col_nullable := true |};
         {| col_name := "logo_url"; col_type := TText; col_nullable := true |} ];
     t_key := ["handle"];
     t_refs := [] |}.

Definition jobs_def : tabledef :=
  {| t_cols :=
       [ {| col_name := "id"; col_type := TInt; col_nullable := false |};
         {| col_name := "title"; col_type := TText; col_nullable := false |};
         {| col_name := "salary"; col_type := TNat; col_nullable := true |};
         {| col_name := "equity"; col_type := TNumeric; col_nullable := true |};
         {| col_name := "company_handle"; col_type := TText; col_nullable := false |} ];
     t_key := ["id"];
     t_refs := [ {| fk_col := "company_handle"; fk_table := "companies";
                    fk_ref := "handle" |} ] |}.

Definition users_def : tabledef :=
  {| t_cols :=
       [ {| col_name := "username"; col_type := TText; col_nullable := false |};
         {| col_name := "password"; col_type := TText; col_nullable := false |};
         {| col_name := "first_name"; col_type := TText; col_nullable := false |};
         {| col_name := "last_name"; col_type := TText; col_nullable := false |};
         {| col_name := "email"; col_type := TText; col_nullable := false |};
         {| col_name := "is_admin"; col_type := TBool; col_nullable := false |} ];
     t_key := ["username"];
     t_refs := [] |}.

Definition applications_def : tabledef :=
  {| t_cols :=
       [ {| col_name := "username"; col_type := TText; col_nullable := false |};
         {| col_name := "job_id"; col_type := TInt; col_nullable := false |};
         {| col_name := "status"; col_type := TText; col_nullable := false |} ];
     t_key := ["username"; "job_id"];
     t_refs := [ {| fk_col := "username"; fk_table := "users";
                    fk_ref := "username" |};
                 {| fk_col := "job_id"; fk_table := "jobs"; fk_ref := "id" |} ] |}.

Record DB : Type :=
  { companies : list row;
    jobs : list row;
    users : list row;
    applications : list row }.

Definition get_table (t : string) (d : DB) : option (tabledef * list row) :=
  if String.eqb t "companies" then Some (companies_def, companies d)
  else if String.eqb t "jobs" then Some (jobs_def, jobs d)
  else if String.eqb t "users" then Some (users_def, users d)
  else if String.eqb t "applications" then Some (applications_def, applications d)
  else None.

Definition set_table (t : string) (rows : list row) (d : DB) : DB :=
  if String.eqb t "companies" then
    {| companies := rows; jobs := jobs d; users := users d;
       applications := applications d |}
  else if String.eqb t "jobs" then
    {| companies := companies d; jobs := rows; users := users d;
       applications := applications d |}
  else if String.eqb t "users" then
    {| companies := companies d; jobs := jobs d; users := rows;
       applications := applications d |}
  else if String.eqb t "applications" then
    {| companies := companies d; jobs := jobs d; users := users d;
       applications := rows |}
  else d.

(** *** Statements *)

Inductive cmp : Type := OpEq | OpGe | OpLe | OpGt | OpILike.

(** [column op $k]. *)
Record cond : Type := { c_col : string; c_op : cmp; c_param : nat }.

Definition cmp_text (o : cmp) : string :=
  match o with
  | OpEq => "=" | OpGe => ">=" | OpLe => "<=" | OpGt => ">" | OpILike => "ILIKE"
  end.

Definition cond_text (c : cond) : string :=
  c_col c ++ " " ++ cmp_text (c_op c) ++ " $" ++ JS.show_nat (c_param c).

(** Output columns: (column, key in the result row), the second component
    being the AS alias when there is one. *)
Definition projection : Type := list (string * string).

Inductive stmt : Type :=
| Select (tbl : string) (proj : projection) (wh : list cond)
         (order : option string)
| Insert (tbl : string) (cols : list string) (ret : projection)
| Update (tbl : string) (set : list (string * nat)) (wh : list cond)
         (ret : projection)
| Delete (tbl : string) (wh : list cond) (ret : projection).

Definition stmt_table (q : stmt) : string :=
  match q with
  | Select t _ _ _ | Insert t _ _ | Update t _ _ _ | Delete t _ _ => t
  end.

(** [$k] is the k-th bind value, counted from 1. *)
Definition param (binds : list value) (k : nat) : option value :=
  match k with
  | O => None
  | S i => nth_error binds i
  end.

Definition params_used (q : stmt) : list nat :=
  match q with
  | Select _ _ wh _ => map c_param wh
  | Insert _ cols _ => seq 1 (List.length cols)
  | Update _ set wh _ => (map snd set ++ map c_param wh)%list
  | Delete _ wh _ => map c_param wh
  end.

(** Every placeholder has a bind value and every bind value a placeholder. *)
Definition params_ok (used : list nat) (binds : list value) : bool :=
  forallb (fun k => (1 <=? k)%nat && (k <=? List.length binds)%nat) used
  && forallb (fun k => existsb (Nat.eqb k) used) (seq 1 (List.length binds)).

Definition op_ok (o : cmp) (ty : ctype) (v : value) : bool :=
  match o with
  | OpILike =>
      match ty, v with
      | TText, VStr p => Like.well_formed p
      | TText, VNull => true
      | _, _ => false
      end
  | _ => true
  end.

Definition cond_ok (def : tabledef) (binds : list value) (c : cond) : bool :=
  match find_col (c_col c) (t_cols def), param binds (c_param c) with
  | Some col, Some v =>
      has_type (col_type col) v && op_ok (c_op c) (col_type col) v
  | _, _ => false
  end.

Definition proj_ok (def : tabledef) (p : projection) : bool :=
  forallb (fun ca => match find_col (fst ca) (t_cols def) with
                     | Some _ => true | None => false end) p.

(** An assignment [column = $k] is well-formed: the column exists and the
    bind value is of its type. *)
Definition set_ok (def : tabledef) (binds : list value) (a : string * nat)
  : bool :=
  match find_col (fst a) (t_cols def), param binds (snd a) with
  | Some col, Some v => has_type (col_type col) v
  | _, _ => false
  end.

(** The value assigned may be stored in the column (NOT NULL, CHECK): this
    is checked on the rows an UPDATE rewrites, not on the statement. *)
Definition set_fits (def : tabledef) (binds : list value) (a : string * nat)
  : bool :=
  match find_col (fst a) (t_cols def), param binds (snd a) with
  | Some col, Some v => fits (col_type col) (col_nullable col) v
  | _, _ => false
  end.

Fixpoint distinct (l : list string) : bool :=
  match l with
  | [] => true
  | x :: rest => negb (existsb (String.eqb x) rest) && distinct rest
  end.

(** What the server checks before it touches a row: names, placeholders and
    types. *)
Definition stmt_ok (def : tabledef) (q : stmt) (binds : list value) : bool :=
  params_ok (params_used q) binds
  && match q with
     | Select _ proj wh order =>
         proj_ok def proj && forallb (cond_ok def binds) wh
         && match order with
            | Some c => match find_col c (t_cols def) with
                        | Some _ => true | None => false end
            | None => true
            end
     | Insert _ cols ret =>
         proj_ok def ret && distinct cols
         && forallb (fun c => match find_col c (t_cols def) with
                              | Some _ => true | None => false end) cols
     | Update _ set wh ret =>
         proj_ok def ret && forallb (cond_ok def binds) wh
         && negb (match set with [] => true | _ :: _ => false end)
         && distinct (map fst set) && forallb (set_ok def binds) set
     | Delete _ wh ret =>
         proj_ok def ret && forallb (cond_ok def binds) wh
     end.

(** *** Canonical text

    Used where the text a repository sends is not in the sources. *)

Definition proj_text (p : projection) : string :=
  JS.join ", "
    (map (fun ca =>
            if String.eqb (fst ca) (snd ca) then fst ca
            else fst ca ++ " AS " ++ JS.dq ++ snd ca ++ JS.dq)
         p).

Definition where_text (wh : list cond) : string :=
  match wh with
  | [] => EmptyString
  | _ :: _ => " WHERE " ++ JS.join " AND " (map cond_text wh)
  end.

Definition assignment_text (a : string * nat) : string :=
  fst a ++ " = $" ++ JS.show_nat (snd a).

Definition sql_of (q : stmt) : string :=
  match q with
  | Select t proj wh order =>
      "SELECT " ++ proj_text proj ++ " FROM " ++ t ++ where_text wh
      ++ match order with
         | Some c => " ORDER BY " ++ c
         | None => EmptyString
         end
  | Insert t cols ret =>
      "INSERT INTO " ++ t ++ " (" ++ JS.join ", " cols ++ ") VALUES ("
      ++ JS.join ", " (map (fun k => "$" ++ JS.show_nat k)
                           (seq 1 (List.length cols)))
      ++ ") RETURNING " ++ proj_text ret
  | Update t set wh ret =>
      "UPDATE " ++ t ++ " SET " ++ JS.join ", " (map assignment_text set)
      ++ where_text wh ++ " RETURNING " ++ proj_text ret
  | Delete t wh ret =>
      "DELETE FROM " ++ t ++ where_text wh ++ " RETURNING " ++ proj_text ret
  end.

(** *** Evaluation *)

(** SQL comparison of a column with a bind value of the column's type.
    Anything compared with NULL is unknown, and a WHERE keeps a row only
    when its condition is true. *)
Definition sql_cmp (o : cmp) (a b : value) : bool :=
  match a, b with
  | VNull, _ | _, VNull => false
  | _, _ =>
      Nat.eqb (rank a) (rank b)
      && match o with
         | OpEq => value_eqb a b
         | OpGe => value_leb b a
         | OpLe => value_leb a b
         | OpGt => negb (value_leb a b)
         | OpILike =>
             match a, b with
             | VStr s, VStr p => Like.ilike p s
             | _, _ => false
             end
         end
  end.

Definition eval_cond (binds : list value) (r : row) (c : cond) : bool :=
  match param binds (c_param c) with
  | Some v => sql_cmp (c_op c) (get (c_col c) r) v
  | None => false
  end.

(** The WHERE clause is the conjunction of its conditions. *)
Definition holds (wh : list cond) (binds : list value) (r : row) : bool :=
  forallb (eval_cond binds r) wh.

Definition project (p : projection) (r : row) : row :=
  map (fun ca => (snd ca, get (fst ca) r)) p.

Definition order_rows (order : option string) (rows : list row) : list row :=
  match order with
  | Some c => sort (key_leb c) rows
  | None => rows
  end.

Fixpoint index_of (c : string) (cols : list string) : option nat :=
  match cols with
  | [] => None
  | x :: rest =>
      if String.eqb c x then Some O else option_map S (index_of c rest)
  end.

(** The row an INSERT ... VALUES ($1, ..., $n) builds: listed columns take
    their bind value, the others are NULL. *)
Definition new_row (def : tabledef) (cols : list string) (binds : list value)
  : row :=
  map (fun col =>
         (col_name col,
          match index_of (col_name col) cols with
          | Some i => nth i binds VNull
          | None => VNull
          end))
      (t_cols def).

Definition row_ok (def : tabledef) (r : row) : bool :=
  forallb (fun col => fits (col_type col) (col_nullable col) (get (col_name col) r))
          (t_cols def).

Definition same_key (def : tabledef) (r1 r2 : row) : bool :=
  forallb (fun k => value_eqb (get k r1) (get k r2)) (t_key def).

Fixpoint keys_unique (def : tabledef) (rows : list row) : bool :=
  match rows with
  | [] => true
  | r :: rest => negb (existsb (same_key def r) rest) && keys_unique def rest
  end.

Definition assign (set : list (string * nat)) (binds : list value) (r : row)
  : row :=
  fold_left
    (fun acc a =>
       match param binds (snd a) with
       | Some v => JS.set_prop (fst a) v acc
       | None => acc
       end)
    set r.

(** *** Foreign keys *)

Definition tables : list string := ["companies"; "jobs"; "users"; "applications"].

Definition table_rows (t : string) (d : DB) : list row :=
  match get_table t d with
  | Some (_, rows) => rows
  | None => []
  end.

(** The foreign keys that point at table [t], each with the rows of the
    table that declares it. *)
Definition referencing (t : string) (d : DB) : list (foreign_key * list row) :=
  flat_map
    (fun t' =>
       match get_table t' d with
       | Some (def, rows) =>
           map (fun fk => (fk, rows))
               (filter (fun fk => String.eqb (fk_table fk) t) (t_refs def))
       | None => []
       end)
    tables.

(** Some row refers, through [fk], to the value [v]. *)
Definition referred (fk : foreign_key) (rows : list row) (v : value) : bool :=
  match v with
  | VNull => false
  | _ => existsb (fun r' => value_eqb (get (fk_col fk) r') v) rows
  end.

(** No row of the store refers to row [r] of table [t]. *)
Definition unreferenced (t : string) (d : DB) (r : row) : bool :=
  forallb (fun fr => negb (referred (fst fr) (snd fr) (get (fk_ref (fst fr)) r)))
          (referencing t d).

(** Row [r] of table [t] may become [r']: no referenced column of a row
    that is still referred to changes. *)
Definition key_kept (t : string) (d : DB) (r r' : row) : bool :=
  forallb (fun fr =>
             value_eqb (get (fk_ref (fst fr)) r) (get (fk_ref (fst fr)) r')
             || negb (referred (fst fr) (snd fr) (get (fk_ref (fst fr)) r)))
          (referencing t d).

(** The value [v] of foreign key [fk] points at a stored row (or is NULL). *)
Definition points_somewhere (fk : foreign_key) (d : DB) (v : value) : bool :=
  match v with
  | VNull => true
  | _ => existsb (fun r' => value_eqb (get (fk_ref fk) r') v)
                 (table_rows (fk_table fk) d)
  end.

(** Every foreign key of the new row [r] points at a stored row. *)
Definition refs_ok (def : tabledef) (d : DB) (r : row) : bool :=
  forallb (fun fk => points_somewhere fk d (get (fk_col fk) r)) (t_refs def).

(** The foreign keys that row [r] changes by becoming [r'] point at stored
    rows. *)
Definition refs_kept (def : tabledef) (d : DB) (r r' : row) : bool :=
  forallb (fun fk =>
             value_eqb (get (fk_col fk) r) (get (fk_col fk) r')
             || points_somewhere fk d (get (fk_col fk) r'))
          (t_refs def).

Inductive outcome : Type :=
| Rows (rs : list row)
| Failure (reason : string).

(** One statement against the store. *)
Definition exec (q : stmt) (binds : list value) (d : DB) : outcome * DB :=
  match get_table (stmt_table q) d with
  | None => (Failure "relation does not exist", d)
  | Some (def, rows) =>
      if stmt_ok def q binds then
        match q with
        | Select _ proj wh order =>
            (Rows (map (project proj)
                       (order_rows order (filter (holds wh binds) rows))), d)
        | Insert t cols ret =>
            let r := new_row def cols binds in
            if row_ok def r && negb (existsb (same_key def r) rows)
               && refs_ok def d r then
              (Rows [project ret r], set_table t (rows ++ [r])%list d)
            else (Failure "constraint violation", d)
        | Update t set wh ret =>
            let hit := filter (holds wh binds) rows in
            let rows' :=
              map (fun r => if holds wh binds r then assign set binds r else r)
                  rows in
            match hit with
            | [] => (Rows [], d)
            | _ :: _ =>
                if forallb (set_fits def binds) set
                   && keys_unique def rows'
                   && forallb (fun r => key_kept t d r (assign set binds r)
                                        && refs_kept def d r (assign set binds r))
                              hit then
                  (Rows (map (fun r => project ret (assign set binds r)) hit),
                   set_table t rows' d)
                else (Failure "constraint violation", d)
            end
        | Delete t wh ret =>
            let gone := filter (holds wh binds) rows in
            if forallb (unreferenced t d) gone then
              (Rows (map (project ret) gone),
               set_table t (filter (fun r => negb (holds wh binds r)) rows) d)
            else (Failure "constraint violation", d)
        end
      else (Failure "statement rejected", d)
  end.

End Store.

(* ================================================================= *)
(** ** Errors, effects and [db.query] *)

Module Model.
Import Data Store.

(** The error classes of [expressError], and what the driver raises. *)
Inductive error : Type :=
| BadRequestError (message : string)
| NotFoundError (message : string)
| UnauthorizedError (message : string)
| DatabaseError (message : string).

Inductive result (A : Type) : Type :=
| Return (a : A)
| Throw (e : error).
Arguments Return {A} a.
Arguments Throw {A} e.

(** A statement as the code holds it: the SQL text, and what it means. *)
Record query : Type := { q_text : string; q_sem : stmt }.

(** The world a repository call runs in: the store, and the statements
    sent to it so far, each with its bind values. *)
Record World : Type :=
  { db : DB; sent : list (string * list value) }.

Definition M (A : Type) : Type := World -> result A * World.

Definition ret {A : Type} (a : A) : M A := fun w => (Return a, w).

Definition throw {A : Type} (e : error) : M A := fun w => (Throw e, w).

Definition bind {A B : Type} (m : M A) (k : A -> M B) : M B :=
  fun w =>
    match m w with
    | (Return a, w') => k a w'
    | (Throw e, w') => (Throw e, w')
    end.

(** [await db.query(sql, binds)]: the rows of the result. *)
Definition db_query (q : query) (binds : list value) : M (list row) :=
  fun w =>
    let (out, d') := exec (q_sem q) binds (db w) in
    let w' := {| db := d'; sent := (sent w ++ [(q_text q, binds)])%list |} in
    match out with
    | Rows rs => (Return rs, w')
    | Failure reason => (Throw (DatabaseError reason), w')
    end.

Definition canonical (q : stmt) : query :=
  {| q_text := sql_of q; q_sem := q |}.

(** [query += " WHERE " + clauses.join(" AND ")] *)
Definition add_where (q : query) (clauses : list cond) : query :=
  {| q_text := q_text q ++ " WHERE " ++ JS.join " AND " (map cond_text clauses);
     q_sem := match q_sem q with
              | Select t proj wh order => Select t proj (wh ++ clauses)%list order
              | other => other
              end |}.

(** [query += " ORDER BY " + column] *)
Definition add_order_by (q : query) (c : string) : query :=
  {| q_text := q_text q ++ " ORDER BY " ++ c;
     q_sem := match q_sem q with
              | Select t proj wh _ => Select t proj wh (Some c)
              | other => other
              end |}.

End Model.

Notation "x <- m ;; k" := (Model.bind m (fun x => k))
  (at level 61, m at next level, right associativity).
Notation "' pat <- m ;; k" := (Model.bind m (fun x => match x with pat => k end))
  (at level 61, pat pattern, m at next level, right associativity).

(* ================================================================= *)
(** ** helpers/sql.js *)

Module Sql.
Import Data Store Model.

Section MapIndexed.
Context {A B : Type} (f : A -> nat -> B).

(** [xs.map((x, idx) => f(x, idx))], with the index of the head given. *)
Fixpoint map_from (idx : nat) (xs : list A) : list B :=
  match xs with
  | [] => []
  | x :: rest => f x idx :: map_from (S idx) rest
  end.
End MapIndexed.

(** The SET clause: its text, and the assignments [column = $n] it makes. *)
Record set_clause : Type :=
  { set_text : string; set_cols : list (string * nat) }.

(** [jsToSql[colName] || colName]. *)
Definition column_for (jsToSql : list (string * string)) (colName : string)
  : string :=
  match JS.lookup colName jsToSql with
  | Some c => if JS.truthy_string c then c else colName
  | None => colName
  end.

(** Modelled from the spec: [sqlForPartialUpdate] of helpers/sql.js, which
    is imported by the repositories but is not among the sources.  Input: a
    mapping of field to new value and a mapping from field names to column
    names; output: an ordered [column = $n] clause string and the
    positionally ordered list of bind values, numbered from 1, in the
    insertion order of the input mapping; an empty mapping fails with a
    "no data" bad request. *)
Definition sqlForPartialUpdate (dataToUpdate : list (string * value))
           (jsToSql : list (string * string))
  : M (set_clause * list value) :=
  let keys := map fst dataToUpdate in
  match keys with
  | [] => throw (BadRequestError "No data")
  | _ :: _ =>
      let cols :=
        map_from (fun colName idx => (column_for jsToSql colName, idx + 1)) 0 keys in
      ret ({| set_text := JS.join ", " (map assignment_text cols);
              set_cols := cols |},
           map snd dataToUpdate)
  end.

End Sql.

(* ================================================================= *)
(** ** models/company.js *)

Module Company.
Import Data Store Model.

Definition of_number (n : option Z) : value :=
  match n with Some z => VNum z | None => VNull end.

Definition of_string (s : option string) : value :=
  match s with Some x => VStr x | None => VNull end.

Definition cond_on (c : string) (o : cmp) (k : nat) : cond :=
  {| c_col := c; c_op := o; c_param := k |}.

(** handle, name, description, num_employees AS "numEmployees",
    logo_url AS "logoUrl" *)
Definition company_shape : projection :=
  [ ("handle", "handle"); ("name", "name"); ("description", "description");
    ("num_employees", "numEmployees"); ("logo_url", "logoUrl") ].

Definition duplicate_check_sql : query :=
  {| q_text := "SELECT handle FROM companies WHERE handle = $1";
     q_sem := Select "companies" [("handle", "handle")]
                     [cond_on "handle" OpEq 1] None |}.

Definition insert_sql : query :=
  {| q_text :=
       "INSERT INTO companies" ++ JS.nl ++
       "       (handle, name, description, num_employees, logo_url)" ++ JS.nl ++
       "       VALUES ($1, $2, $3, $4, $5)" ++ JS.nl ++
       "       RETURNING " ++ JS.nl ++
       "         handle, " ++ JS.nl ++
       "         name, " ++ JS.nl ++
       "         description, " ++ JS.nl ++
       "         num_employees AS " ++ JS.dq ++ "numEmployees" ++ JS.dq ++ ", " ++ JS.nl ++
       "         logo_url AS " ++ JS.dq ++ "logoUrl" ++ JS.dq;
     q_sem := Insert "companies"
                     ["handle"; "name"; "description"; "num_employees"; "logo_url"]
                     company_shape |}.

(** Create a company (from data), update db, return new company data.
    Throws BadRequestError if company already in database. *)
Definition create (handle name description : string)
           (numEmployees : option Z) (logoUrl : option string)
  : M (option row) :=
  duplicateCheck <- db_query duplicate_check_sql [VStr handle] ;;
  match duplicateCheck with
  | _ :: _ => throw (BadRequestError ("Duplicate company: " ++ handle))
  | [] =>
      result <- db_query insert_sql
                  [VStr handle; VStr name; VStr description;
                   of_number numEmployees; of_string logoUrl] ;;
      ret (hd_error result)
  end.

Record filters : Type :=
  { minEmployees : option Z;
    maxEmployees : option Z;
    name : option string }.

Definition select_companies : query :=
  {| q_text :=
       "SELECT " ++ JS.nl ++
       "                   handle, " ++ JS.nl ++
       "                   name, " ++ JS.nl ++
       "                   description, " ++ JS.nl ++
       "                   num_employees AS " ++ JS.dq ++ "numEmployees" ++ JS.dq ++ ", " ++ JS.nl ++
       "                   logo_url AS " ++ JS.dq ++ "logoUrl" ++ JS.dq ++ " " ++ JS.nl ++
       "                 FROM companies";
     q_sem := Select "companies" company_shape [] None |}.

(** The two arrays [findAll] fills while it looks at the filters. *)
Record building : Type :=
  { values : list value; whereClauses : list cond }.

(** [values.push(v); whereClauses.push(`column op $${values.length}`)] *)
Definition push (v : value) (c : string) (o : cmp) (b : building) : building :=
  let values' := (values b ++ [v])%list in
  {| values := values';
     whereClauses :=
       (whereClauses b ++ [cond_on c o (List.length values')])%list |}.

Definition build (searchFilters : filters) : building :=
  let b := {| values := []; whereClauses := [] |} in
  let b := match minEmployees searchFilters with
           | Some m => push (VNum m) "num_employees" OpGe b
           | None => b
           end in
  let b := match maxEmployees searchFilters with
           | Some m => push (VNum m) "num_employees" OpLe b
           | None => b
           end in
  match name searchFilters with
  | Some n =>
      if JS.truthy_string n
      then push (VStr ("%" ++ n ++ "%")) "name" OpILike b
      else b
  | None => b
  end.

(** Find all companies with optional filters. *)
Definition findAll (searchFilters : filters) : M (list row) :=
  let query := select_companies in
  if JS.gt (minEmployees searchFilters) (maxEmployees searchFilters) then
    throw (BadRequestError "Min employees cannot exceed max employees")
  else
    let b := build searchFilters in
    let query :=
      if (0 <? List.length (whereClauses b))%nat
      then add_where query (whereClauses b)
      else query in
    let query := add_order_by query "name" in
    companiesRes <- db_query query (values b) ;;
    ret companiesRes.

(** A property of a returned object: a scalar, or a nested list of rows. *)
Inductive jsval : Type :=
| Scalar (v : value)
| Nested (rows : list row).

Definition object : Type := list (string * jsval).

Definition object_of_row (r : row) : object :=
  map (fun kv => (fst kv, Scalar (snd kv))) r.

Definition select_company_sql : query :=
  {| q_text :=
       "SELECT " ++ JS.nl ++
       "         handle, " ++ JS.nl ++
       "         name, " ++ JS.nl ++
       "         description, " ++ JS.nl ++
       "         num_employees AS " ++ JS.dq ++ "numEmployees" ++ JS.dq ++ ", " ++ JS.nl ++
       "         logo_url AS " ++ JS.dq ++ "logoUrl" ++ JS.dq ++ JS.nl ++
       "       FROM companies" ++ JS.nl ++
       "       WHERE handle = $1";
     q_sem := Select "companies" company_shape [cond_on "handle" OpEq 1] None |}.

Definition select_jobs_sql : query :=
  {| q_text :=
       "SELECT " ++ JS.nl ++
       "         id, " ++ JS.nl ++
       "         title, " ++ JS.nl ++
       "         salary, " ++ JS.nl ++
       "         equity " ++ JS.nl ++
       "       FROM jobs" ++ JS.nl ++
       "       WHERE company_handle = $1" ++ JS.nl ++
       "       ORDER BY id";
     q_sem := Select "jobs"
                     [("id", "id"); ("title", "title"); ("salary", "salary");
                      ("equity", "equity")]
                     [cond_on "company_handle" OpEq 1] (Some "id") |}.

(** Get company by handle with associated jobs.
    Throws NotFoundError if not found. *)
Definition get (handle : string) : M object :=
  companyRes <- db_query select_company_sql [VStr handle] ;;
  match companyRes with
  | [] => throw (NotFoundError ("No company: " ++ handle))
  | company :: _ =>
      jobsRes <- db_query select_jobs_sql [VStr handle] ;;
      ret (JS.set_prop "jobs" (Nested jobsRes) (object_of_row company))
  end.

Definition jsToSql : list (string * string) :=
  [ ("numEmployees", "num_employees"); ("logoUrl", "logo_url") ].

Definition update_sql (setCols : Sql.set_clause) (n : nat) : query :=
  let handleVarIdx := "$" ++ JS.show_nat (n + 1) in
  {| q_text :=
       JS.nl ++
       "      UPDATE companies" ++ JS.nl ++
       "      SET " ++ Sql.set_text setCols ++ JS.nl ++
       "      WHERE handle = " ++ handleVarIdx ++ JS.nl ++
       "      RETURNING " ++ JS.nl ++
       "        handle, " ++ JS.nl ++
       "        name, " ++ JS.nl ++
       "        description, " ++ JS.nl ++
       "        num_employees AS " ++ JS.dq ++ "numEmployees" ++ JS.dq ++ ", " ++ JS.nl ++
       "        logo_url AS " ++ JS.dq ++ "logoUrl" ++ JS.dq ++ JS.nl ++
       "    ";
     q_sem := Update "companies" (Sql.set_cols setCols)
                     [cond_on "handle" OpEq (n + 1)] company_shape |}.

(** Update company data with partial update.
    Throws NotFoundError if not found.
    [data] lists the own properties of the object with their values, in the
    order in which [Object.keys] enumerates them. *)
Definition update (handle : string) (data : list (string * value)) : M row :=
  ' (setCols, values) <- Sql.sqlForPartialUpdate data jsToSql ;;
  let querySql := update_sql setCols (List.length values) in
  result <- db_query querySql (values ++ [VStr handle])%list ;;
  match result with
  | [] => throw (NotFoundError ("No company: " ++ handle))
  | company :: _ => ret company
  end.

Definition delete_sql : query :=
  {| q_text :=
       "DELETE FROM companies" ++ JS.nl ++
       "       WHERE handle = $1" ++ JS.nl ++
       "       RETURNING handle";
     q_sem := Delete "companies" [cond_on "handle" OpEq 1]
                     [("handle", "handle")] |}.

(** Delete company from database.
    Throws NotFoundError if company not found. *)
Definition remove (handle : string) : M unit :=
  result <- db_query delete_sql [VStr handle] ;;
  match result with
  | [] => throw (NotFoundError ("No company: " ++ handle))
  | _ :: _ => ret tt
  end.

End Company.

(* ================================================================= *)
(** ** models/job.js *)

Module Job.
Import Data Store Model.

Definition job_shape : projection :=
  [ ("id", "id"); ("title", "title"); ("salary", "salary");
    ("equity", "equity"); ("company_handle", "companyHandle") ].

Definition jsToSql : list (string * string) :=
  [ ("companyHandle", "company_handle") ].

(** Modelled from the spec: [Job.update] (models/job.js is not among the
    sources).  "Mirrors Company's shape ... update(id, data) ... Same
    builder and error policy as 4.2": a partial update through the SET
    builder, failing with "not found" when no row is affected. *)
Definition update (id : Z) (data : list (string * value)) : M row :=
  ' (setCols, values) <- Sql.sqlForPartialUpdate data jsToSql ;;
  let idVarIdx := (List.length values + 1)%nat in
  let querySql :=
    canonical (Update "jobs" (Sql.set_cols setCols)
                      [Company.cond_on "id" OpEq idVarIdx] job_shape) in
  result <- db_query querySql (values ++ [VNum id])%list ;;
  match result with
  | [] => throw (NotFoundError ("No job: " ++ JS.show_Z id))
  | job :: _ => ret job
  end.

(** Modelled from the spec: [Job.remove] (models/job.js is not among the
    sources).  "remove(id)", with the error policy of 4.2: fails with "not
    found" if zero rows are affected. *)
Definition remove (id : Z) : M unit :=
  result <- db_query
              (canonical (Delete "jobs" [Company.cond_on "id" OpEq 1]
                                 [("id", "id")]))
              [VNum id] ;;
  match result with
  | [] => throw (NotFoundError ("No job: " ++ JS.show_Z id))
  | _ :: _ => ret tt
  end.

End Job.

(* ================================================================= *)
(** ** models/user.js *)

Module User.
Import Data Store Model.

Definition user_shape : projection :=
  [ ("username", "username"); ("first_name", "firstName");
    ("last_name", "lastName"); ("email", "email"); ("is_admin", "isAdmin") ].

Definition jsToSql : list (string * string) :=
  [ ("firstName", "first_name"); ("lastName", "last_name");
    ("isAdmin", "is_admin") ].

Definition invalid_credentials : error :=
  UnauthorizedError "Invalid username/password".

Section Bcrypt.
(** The password-hash library: [bcrypt.hash(password, workFactor)] and
    [bcrypt.compare(password, hashed)]. *)
Variable bcrypt_hash : string -> string.
Variable bcrypt_compare : string -> string -> bool.

(** Modelled from the spec: [User.authenticate] (models/user.js is not
    among the sources; models/user.test.js is).  "looks up user by
    username; fails with unauthorized (generic invalid
    username/password, not distinguishing which was wrong) if absent or
    if the password hash check fails; on success returns the user sans
    password". *)
Definition authenticate (username password : string) : M row :=
  result <- db_query
              (canonical
                 (Select "users" (("password", "password") :: user_shape)
                         [Company.cond_on "username" OpEq 1] None))
              [VStr username] ;;
  match result with
  | user :: _ =>
      let isValid :=
        match get "password" user with
        | VStr hashed => bcrypt_compare password hashed
        | _ => false
        end in
      if isValid then ret (JS.delete_prop "password" user)
      else throw invalid_credentials
  | [] => throw invalid_credentials
  end.

(** Modelled from the spec: [User.register].  "fails with duplicate if
    username exists; hashes password ... before storing; defaults
    isAdmin to false if unspecified"; the test expects the message to
    contain "Duplicate username" and the result to be the user without
    the password. *)
Definition register (username password firstName lastName email : string)
           (isAdmin : option bool) : M (option row) :=
  duplicateCheck <- db_query
                      (canonical
                         (Select "users" [("username", "username")]
                                 [Company.cond_on "username" OpEq 1] None))
                      [VStr username] ;;
  match duplicateCheck with
  | _ :: _ => throw (BadRequestError ("Duplicate username: " ++ username))
  | [] =>
      let hashedPassword := bcrypt_hash password in
      result <- db_query
                  (canonical
                     (Insert "users"
                             ["username"; "password"; "first_name";
                              "last_name"; "email"; "is_admin"]
                             user_shape))
                  [VStr username; VStr hashedPassword; VStr firstName;
                   VStr lastName; VStr email;
                   VBool (match isAdmin with Some b => b | None => false end)] ;;
      ret (hd_error result)
  end.

(** [if (data.password) data.password = await bcrypt.hash(...)] *)
Definition rehash (data : list (string * value)) : list (string * value) :=
  match JS.lookup "password" data with
  | Some (VStr p) =>
      if JS.truthy_string p
      then JS.set_prop "password" (VStr (bcrypt_hash p)) data
      else data
  | _ => data
  end.

(** Modelled from the spec: [User.update].  "partial update; if
    password present, re-hash before storing; fails with not found if
    absent"; the test expects the message to contain "No user found". *)
Definition update (username : string) (data : list (string * value))
  : M row :=
  let data := rehash data in
  ' (setCols, values) <- Sql.sqlForPartialUpdate data jsToSql ;;
  let usernameVarIdx := (List.length values + 1)%nat in
  let querySql :=
    canonical (Update "users" (Sql.set_cols setCols)
                      [Company.cond_on "username" OpEq usernameVarIdx]
                      user_shape) in
  result <- db_query querySql (values ++ [VStr username])%list ;;
  match result with
  | [] => throw (NotFoundError ("No user found: " ++ username))
  | user :: _ => ret user
  end.

End Bcrypt.

(** Modelled from the spec: [User.remove].  "fails with not found if
    absent"; the test expects the message to contain "No user found". *)
Definition remove (username : string) : M unit :=
  result <- db_query
              (canonical (Delete "users" [Company.cond_on "username" OpEq 1]
                                 [("username", "username")]))
              [VStr username] ;;
  match result with
  | [] => throw (NotFoundError ("No user found: " ++ username))
  | _ :: _ => ret tt
  end.

(** Modelled from the spec: [User.applyToJob].  "applyToJob(username,
    jobId, status = applied): fails with not found if username or jobId
    does not exist (two separate existence checks, distinct error messages
    naming which entity is missing); fails with bad request: already
    applied if the (username, jobId) pair already exists; otherwise inserts
    the application row"; the tests expect "No job", "No username" and
    "Already applied".  Which of the two checks comes first is not said;
    here the job is looked up first, so that with both missing the error
    names the job. *)
Definition applyToJob (username : string) (jobId : Z) (status : option string)
  : M unit :=
  let status := match status with Some s => s | None => "applied" end in
  jobCheck <- db_query
                (canonical (Select "jobs" [("id", "id")]
                                   [Company.cond_on "id" OpEq 1] None))
                [VNum jobId] ;;
  match jobCheck with
  | [] => throw (NotFoundError ("No job: " ++ JS.show_Z jobId))
  | _ :: _ =>
      userCheck <- db_query
                     (canonical (Select "users" [("username", "username")]
                                        [Company.cond_on "username" OpEq 1] None))
                     [VStr username] ;;
      match userCheck with
      | [] => throw (NotFoundError ("No username: " ++ username))
      | _ :: _ =>
          applied <- db_query
                       (canonical
                          (Select "applications" [("job_id", "job_id")]
                                  [Company.cond_on "username" OpEq 1;
                                   Company.cond_on "job_id" OpEq 2] None))
                       [VStr username; VNum jobId] ;;
          match applied with
          | _ :: _ =>
              throw (BadRequestError
                       ("Already applied to job: " ++ JS.show_Z jobId))
          | [] =>
              _ <- db_query
                     (canonical
                        (Insert "applications"
                                ["job_id"; "username"; "status"]
                                [("job_id", "job_id")]))
                     [VNum jobId; VStr username; VStr status] ;;
              ret tt
          end
      end
  end.

End User.

(* ================================================================= *)
(** ** src/API/api.js *)

Module Api.

(** JavaScript values, as far as responses and errors are made of them. *)
Inductive js : Type :=
| JUndefined
| JNull
| JBool (b : bool)
| JNumber (n : Z)
| JString (s : string)
| JArray (items : list js)
| JObject (props : list (string * js)).

(** What a [throw] carries: a TypeError raised by the engine, or the value
    the code threw. *)
Inductive thrown : Type :=
| TypeError (message : string)
| Value (v : js).

Inductive completion (A : Type) : Type :=
| Normal (a : A)
| Abrupt (t : thrown).
Arguments Normal {A} a.
Arguments Abrupt {A} t.

(** [o.k]: reading a property of undefined or null raises a TypeError; a
    missing property reads as undefined. *)
Definition member (o : js) (k : string) : completion js :=
  match o with
  | JUndefined =>
      Abrupt (TypeError ("Cannot read properties of undefined (reading '"
                         ++ k ++ "')"))
  | JNull =>
      Abrupt (TypeError ("Cannot read properties of null (reading '"
                         ++ k ++ "')"))
  | JObject props =>
      Normal (match JS.lookup k props with Some v => v | None => JUndefined end)
  | _ => Normal JUndefined
  end.

Definition and_then {A B : Type} (c : completion A) (k : A -> completion B)
  : completion B :=
  match c with
  | Normal a => k a
  | Abrupt t => Abrupt t
  end.

(** The value a [catch (err)] clause binds. *)
Definition caught (t : thrown) : js :=
  match t with
  | Value v => v
  | TypeError m => JObject [("name", JString "TypeError"); ("message", JString m)]
  end.

(** [Array.isArray]. *)
Definition isArray (v : js) : bool :=
  match v with JArray _ => true | _ => false end.



Record config : Type :=
  { url : string;
    method : string;
    data : js;
    params : js;
    headers : list (string * string) }.

(** How the promise returned by [axios(config)] settles. *)
Inductive settled : Type :=
| Fulfilled (response : js)
| Rejected (reason : js).

(** [process.env.REACT_APP_BASE_URL || "http://localhost:3001"] *)
Definition BASE_URL (env : option string) : string :=
  match env with
  | Some u => if JS.truthy_string u then u else "http://localhost:3001"
  | None => "http://localhost:3001"
  end.

(** [err.response.data.error.message] *)
Definition message_of (err : js) : completion js :=
  and_then (member err "response") (fun response =>
  and_then (member response "data") (fun data =>
  and_then (member data "error") (fun error =>
  member error "message"))).

Section Request.
Variable env : option string.          (* REACT_APP_BASE_URL *)
Variable token : string.               (* JoblyApi.token *)
Variable axios : config -> settled.

(** The argument of the [axios] call. *)
Definition request_config (endpoint : string) (data : option js)
           (method : option string) : config :=
  let data := match data with Some d => d | None => JObject [] end in
  let method := match method with Some m => m | None => "get" end in
  let url := BASE_URL env ++ "/" ++ endpoint in
  let headers := [("Authorization", "Bearer " ++ token)] in
  let params := if String.eqb method "get" then data else JObject [] in
  {| url := url; method := method; data := data; params := params;
     headers := headers |}.

Definition request (endpoint : string) (data : option js)
           (method : option string) : completion js :=
  let attempt :=
    match axios (request_config endpoint data method) with
    | Fulfilled response => member response "data"
    | Rejected reason => Abrupt (Value reason)
    end in
  match attempt with
  | Normal v => Normal v
  | Abrupt t =>
      let err := caught t in
      and_then (message_of err) (fun message =>
      Abrupt (Value (if isArray message then message else JArray [message])))
  end.
(** Individual API routes. *)

(** Get details on a company by handle. *)
Definition getCompany (handle : string) : completion js :=
  and_then (request ("companies/" ++ handle) None None)
           (fun res => member res "company").

(** Get list of companies (optional filter by name). *)
Definition getCompanies (name : option string) : completion js :=
  let name := match name with Some n => n | None => EmptyString end in
  and_then (request "companies" (Some (JObject [("name", JString name)])) None)
           (fun res => member res "companies").

(** Get list of jobs (optional filter by title). *)
Definition getJobs (title : option string) : completion js :=
  let title := match title with Some t => t | None => EmptyString end in
  and_then (request "jobs" (Some (JObject [("title", JString title)])) None)
           (fun res => member res "jobs").

(** Get details on a job by ID. *)
Definition getJob (id : Z) : completion js :=
  and_then (request ("jobs/" ++ JS.show_Z id) None None)
           (fun res => member res "job").

(** Register a new user. *)
Definition signup (data : option js) : completion js :=
  and_then (request "auth/register" data (Some "post"))
           (fun res => member res "token").

(** Log in a user. *)
Definition login (data : option js) : completion js :=
  and_then (request "auth/token" data (Some "post"))
           (fun res => member res "token").

(** Get details on the current user. *)
Definition getCurrentUser (username : string) : completion js :=
  and_then (request ("users/" ++ username) None None)
           (fun res => member res "user").

(** Update user profile. *)
Definition updateProfile (username : string) (data : option js)
  : completion js :=
  and_then (request ("users/" ++ username) data (Some "patch"))
           (fun res => member res "user").

(** Apply to a job. *)
Definition applyToJob (username : string) (jobId : Z) : completion js :=
  and_then (request ("users/" ++ username ++ "/jobs/" ++ JS.show_Z jobId)
                    (Some (JObject [])) (Some "post"))
           (fun _ => Normal JUndefined).
End Request.

End Api.

(* ================================================================= *)
(** ** What the specification talks about *)

Module Spec.
Import Data Store Model.

(** No row of the table carries this key. *)
Definition absent (c : string) (k : value) (rows : list row) : Prop :=
  forall r, In r rows -> get c r <> k.

(** Some row of the table carries this key. *)
Definition present (c : string) (k : value) (rows : list row) : Prop :=
  exists r, In r rows /\ get c r = k.

(** Rows in ascending order of a column. *)
Definition ascending (c : string) (rows : list row) : Prop :=
  Sorted (fun a b => value_leb (get c a) (get c b) = true) rows.

Definition at_least (m : Z) (v : value) : bool :=
  match v with VNum n => (m <=? n)%Z | _ => false end.

Definition at_most (m : Z) (v : value) : bool :=
  match v with VNum n => (n <=? m)%Z | _ => false end.

Definition name_like (n : string) (v : value) : bool :=
  match v with VStr s => Like.ilike ("%" ++ n ++ "%") s | _ => false end.

(** The predicate the specification gives for [findAll]: the conjunction
    of num_employees >= minEmployees, num_employees <= maxEmployees and the
    match on name, each only when its filter is provided. *)
Definition satisfies (f : Company.filters) (r : row) : bool :=
  match Company.minEmployees f with
  | Some m => at_least m (get "num_employees" r)
  | None => true
  end
  && match Company.maxEmployees f with
     | Some m => at_most m (get "num_employees" r)
     | None => true
     end
  && match Company.name f with
     | Some n => if JS.truthy_string n then name_like n (get "name" r) else true
     | None => true
     end.

(** One entry per provided filter: column, comparison, value compared
    with. *)
Definition provided (f : Company.filters) : list (string * cmp * value) :=
  (match Company.minEmployees f with
   | Some m => [("num_employees", OpGe, VNum m)]
   | None => []
   end
   ++ match Company.maxEmployees f with
      | Some m => [("num_employees", OpLe, VNum m)]
      | None => []
      end
   ++ match Company.name f with
      | Some n =>
          if JS.truthy_string n then [("name", OpILike, VStr ("%" ++ n ++ "%"))]
          else []
      | None => []
      end)%list.

(** A WHERE condition with its placeholder resolved against the binds. *)
Definition resolved (binds : list value) (c : cond)
  : option (string * cmp * value) :=
  option_map (fun v => (c_col c, c_op c, v)) (param binds (c_param c)).

(** The name filter as the specification words it: the name contains the
    filter text, letter case ignored. *)
Definition name_contains (n : string) (v : value) : Prop :=
  match v with VStr s => Like.contains_ci n s | _ => False end.

(** A stored row passes the filters as the specification words them. *)
Definition passes (f : Company.filters) (r : row) : Prop :=
  (forall m, Company.minEmployees f = Some m ->
             at_least m (get "num_employees" r) = true)
  /\ (forall m, Company.maxEmployees f = Some m ->
                at_most m (get "num_employees" r) = true)
  /\ (forall n, Company.name f = Some n -> name_contains n (get "name" r)).

(** [findAll] returns only companies that pass the filters. *)
Definition returns_only_passing (f : Company.filters) (w : World) : Prop :=
  forall rows r,
    fst (Company.findAll f w) = Return rows -> In r rows ->
    exists r0, In r0 (companies (db w))
               /\ r = project Company.company_shape r0 /\ passes f r0.

(** The filters are in range: not both bounds given with min > max. *)
Definition in_range (f : Company.filters) : Prop :=
  JS.gt (Company.minEmployees f) (Company.maxEmployees f) = false.

(** The data of an update names existing, distinct columns of the table
    and gives each of them a value of the column's type. *)
Definition accepted (def : tabledef) (jsToSql : list (string * string))
           (data : list (string * value)) : bool :=
  distinct (map (fun kv => Sql.column_for jsToSql (fst kv)) data)
  && forallb (fun kv =>
                match find_col (Sql.column_for jsToSql (fst kv)) (t_cols def) with
                | Some col => has_type (col_type col) (snd kv)
                | None => false
                end) data.

(** Updating the company with this handle throws NotFound whatever the
    data. *)
Definition update_always_not_found (handle : string) (w : World) : Prop :=
  forall data, exists message,
    fst (Company.update handle data w) = Throw (NotFoundError message).

(** The user has an application for the job on record. *)
Definition applied (username : string) (jobId : Z) (rows : list row) : Prop :=
  exists r, In r rows /\ get "username" r = VStr username
            /\ get "job_id" r = VNum jobId.

(** The password checks against the hash stored in the user's row. *)
Definition password_matches (compare : string -> string -> bool)
           (password : string) (u : row) : bool :=
  match get "password" u with
  | VStr hashed => compare password hashed
  | _ => false
  end.

(** The world after one more statement went to the store. *)
Definition after (w : World) (d : DB) (q : query) (binds : list value)
  : World :=
  {| db := d; sent := (sent w ++ [(q_text q, binds)])%list |}.

(** [f'] asks for at least what [f] asks for: every bound of [f] is a bound
    of [f'], as tight or tighter, and a name filter of [f] is kept. *)
Definition stricter (f' f : Company.filters) : Prop :=
  (forall m, Company.minEmployees f = Some m ->
             exists m', Company.minEmployees f' = Some m' /\ (m <= m')%Z)
  /\ (forall m, Company.maxEmployees f = Some m ->
                exists m', Company.maxEmployees f' = Some m' /\ (m' <= m)%Z)
  /\ (forall n, Company.name f = Some n -> JS.truthy_string n = true ->
                Company.name f' = Some n).

(** The rows of a table that do not carry this key. *)
Definition without (c : string) (k : value) (rows : list row) : list row :=
  filter (fun r => negb (value_eqb (get c r) k)) rows.

(** What [Array.isArray(message) ? message : [message]] evaluates to. *)
Definition as_array (message : Api.js) : Api.js :=
  if Api.isArray message then message else Api.JArray [message].


End Spec.

(* ================================================================= *)
(** ** A small store to run the repositories on *)

Module Sample.
Import Data Store Model.

Definition company (handle name : string) (numEmployees : value) : row :=
  [ ("handle", VStr handle); ("name", VStr name);
    ("description", VStr "A company"); ("num_employees", numEmployees);
    ("logo_url", VNull) ].

Definition job (id : Z) (title companyHandle : string) : row :=
  [ ("id", VNum id); ("title", VStr title); ("salary", VNull);
    ("equity", VNull); ("company_handle", VStr companyHandle) ].

Definition user (username hashed : string) : row :=
  [ ("username", VStr username); ("password", VStr hashed);
    ("first_name", VStr "U1F"); ("last_name", VStr "U1L");
    ("email", VStr "u1@email.com"); ("is_admin", VBool false) ].

(** A stand-in for the password hash, good enough to run the code on. *)
Definition toy_hash (password : string) : string := "$2b$" ++ password.

Definition toy_compare (password hashed : string) : bool :=
  String.eqb hashed (toy_hash password).

Definition store : DB :=
  {| companies :=
       [ company "c2" "Zenith" (VNum 20); company "c1" "Acme" (VNum 0);
         company "c3" "Burrow" VNull ];
     jobs := [ job 3 "Welder" "c1"; job 1 "Baker" "c1"; job 2 "Clerk" "c2" ];
     users := [ user "u1" (toy_hash "password1") ];
     applications :=
       [ [ ("username", VStr "u1"); ("job_id", VNum 1);
           ("status", VStr "applied") ] ] |}.

Definition world : World := {| db := store; sent := [] |}.

(** A rejected request as the backend answers it: [{error: {message}}]. *)
Definition rejection (message : Api.js) : Api.js :=
  Api.JObject
    [ ("response",
       Api.JObject
         [ ("data",
            Api.JObject [ ("error", Api.JObject [ ("message", message) ]) ]) ]) ].



End Sample.

(* ================================================================= *)
(** * Proofs *)

Import Data Store Model.

(** ** Lists, values and sorting *)

Lemma value_eqb_eq (a b : value) : value_eqb a b = true <-> a = b.
Proof.
  destruct a, b; simpl; split; intros H; try discriminate; try reflexivity.
  - apply Bool.eqb_prop in H. now subst.
  - injection H as ->. apply Bool.eqb_reflx.
  - apply Z.eqb_eq in H. now subst.
  - injection H as ->. apply Z.eqb_refl.
  - apply String.eqb_eq in H. now subst.
  - injection H as ->. apply String.eqb_refl.
Qed.

Lemma value_eqb_neq (a b : value) : a <> b -> value_eqb a b = false.
Proof.
  intros H. destruct (value_eqb a b) eqn:E; [|reflexivity].
  apply value_eqb_eq in E. contradiction.
Qed.

Lemma value_leb_total (a b : value) :
  value_leb a b = true \/ value_leb b a = true.
Proof.
  destruct a, b; simpl; auto.
  - destruct b, b0; auto.
  - destruct (Z.leb_spec n n0); [auto|right; apply Z.leb_le; lia].
  - apply String.leb_total.
Qed.

Lemma filter_none {A : Type} (f : A -> bool) (l : list A) :
  (forall x, In x l -> f x = false) -> filter f l = [].
Proof.
  induction l as [|x l IH]; simpl; intros H; [reflexivity|].
  rewrite (H x (or_introl eq_refl)). apply IH. intros y Hy. apply H. now right.
Qed.

Lemma filter_all {A : Type} (f : A -> bool) (l : list A) :
  (forall x, In x l -> f x = true) -> filter f l = l.
Proof.
  induction l as [|x l IH]; simpl; intros H; [reflexivity|].
  rewrite (H x (or_introl eq_refl)). f_equal. apply IH. intros y Hy. apply H. now right.
Qed.

Lemma filter_some {A : Type} (f : A -> bool) (l : list A) (x : A) :
  In x l -> f x = true -> exists y rest, filter f l = y :: rest.
Proof.
  intros Hin Hf. destruct (filter f l) as [|y rest] eqn:E.
  - assert (In x (filter f l)) as Hx by (apply filter_In; auto).
    rewrite E in Hx. destruct Hx.
  - eauto.
Qed.

Section SortFacts.
Context {A : Type} (leb : A -> A -> bool).
Hypothesis leb_total : forall a b, leb a b = true \/ leb b a = true.

Lemma insert_perm (x : A) (l : list A) : Permutation (x :: l) (insert leb x l).
Proof.
  induction l as [|y l IH]; simpl; [apply Permutation_refl|].
  destruct (leb x y); [apply Permutation_refl|].
  eapply perm_trans; [apply perm_swap|]. now apply perm_skip.
Qed.

Lemma sort_perm (l : list A) : Permutation l (sort leb l).
Proof.
  induction l as [|x l IH]; simpl; [constructor|].
  eapply perm_trans; [apply perm_skip, IH|]. apply insert_perm.
Qed.

Lemma insert_hd (x a : A) (l : list A) :
  leb a x = true ->
  HdRel (fun a b => leb a b = true) a l ->
  HdRel (fun a b => leb a b = true) a (insert leb x l).
Proof.
  intros Hax Hl. destruct l as [|y l]; simpl; [now constructor|].
  destruct (leb x y); constructor; [exact Hax|].
  now inversion Hl.
Qed.

Lemma insert_sorted (x : A) (l : list A) :
  Sorted (fun a b => leb a b = true) l ->
  Sorted (fun a b => leb a b = true) (insert leb x l).
Proof.
  induction l as [|y l IH]; simpl; intros Hs.
  - repeat constructor.
  - destruct (leb x y) eqn:E.
    + constructor; [exact Hs|]. now constructor.
    + inversion Hs as [|? ? Hs' Hhd]; subst.
      constructor; [now apply IH|].
      apply insert_hd; [|exact Hhd].
      destruct (leb_total x y) as [H|H]; [congruence|exact H].
Qed.

Lemma sort_sorted (l : list A) : Sorted (fun a b => leb a b = true) (sort leb l).
Proof.
  induction l as [|x l IH]; simpl; [constructor|]. now apply insert_sorted.
Qed.
End SortFacts.

Lemma in_sorted_filter {A : Type} (leb : A -> A -> bool) (f : A -> bool)
      (l : list A) (x : A) :
  In x (sort leb (filter f l)) <-> In x l /\ f x = true.
Proof.
  rewrite <- filter_In. split; intros H.
  - apply (Permutation_in _ (Permutation_sym (sort_perm leb _)) H).
  - apply (Permutation_in _ (sort_perm leb _) H).
Qed.

Lemma Sorted_map {A B : Type} (R : A -> A -> Prop) (S : B -> B -> Prop)
      (f : A -> B) (l : list A) :
  (forall a b, R a b -> S (f a) (f b)) -> Sorted R l -> Sorted S (map f l).
Proof.
  intros HRS. induction 1 as [|a l Hs IH Hhd]; simpl; constructor; [exact IH|].
  destruct Hhd; simpl; constructor. now apply HRS.
Qed.

(** A projection that keeps column [c] under its own name keeps its value. *)
Lemma get_project (p : projection) (c : string) (r : row) :
  JS.lookup c (map (fun ca => (snd ca, fst ca)) p) = Some c ->
  get c (project p r) = get c r.
Proof.
  unfold get, project. induction p as [|[col key] p IH]; simpl; [discriminate|].
  destruct (String.eqb c key) eqn:E.
  - intros [= ->]. reflexivity.
  - exact IH.
Qed.

Lemma ordered_projection (p : projection) (c : string) (rows : list row) :
  JS.lookup c (map (fun ca => (snd ca, fst ca)) p) = Some c ->
  Spec.ascending c (map (project p) (order_rows (Some c) rows)).
Proof.
  intros Hp. unfold Spec.ascending, order_rows.
  apply Sorted_map with (R := fun a b => key_leb c a b = true).
  - intros a b Hab. unfold key_leb in Hab. now rewrite !get_project.
  - apply sort_sorted. intros a b. apply value_leb_total.
Qed.

(** ** Running one statement *)

Lemma set_table_same (t : string) (d : DB) (def : tabledef) (rows : list row) :
  get_table t d = Some (def, rows) -> set_table t rows d = d.
Proof.
  unfold get_table, set_table. destruct d as [c j u a]; simpl.
  repeat (match goal with |- context [String.eqb t ?s] => destruct (String.eqb t s) end;
          [intros [= _ <-]; reflexivity|]).
  discriminate.
Qed.

Lemma holds_single (c : string) (k : nat) (binds : list value) (v : value)
      (r : row) :
  param binds k = Some v -> v <> VNull ->
  holds [Company.cond_on c OpEq k] binds r = value_eqb (get c r) v.
Proof.
  intros Hk Hv. unfold holds, eval_cond; simpl. rewrite Hk, andb_true_r.
  unfold sql_cmp. destruct (get c r), v; try reflexivity; contradiction.
Qed.

Lemma param_last (vals : list value) (v : value) :
  param (vals ++ [v]) (List.length vals + 1) = Some v.
Proof.
  rewrite Nat.add_1_r. simpl. rewrite nth_error_app2 by lia.
  now rewrite Nat.sub_diag.
Qed.

Lemma select_runs (q : query) (t : string) (p : projection) (wh : list cond)
      (o : option string) (binds : list value) (w : World) (def : tabledef)
      (rows : list row) :
  q_sem q = Select t p wh o ->
  get_table t (db w) = Some (def, rows) ->
  stmt_ok def (Select t p wh o) binds = true ->
  db_query q binds w
  = (Return (map (project p) (order_rows o (filter (holds wh binds) rows))),
     Spec.after w (db w) q binds).
Proof.
  intros Hq Ht Hok. unfold db_query, exec. rewrite Hq. simpl stmt_table.
  rewrite Ht, Hok. reflexivity.
Qed.

Lemma delete_runs (q : query) (t : string) (wh : list cond) (ret : projection)
      (binds : list value) (w : World) (def : tabledef) (rows : list row) :
  q_sem q = Delete t wh ret ->
  get_table t (db w) = Some (def, rows) ->
  stmt_ok def (Delete t wh ret) binds = true ->
  forallb (unreferenced t (db w)) (filter (holds wh binds) rows) = true ->
  db_query q binds w
  = (Return (map (project ret) (filter (holds wh binds) rows)),
     Spec.after w
       (set_table t (filter (fun r => negb (holds wh binds r)) rows) (db w))
       q binds).
Proof.
  intros Hq Ht Hok Hfk. unfold db_query, exec. rewrite Hq. simpl stmt_table.
  rewrite Ht, Hok. cbv zeta. rewrite Hfk. reflexivity.
Qed.

Lemma delete_misses (q : query) (t : string) (wh : list cond) (ret : projection)
      (binds : list value) (w : World) (def : tabledef) (rows : list row) :
  q_sem q = Delete t wh ret ->
  get_table t (db w) = Some (def, rows) ->
  stmt_ok def (Delete t wh ret) binds = true ->
  (forall r, In r rows -> holds wh binds r = false) ->
  db_query q binds w = (Return [], Spec.after w (db w) q binds).
Proof.
  intros Hq Ht Hok Hmiss.
  rewrite (delete_runs _ _ _ _ _ _ _ _ Hq Ht Hok);
    [|now rewrite (filter_none _ _ Hmiss)].
  rewrite (filter_none _ _ Hmiss). rewrite filter_all.
  - now rewrite (set_table_same _ _ _ _ Ht).
  - intros r Hr. now rewrite (Hmiss r Hr).
Qed.

(** An UPDATE whose WHERE matches no row: the store is left as it was, and
    the call either returns no row or is refused. *)
Lemma update_misses (q : query) (t : string) (set : list (string * nat))
      (wh : list cond) (ret : projection) (binds : list value) (w : World)
      (def : tabledef) (rows : list row) :
  q_sem q = Update t set wh ret ->
  get_table t (db w) = Some (def, rows) ->
  (forall r, In r rows -> holds wh binds r = false) ->
  db_query q binds w
  = (if stmt_ok def (Update t set wh ret) binds then Return []
     else Throw (DatabaseError "statement rejected"),
     Spec.after w (db w) q binds).
Proof.
  intros Hq Ht Hmiss. unfold db_query, exec. rewrite Hq. simpl stmt_table.
  rewrite Ht. destruct (stmt_ok def (Update t set wh ret) binds); [|reflexivity].
  now rewrite (filter_none _ _ Hmiss).
Qed.

Lemma insert_runs (q : query) (t : string) (cols : list string)
      (ret : projection) (binds : list value) (w : World) (def : tabledef)
      (rows : list row) :
  q_sem q = Insert t cols ret ->
  get_table t (db w) = Some (def, rows) ->
  stmt_ok def (Insert t cols ret) binds = true ->
  row_ok def (new_row def cols binds) = true ->
  (forall r, In r rows -> same_key def (new_row def cols binds) r = false) ->
  refs_ok def (db w) (new_row def cols binds) = true ->
  db_query q binds w
  = (Return [project ret (new_row def cols binds)],
     Spec.after w (set_table t (rows ++ [new_row def cols binds])%list (db w))
                q binds).
Proof.
  intros Hq Ht Hok Hrow Hkey Hfk. unfold db_query, exec. rewrite Hq.
  simpl stmt_table. rewrite Ht, Hok. cbv zeta. rewrite Hrow, Hfk.
  assert (existsb (same_key def (new_row def cols binds)) rows = false) as ->.
  { clear -Hkey. induction rows as [|r rows IH]; simpl; [reflexivity|].
    rewrite (Hkey r (or_introl eq_refl)). apply IH.
    intros r' Hr'. apply Hkey. now right. }
  reflexivity.
Qed.

(** Looking a key up in a table that does not hold it finds nothing; in one
    that holds it, something. *)
Lemma lookup_misses (c : string) (v : value) (rows : list row) (k : nat)
      (binds : list value) :
  param binds k = Some v -> v <> VNull -> Spec.absent c v rows ->
  forall r, In r rows -> holds [Company.cond_on c OpEq k] binds r = false.
Proof.
  intros Hk Hv Habs r Hr. rewrite (holds_single _ _ _ _ _ Hk Hv).
  apply value_eqb_neq. now apply Habs.
Qed.

Lemma lookup_hits (c : string) (v : value) (rows : list row) (k : nat)
      (binds : list value) :
  param binds k = Some v -> v <> VNull -> Spec.present c v rows ->
  exists r rest,
    filter (holds [Company.cond_on c OpEq k] binds) rows = r :: rest
    /\ In r rows /\ get c r = v.
Proof.
  intros Hk Hv (r0 & Hin & Hget).
  destruct (filter_some (holds [Company.cond_on c OpEq k] binds) rows r0 Hin)
    as (r & rest & E).
  { rewrite (holds_single _ _ _ _ _ Hk Hv). now apply value_eqb_eq. }
  exists r, rest. split; [exact E|].
  assert (In r (filter (holds [Company.cond_on c OpEq k] binds) rows)) as Hr
      by (rewrite E; now left).
  apply filter_In in Hr. destruct Hr as [Hr1 Hr2]. split; [exact Hr1|].
  rewrite (holds_single _ _ _ _ _ Hk Hv) in Hr2. now apply value_eqb_eq.
Qed.

(** ** LIKE patterns of the form %name% *)

Lemma parse_percent_ends (n : string) :
  Like.parse (n ++ "%") <> None
  /\ forall c, Like.parse (String c (n ++ "%")) <> None.
Proof.
  induction n as [|a n [IH1 IH2]].
  - split; [discriminate|]. intros c. simpl.
    destruct (Ascii.eqb c "%"), (Ascii.eqb c "_"), (Ascii.eqb c "\"); discriminate.
  - split; [apply IH2|]. intros c.
    change (String c (String a n ++ "%")) with (String c (String a (n ++ "%"))).
    pose proof (IH2 a) as Ha.
    change (Like.parse (String c (String a (n ++ "%"))))
      with (if Ascii.eqb c "%" then option_map (cons Like.PAny) (Like.parse (String a (n ++ "%")))
            else if Ascii.eqb c "_" then option_map (cons Like.POne) (Like.parse (String a (n ++ "%")))
            else if Ascii.eqb c "\" then option_map (cons (Like.PChar a)) (Like.parse (n ++ "%"))
            else option_map (cons (Like.PChar c)) (Like.parse (String a (n ++ "%")))).
    destruct (Like.parse (String a (n ++ "%"))); [|contradiction].
    destruct (Like.parse (n ++ "%")); [|contradiction].
    destruct (Ascii.eqb c "%"), (Ascii.eqb c "_"), (Ascii.eqb c "\"); discriminate.
Qed.

(** Whatever the name, the pattern [findAll] binds is one the store accepts. *)
Lemma name_pattern_well_formed (n : string) :
  Like.well_formed ("%" ++ n ++ "%") = true.
Proof.
  unfold Like.well_formed. simpl.
  destruct (Like.parse (n ++ "%")) eqn:E; [reflexivity|].
  now destruct (parse_percent_ends n).
Qed.

Lemma parse_plain (n : string) :
  Like.plain n = true ->
  Like.parse (n ++ "%") = Some (Like.literal n ++ [Like.PAny])%list.
Proof.
  induction n as [|c n IH]; [reflexivity|].
  simpl Like.plain. intros H. apply andb_prop in H. destruct H as [Hc Hn].
  unfold Like.meta in Hc. apply negb_true_iff in Hc.
  apply orb_false_iff in Hc. destruct Hc as [Hc H3].
  apply orb_false_iff in Hc. destruct Hc as [H1 H2].
  change (String c n ++ "%") with (String c (n ++ "%")).
  change (Like.parse (String c (n ++ "%")))
    with (if Ascii.eqb c "%" then option_map (cons Like.PAny) (Like.parse (n ++ "%"))
          else if Ascii.eqb c "_" then option_map (cons Like.POne) (Like.parse (n ++ "%"))
          else if Ascii.eqb c "\" then
                 match (n ++ "%") with
                 | EmptyString => None
                 | String c' s'' => option_map (cons (Like.PChar c')) (Like.parse s'')
                 end
          else option_map (cons (Like.PChar c)) (Like.parse (n ++ "%"))).
  rewrite H1, H2, H3, (IH Hn). reflexivity.
Qed.

Lemma lower_literal (n : string) :
  map Like.lower_pat (Like.literal n) = Like.literal (Like.lower n).
Proof. induction n as [|c n IH]; simpl; [reflexivity|now rewrite IH]. Qed.

Lemma lower_append (a b : string) :
  Like.lower (a ++ b) = Like.lower a ++ Like.lower b.
Proof. induction a as [|c a IH]; simpl; [reflexivity|now rewrite IH]. Qed.

Lemma matches_any (s : string) : Like.matches [Like.PAny] s = true.
Proof.
  induction s as [|c s IH]; [reflexivity|].
  change (Like.matches [Like.PAny] (String c s))
    with (false || Like.matches [Like.PAny] s).
  exact IH.
Qed.

Lemma matches_prefix (n s : string) :
  Like.matches (Like.literal n ++ [Like.PAny]) s = true
  <-> exists post, s = n ++ post.
Proof.
  revert s. induction n as [|c n IH]; intros s.
  - simpl Like.literal. simpl app. split; [exists s; reflexivity|intros _; apply matches_any].
  - simpl. destruct s as [|d s].
    + split; [discriminate|]. intros [post H]. discriminate.
    + split.
      * intros H. apply andb_prop in H. destruct H as [Hc Hm].
        apply Ascii.eqb_eq in Hc. subst d.
        apply IH in Hm. destruct Hm as [post ->]. now exists post.
      * intros [post H]. injection H as -> ->.
        rewrite Ascii.eqb_refl. simpl. apply IH. now exists post.
Qed.

Lemma matches_skip (p : list Like.pat) (s : string) :
  Like.matches (Like.PAny :: p) s = true
  <-> exists pre post, s = pre ++ post /\ Like.matches p post = true.
Proof.
  induction s as [|c s IH].
  - simpl. rewrite orb_false_r. split.
    + intros H. exists EmptyString, EmptyString. auto.
    + intros (pre & post & E & H). destruct pre; [|discriminate].
      simpl in E. now subst post.
  - change (Like.matches (Like.PAny :: p) (String c s))
      with (Like.matches p (String c s) || Like.matches (Like.PAny :: p) s).
    split.
    + intros H. apply orb_prop in H. destruct H as [H|H].
      * exists EmptyString, (String c s). auto.
      * apply IH in H. destruct H as (pre & post & -> & H).
        exists (String c pre), post. auto.
    + intros (pre & post & E & H). apply orb_true_iff.
      destruct pre as [|d pre].
      * left. simpl in E. now subst post.
      * right. injection E as -> ->. apply IH. eauto.
Qed.

(** For a name without LIKE metacharacters, [ILIKE '%name%'] is the
    case-insensitive substring test. *)
Lemma ilike_plain (n s : string) :
  Like.plain n = true ->
  (Like.ilike ("%" ++ n ++ "%") s = true <-> Like.contains_ci n s).
Proof.
  intros Hn. unfold Like.ilike, Like.contains_ci.
  change ("%" ++ n ++ "%") with (String "%" (n ++ "%")).
  change (Like.parse (String "%" (n ++ "%")))
    with (option_map (cons Like.PAny) (Like.parse (n ++ "%"))).
  rewrite (parse_plain n Hn). simpl option_map. cbv iota beta.
  simpl map. rewrite map_app, lower_literal. simpl map.
  rewrite matches_skip. split.
  - intros (pre & post & E & H). apply matches_prefix in H.
    destruct H as [post' ->]. now exists pre, post'.
  - intros (pre & post & E). exists pre, (Like.lower n ++ post).
    split; [exact E|]. apply matches_prefix. now exists post.
Qed.

(** ** Company.findAll *)

(** The statement [findAll] sends for filters in range. *)
Lemma findAll_statement (f : Company.filters) :
  let b := Company.build f in
  let q :=
    add_order_by
      (if (0 <? List.length (Company.whereClauses b))%nat
       then add_where Company.select_companies (Company.whereClauses b)
       else Company.select_companies) "name" in
  q_sem q
  = Select "companies" Company.company_shape (Company.whereClauses b) (Some "name")
  /\ q_text q
     = q_text Company.select_companies ++ where_text (Company.whereClauses b)
       ++ " ORDER BY name".
Proof.
  destruct f as [[m|] [x|] [[|c n]|]]; split; reflexivity.
Qed.

Lemma findAll_statement_ok (f : Company.filters) :
  stmt_ok companies_def
    (Select "companies" Company.company_shape
            (Company.whereClauses (Company.build f)) (Some "name"))
    (Company.values (Company.build f)) = true.
Proof.
  destruct f as [[m|] [x|] [[|c n]|]]; try reflexivity;
    unfold Company.build, Company.push; simpl Company.name; simpl Company.minEmployees;
    simpl Company.maxEmployees; cbv iota beta;
    unfold stmt_ok, params_ok, cond_ok; simpl;
    pose proof (name_pattern_well_formed (String c n)) as H;
    simpl in H; rewrite H; reflexivity.
Qed.

(** The WHERE clause [findAll] builds means what the specification says. *)
Lemma findAll_where (f : Company.filters) (r : row) :
  holds (Company.whereClauses (Company.build f)) (Company.values (Company.build f)) r
  = Spec.satisfies f r.
Proof.
  unfold Spec.satisfies, Spec.at_least, Spec.at_most, Spec.name_like.
  destruct f as [[m|] [x|] [[|c n]|]];
    unfold Company.build, Company.push, holds, eval_cond; simpl;
    destruct (get "num_employees" r); destruct (get "name" r);
    simpl; rewrite ?andb_true_r, ?andb_false_r, ?andb_assoc; reflexivity.
Qed.

Lemma findAll_runs (f : Company.filters) (w : World) :
  Spec.in_range f ->
  exists q,
    Company.findAll f w
    = (Return (map (project Company.company_shape)
                   (sort (key_leb "name")
                         (filter (Spec.satisfies f) (companies (db w))))),
       Spec.after w (db w) q (Company.values (Company.build f)))
    /\ q_sem q
       = Select "companies" Company.company_shape
                (Company.whereClauses (Company.build f)) (Some "name")
    /\ q_text q
       = q_text Company.select_companies
         ++ where_text (Company.whereClauses (Company.build f))
         ++ " ORDER BY name".
Proof.
  intros Hr. unfold Company.findAll. rewrite Hr.
  destruct (findAll_statement f) as [Hsem Htext].
  eexists. split; [|split; [exact Hsem|exact Htext]].
  unfold bind.
  rewrite (select_runs _ _ _ _ _ _ w companies_def (companies (db w)) Hsem
             eq_refl (findAll_statement_ok f)).
  unfold ret, order_rows. f_equal. f_equal. f_equal. f_equal.
  apply filter_ext. intros r. apply findAll_where.
Qed.

(** C2: when both bounds are given and minEmployees > maxEmployees, findAll
    throws BadRequestError whatever the other filters are, and the world is
    left as it was: no statement has been sent to the store. *)
Theorem findAll_min_above_max (f : Company.filters) (w : World) (lo hi : Z) :
  Company.minEmployees f = Some lo ->
  Company.maxEmployees f = Some hi ->
  (hi < lo)%Z ->
  Company.findAll f w
  = (Throw (BadRequestError "Min employees cannot exceed max employees"), w)
  /\ sent (snd (Company.findAll f w)) = sent w.
Proof.
  intros Hlo Hhi Hlt. unfold Company.findAll. rewrite Hlo, Hhi. unfold JS.gt.
  apply Z.ltb_lt in Hlt. rewrite Hlt. split; reflexivity.
Qed.

Lemma findAll_min_above_max_witness :
  Company.findAll
    {| Company.minEmployees := Some 5%Z; Company.maxEmployees := Some 2%Z;
       Company.name := Some "net" |} Sample.world
  = (Throw (BadRequestError "Min employees cannot exceed max employees"),
     Sample.world)
  /\ sent (snd (Company.findAll
                  {| Company.minEmployees := Some 5%Z;
                     Company.maxEmployees := Some 2%Z;
                     Company.name := Some "net" |} Sample.world))
     = sent Sample.world.
Proof.
  apply (findAll_min_above_max _ _ 5%Z 2%Z); [reflexivity|reflexivity|lia].
Defined.

Lemma provided_resolved (f : Company.filters) :
  map (Spec.resolved (Company.values (Company.build f)))
      (Company.whereClauses (Company.build f))
  = map Some (Spec.provided f).
Proof. destruct f as [[m|] [x|] [[|c n]|]]; reflexivity. Qed.

(** C3, as the code has it: for filters in range, the WHERE clause holds
    exactly one condition per provided filter (a bound that is defined, a name
    that is non-empty), each bound to its value through its placeholder, and
    the conditions are joined by AND; the name condition is ILIKE against
    %name%, which is the case-insensitive substring test whenever the name
    has no LIKE metacharacter; the rows returned are the stored companies
    that satisfy the conjunction, in ascending order of name; with no filter
    every company is returned. *)
Theorem findAll_filters (f : Company.filters) (w : World) :
  Spec.in_range f ->
  map (Spec.resolved (Company.values (Company.build f)))
      (Company.whereClauses (Company.build f))
  = map Some (Spec.provided f)
  /\ (forall r,
         holds (Company.whereClauses (Company.build f))
               (Company.values (Company.build f)) r
         = Spec.satisfies f r)
  /\ (forall n s,
         Like.plain n = true ->
         (Spec.name_like n (VStr s) = true <-> Like.contains_ci n s))
  /\ exists q rows,
       Company.findAll f w
       = (Return rows, Spec.after w (db w) q (Company.values (Company.build f)))
       /\ q_text q
          = q_text Company.select_companies
            ++ where_text (Company.whereClauses (Company.build f))
            ++ " ORDER BY name"
       /\ q_sem q
          = Select "companies" Company.company_shape
                   (Company.whereClauses (Company.build f)) (Some "name")
       /\ Permutation
            (map (project Company.company_shape)
                 (filter (Spec.satisfies f) (companies (db w))))
            rows
       /\ Spec.ascending "name" rows
       /\ (Spec.provided f = [] ->
           Permutation (map (project Company.company_shape) (companies (db w)))
                       rows).
Proof.
  intros Hr. split; [apply provided_resolved|].
  split; [apply findAll_where|].
  split; [intros n s Hn; apply (ilike_plain n s Hn)|].
  destruct (findAll_runs f w Hr) as (q & Hrun & Hsem & Htext).
  exists q. eexists. split; [exact Hrun|]. split; [exact Htext|].
  split; [exact Hsem|]. split; [|split].
  - apply Permutation_map. apply sort_perm.
  - apply (ordered_projection Company.company_shape "name"). reflexivity.
  - intros Hnone. apply Permutation_map.
    rewrite filter_all; [apply sort_perm|].
    intros r _. unfold Spec.satisfies.
    destruct f as [[m|] [x|] [[|c n]|]]; try discriminate Hnone; reflexivity.
Qed.

Lemma findAll_filters_witness :
  exists q rows,
    Company.findAll
      {| Company.minEmployees := Some 0%Z; Company.maxEmployees := Some 50%Z;
         Company.name := Some "E" |} Sample.world
    = (Return rows,
       Spec.after Sample.world Sample.store q [VNum 0; VNum 50; VStr "%E%"])
    /\ Spec.ascending "name" rows.
Proof.
  destruct (findAll_filters
              {| Company.minEmployees := Some 0%Z;
                 Company.maxEmployees := Some 50%Z;
                 Company.name := Some "E" |} Sample.world eq_refl)
    as (_ & _ & _ & q & rows & Hrun & _ & _ & _ & Hasc & _).
  exists q, rows. split; [exact Hrun|exact Hasc].
Defined.

(** C3, as stated, fails: with name "_" the store is asked for
    [name ILIKE '%_%'], in which the underscore stands for any one character,
    so the company named Acme is returned although its name does not contain
    an underscore. *)
Lemma findAll_name_not_substring :
  ~ Spec.returns_only_passing
      {| Company.minEmployees := None; Company.maxEmployees := None;
         Company.name := Some "_" |} Sample.world.
Proof.
  intros H.
  destruct (H _ (project Company.company_shape (Sample.company "c1" "Acme" (VNum 0)))
              eq_refl)
    as (r0 & Hin & Heq & _ & _ & Hname).
  { simpl. left. reflexivity. }
  specialize (Hname "_" eq_refl).
  assert (get "name" r0 = VStr "Acme") as Hacme.
  { simpl in Hin. destruct Hin as [<-|[<-|[<-|[]]]];
      first [reflexivity | discriminate Heq]. }
  rewrite Hacme in Hname. destruct Hname as (pre & post & E).
  vm_compute in E.
  repeat (destruct pre as [|? pre]; [discriminate E|];
          simpl in E; injection E as _ E).
  destruct pre; discriminate E.
Qed.

(** What [findAll] returns for filters in range: the statement it sends and
    the rows that come back, which are the stored companies satisfying the
    filters, no more and no fewer. *)
Lemma findAll_returns (f : Company.filters) (w : World) :
  Spec.in_range f ->
  exists q rows,
    Company.findAll f w
    = (Return rows, Spec.after w (db w) q (Company.values (Company.build f)))
    /\ q_sem q
       = Select "companies" Company.company_shape
                (Company.whereClauses (Company.build f)) (Some "name")
    /\ Permutation
         (map (project Company.company_shape)
              (filter (Spec.satisfies f) (companies (db w))))
         rows
    /\ forall r,
        In r rows
        <-> exists r0, In r0 (companies (db w))
                       /\ r = project Company.company_shape r0
                       /\ Spec.satisfies f r0 = true.
Proof.
  intros Hr. destruct (findAll_runs f w Hr) as (q & Hrun & Hsem & _).
  exists q. eexists. split; [exact Hrun|]. split; [exact Hsem|]. split.
  - apply Permutation_map. apply sort_perm.
  - intros r. rewrite in_map_iff. split.
    + intros (r0 & <- & Hin). apply in_sorted_filter in Hin.
      exists r0. destruct Hin as [Hin Hsat]. auto.
    + intros (r0 & Hin & -> & Hsat). exists r0. split; [reflexivity|].
      apply in_sorted_filter. auto.
Qed.

Lemma satisfies_min (m : Z) (hi : option Z) (n : option string) (r : row) :
  Spec.satisfies {| Company.minEmployees := Some m; Company.maxEmployees := hi;
                    Company.name := n |} r
  = Spec.at_least m (get "num_employees" r)
    && Spec.satisfies {| Company.minEmployees := None; Company.maxEmployees := hi;
                         Company.name := n |} r.
Proof.
  unfold Spec.satisfies.
  cbn [Company.minEmployees Company.maxEmployees Company.name].
  now rewrite <- !andb_assoc.
Qed.

Lemma satisfies_max (lo : option Z) (m : Z) (n : option string) (r : row) :
  Spec.satisfies {| Company.minEmployees := lo; Company.maxEmployees := Some m;
                    Company.name := n |} r
  = Spec.at_most m (get "num_employees" r)
    && Spec.satisfies {| Company.minEmployees := lo; Company.maxEmployees := None;
                         Company.name := n |} r.
Proof.
  unfold Spec.satisfies.
  cbn [Company.minEmployees Company.maxEmployees Company.name].
  rewrite andb_true_r.
  destruct (Spec.at_most m (get "num_employees" r));
    destruct lo as [l|]; [destruct (Spec.at_least l (get "num_employees" r))| |
                          destruct (Spec.at_least l (get "num_employees" r))|];
    reflexivity.
Qed.

(** C10: the name filter is gated on truthiness, the bounds on being
    defined.  An empty name makes [findAll] the very call it is with the
    name omitted: the same conditions are built, none of them on name, and
    for bounds in range the rows returned are the companies that satisfy the
    remaining filters.  A bound of 0 is a bound like any other: its
    condition is built and bound to 0, it is part of the statement sent, and
    the rows returned are exactly the companies with at least (at most) 0
    employees that satisfy the remaining filters. *)
Theorem findAll_falsy_name_zero_bounds (w : World) :
  (forall lo hi,
      Company.build {| Company.minEmployees := lo; Company.maxEmployees := hi;
                       Company.name := Some EmptyString |}
      = Company.build {| Company.minEmployees := lo; Company.maxEmployees := hi;
                         Company.name := None |}
      /\ forallb (fun c => negb (String.eqb (c_col c) "name"))
                 (Company.whereClauses
                    (Company.build
                       {| Company.minEmployees := lo; Company.maxEmployees := hi;
                          Company.name := Some EmptyString |}))
         = true
      /\ Company.findAll {| Company.minEmployees := lo; Company.maxEmployees := hi;
                            Company.name := Some EmptyString |} w
         = Company.findAll {| Company.minEmployees := lo; Company.maxEmployees := hi;
                              Company.name := None |} w
      /\ (Spec.in_range {| Company.minEmployees := lo; Company.maxEmployees := hi;
                           Company.name := None |} ->
          exists q rows,
            Company.findAll {| Company.minEmployees := lo;
                               Company.maxEmployees := hi;
                               Company.name := Some EmptyString |} w
            = (Return rows,
               Spec.after w (db w) q
                 (Company.values
                    (Company.build {| Company.minEmployees := lo;
                                      Company.maxEmployees := hi;
                                      Company.name := None |})))
            /\ q_sem q
               = Select "companies" Company.company_shape
                   (Company.whereClauses
                      (Company.build {| Company.minEmployees := lo;
                                        Company.maxEmployees := hi;
                                        Company.name := None |}))
                   (Some "name")
            /\ Permutation
                 (map (project Company.company_shape)
                      (filter (Spec.satisfies
                                 {| Company.minEmployees := lo;
                                    Company.maxEmployees := hi;
                                    Company.name := None |})
                              (companies (db w))))
                 rows))
  /\ (forall hi n,
         hd_error (Company.whereClauses
                     (Company.build {| Company.minEmployees := Some 0%Z;
                                       Company.maxEmployees := hi;
                                       Company.name := n |}))
         = Some (Company.cond_on "num_employees" OpGe 1)
         /\ hd_error (Company.values
                        (Company.build {| Company.minEmployees := Some 0%Z;
                                          Company.maxEmployees := hi;
                                          Company.name := n |}))
            = Some (VNum 0)
         /\ (Spec.in_range {| Company.minEmployees := Some 0%Z;
                              Company.maxEmployees := hi; Company.name := n |} ->
             exists q rows,
               Company.findAll {| Company.minEmployees := Some 0%Z;
                                  Company.maxEmployees := hi;
                                  Company.name := n |} w
               = (Return rows,
                  Spec.after w (db w) q
                    (Company.values
                       (Company.build {| Company.minEmployees := Some 0%Z;
                                         Company.maxEmployees := hi;
                                         Company.name := n |})))
               /\ q_sem q
                  = Select "companies" Company.company_shape
                      (Company.whereClauses
                         (Company.build {| Company.minEmployees := Some 0%Z;
                                           Company.maxEmployees := hi;
                                           Company.name := n |}))
                      (Some "name")
               /\ forall r,
                   In r rows
                   <-> exists r0,
                       In r0 (companies (db w))
                       /\ r = project Company.company_shape r0
                       /\ Spec.at_least 0 (get "num_employees" r0) = true
                       /\ Spec.satisfies
                            {| Company.minEmployees := None;
                               Company.maxEmployees := hi;
                               Company.name := n |} r0 = true))
  /\ (forall lo n,
         (exists k,
             In (Company.cond_on "num_employees" OpLe k)
                (Company.whereClauses
                   (Company.build {| Company.minEmployees := lo;
                                     Company.maxEmployees := Some 0%Z;
                                     Company.name := n |}))
             /\ param (Company.values
                         (Company.build {| Company.minEmployees := lo;
                                           Company.maxEmployees := Some 0%Z;
                                           Company.name := n |})) k
                = Some (VNum 0))
         /\ (Spec.in_range {| Company.minEmployees := lo;
                              Company.maxEmployees := Some 0%Z;
                              Company.name := n |} ->
             exists q rows,
               Company.findAll {| Company.minEmployees := lo;
                                  Company.maxEmployees := Some 0%Z;
                                  Company.name := n |} w
               = (Return rows,
                  Spec.after w (db w) q
                    (Company.values
                       (Company.build {| Company.minEmployees := lo;
                                         Company.maxEmployees := Some 0%Z;
                                         Company.name := n |})))
               /\ q_sem q
                  = Select "companies" Company.company_shape
                      (Company.whereClauses
                         (Company.build {| Company.minEmployees := lo;
                                           Company.maxEmployees := Some 0%Z;
                                           Company.name := n |}))
                      (Some "name")
               /\ forall r,
                   In r rows
                   <-> exists r0,
                       In r0 (companies (db w))
                       /\ r = project Company.company_shape r0
                       /\ Spec.at_most 0 (get "num_employees" r0) = true
                       /\ Spec.satisfies
                            {| Company.minEmployees := lo;
                               Company.maxEmployees := None;
                               Company.name := n |} r0 = true)).
Proof.
  split; [|split].
  - intros lo hi. split; [reflexivity|].
    split; [destruct lo, hi; reflexivity|]. split; [reflexivity|].
    intros Hr.
    destruct (findAll_returns _ w Hr) as (q & rows & Hrun & Hsem & Hperm & _).
    exists q, rows. split; [exact Hrun|]. split; [exact Hsem|exact Hperm].
  - intros hi n. split; [destruct hi, n as [[|c n]|]; reflexivity|].
    split; [destruct hi, n as [[|c n]|]; reflexivity|].
    intros Hr.
    destruct (findAll_returns _ w Hr) as (q & rows & Hrun & Hsem & _ & Hin).
    exists q, rows. split; [exact Hrun|]. split; [exact Hsem|].
    intros r. rewrite Hin. split.
    + intros (r0 & H0 & -> & Hsat). rewrite satisfies_min in Hsat.
      apply andb_prop in Hsat. exists r0. tauto.
    + intros (r0 & H0 & -> & Hlow & Hsat). exists r0.
      rewrite satisfies_min, Hlow, Hsat. auto.
  - intros lo n. split.
    { destruct lo as [l|]; [exists 2%nat|exists 1%nat];
        destruct n as [[|c n]|]; split; simpl; auto. }
    intros Hr.
    destruct (findAll_returns _ w Hr) as (q & rows & Hrun & Hsem & _ & Hin).
    exists q, rows. split; [exact Hrun|]. split; [exact Hsem|].
    intros r. rewrite Hin. split.
    + intros (r0 & H0 & -> & Hsat). rewrite satisfies_max in Hsat.
      apply andb_prop in Hsat. exists r0. tauto.
    + intros (r0 & H0 & -> & Hlow & Hsat). exists r0.
      rewrite satisfies_max, Hlow, Hsat. auto.
Qed.

(** ** Partial updates *)

Lemma map_from_length {A B : Type} (f : A -> nat -> B) (i : nat) (xs : list A) :
  List.length (Sql.map_from f i xs) = List.length xs.
Proof.
  revert i. induction xs as [|x xs IH]; intros i; simpl; [reflexivity|].
  now rewrite IH.
Qed.

Lemma map_from_nth {A B : Type} (f : A -> nat -> B) (i k : nat) (xs : list A) :
  nth_error (Sql.map_from f i xs) k
  = option_map (fun x => f x (i + k)%nat) (nth_error xs k).
Proof.
  revert i k. induction xs as [|x xs IH]; intros i k.
  - destruct k; reflexivity.
  - destruct k as [|k]; simpl.
    + now rewrite Nat.add_0_r.
    + rewrite IH. now rewrite Nat.add_succ_r.
Qed.

Lemma sqlForPartialUpdate_runs (data : list (string * value))
      (jsToSql : list (string * string)) (w : World) :
  data <> [] ->
  Sql.sqlForPartialUpdate data jsToSql w
  = (Return
       ({| Sql.set_text :=
             JS.join ", "
               (map assignment_text
                    (Sql.map_from
                       (fun colName idx => (Sql.column_for jsToSql colName, idx + 1)%nat)
                       0 (map fst data)));
           Sql.set_cols :=
             Sql.map_from
               (fun colName idx => (Sql.column_for jsToSql colName, idx + 1)%nat)
               0 (map fst data) |},
        map snd data), w).
Proof. destruct data; [contradiction|reflexivity]. Qed.

Lemma db_query_world (q : query) (binds : list value) (w : World) :
  exists out d, db_query q binds w = (out, Spec.after w d q binds).
Proof.
  unfold db_query. destruct (exec (q_sem q) binds (db w)) as [out d].
  destruct out; do 2 eexists; reflexivity.
Qed.

(** The tail shared by every [update]: send the UPDATE, throw when no row
    comes back.  When the key is not in the table the call throws and the
    store is left as it was. *)
Lemma update_call_misses (q : query) (tbl keycol : string)
      (set : list (string * nat)) (shape : projection) (vals : list value)
      (key : value) (w : World) (def : tabledef) (rows : list row)
      (notFound : error) :
  q_sem q
  = Update tbl set [Company.cond_on keycol OpEq (List.length vals + 1)] shape ->
  get_table tbl (db w) = Some (def, rows) ->
  key <> VNull ->
  Spec.absent keycol key rows ->
  (result <- db_query q (vals ++ [key])%list ;;
   match result with
   | [] => throw notFound
   | r :: _ => ret r
   end) w
  = (Throw (if stmt_ok def
                 (Update tbl set
                         [Company.cond_on keycol OpEq (List.length vals + 1)] shape)
                 (vals ++ [key])%list
            then notFound else DatabaseError "statement rejected"),
     Spec.after w (db w) q (vals ++ [key])%list).
Proof.
  intros Hq Ht Hkey Habs. unfold bind.
  rewrite (update_misses _ _ _ _ _ _ _ _ _ Hq Ht).
  - destruct (stmt_ok _ _ _); reflexivity.
  - apply (lookup_misses keycol key); [apply param_last|exact Hkey|exact Habs].
Qed.

(** C1: for a non-empty partial update, the SET clause has one assignment
    [column = $n] per input field, in the order of the input mapping and
    numbered from 1; the text of the statement is made of the field names
    only, the values travelling as bind values, the i-th placeholder bound to
    the i-th value; and the bind list sent with the UPDATE ends with the
    handle, to which the placeholder of the WHERE clause refers. *)
Theorem update_set_clause (handle : string) (data : list (string * value))
        (w : World) :
  data <> [] ->
  exists setCols,
    Sql.sqlForPartialUpdate data Company.jsToSql w
    = (Return (setCols, map snd data), w)
    /\ List.length (Sql.set_cols setCols) = List.length data
    /\ Sql.set_text setCols
       = JS.join ", " (map assignment_text (Sql.set_cols setCols))
    /\ (forall i k v,
           nth_error data i = Some (k, v) ->
           nth_error (Sql.set_cols setCols) i
           = Some (Sql.column_for Company.jsToSql k, i + 1)%nat
           /\ param (map snd data ++ [VStr handle]) (i + 1) = Some v)
    /\ sent (snd (Company.update handle data w))
       = (sent w
          ++ [(q_text (Company.update_sql setCols (List.length data)),
               map snd data ++ [VStr handle])])%list
    /\ q_sem (Company.update_sql setCols (List.length data))
       = Update "companies" (Sql.set_cols setCols)
                [Company.cond_on "handle" OpEq (List.length data + 1)]
                Company.company_shape
    /\ param (map snd data ++ [VStr handle]) (List.length data + 1)
       = Some (VStr handle)
    /\ last (map snd data ++ [VStr handle]) VNull = VStr handle
    /\ (forall handle' data' w',
           map fst data' = map fst data ->
           exists binds,
             sent (snd (Company.update handle' data' w'))
             = (sent w'
                ++ [(q_text (Company.update_sql setCols (List.length data)),
                     binds)])%list).
Proof.
  intros Hdata. eexists. split; [apply (sqlForPartialUpdate_runs _ _ _ Hdata)|].
  cbn [Sql.set_cols Sql.set_text].
  split; [now rewrite map_from_length, length_map|].
  split; [reflexivity|].
  split.
  { intros i k v Hi. split.
    - rewrite map_from_nth, nth_error_map, Hi. reflexivity.
    - rewrite Nat.add_1_r. simpl. rewrite nth_error_app1.
      + now rewrite nth_error_map, Hi.
      + rewrite length_map. apply nth_error_Some. now rewrite Hi. }
  split.
  { unfold Company.update, bind.
    rewrite (sqlForPartialUpdate_runs _ _ _ Hdata). rewrite length_map.
    destruct (db_query_world
                (Company.update_sql
                   {| Sql.set_text :=
                        JS.join ", "
                          (map assignment_text
                               (Sql.map_from
                                  (fun colName idx =>
                                     (Sql.column_for Company.jsToSql colName, idx + 1)%nat)
                                  0 (map fst data)));
                      Sql.set_cols :=
                        Sql.map_from
                          (fun colName idx =>
                             (Sql.column_for Company.jsToSql colName, idx + 1)%nat)
                          0 (map fst data) |} (List.length data))
                (map snd data ++ [VStr handle])%list w) as (out & d & ->).
    destruct out as [[|r rs]|e]; reflexivity. }
  split; [reflexivity|].
  split; [rewrite <- (length_map snd data); apply param_last|].
  split; [apply last_last|].
  intros handle' data' w' Hkeys.
  assert (data' <> []) as Hdata'.
  { intros ->. destruct data; [contradiction|discriminate]. }
  exists (map snd data' ++ [VStr handle'])%list.
  unfold Company.update, bind.
  rewrite (sqlForPartialUpdate_runs _ _ _ Hdata'). rewrite Hkeys.
  rewrite !length_map.
  assert (List.length data' = List.length data) as ->.
  { rewrite <- (length_map fst data'), Hkeys. apply length_map. }
  match goal with
  | |- context [db_query ?q ?b w'] =>
      destruct (db_query_world q b w') as (out & d & ->)
  end.
  destruct out as [[|r rs]|e]; reflexivity.
Qed.

Lemma update_set_clause_witness :
  exists setCols,
    Sql.set_cols setCols = [("num_employees", 1); ("name", 2)]
    /\ Sql.set_text setCols = "num_employees = $1, name = $2"
    /\ last (map snd [("numEmployees", VNum 10); ("name", VStr "New")]
             ++ [VStr "c1"]) VNull
       = VStr "c1".
Proof.
  destruct (update_set_clause "c1" [("numEmployees", VNum 10); ("name", VStr "New")]
                              Sample.world)
    as (setCols & Hrun & _ & _ & _ & _ & _ & _ & Hlast & _).
  - discriminate.
  - exists setCols. injection Hrun as <-.
    split; [reflexivity|split; [reflexivity|exact Hlast]].
Defined.

(** ** Updating and removing what is not there *)

(** The tail shared by every [remove]. *)
Lemma remove_call_misses (q : query) (tbl keycol : string) (shape : projection)
      (key : value) (w : World) (def : tabledef) (rows : list row)
      (notFound : error) :
  q_sem q = Delete tbl [Company.cond_on keycol OpEq 1] shape ->
  get_table tbl (db w) = Some (def, rows) ->
  stmt_ok def (Delete tbl [Company.cond_on keycol OpEq 1] shape) [key] = true ->
  key <> VNull ->
  Spec.absent keycol key rows ->
  (result <- db_query q [key] ;;
   match result with
   | [] => throw notFound
   | _ :: _ => ret tt
   end) w
  = (Throw notFound, Spec.after w (db w) q [key]).
Proof.
  intros Hq Ht Hok Hkey Habs. unfold bind.
  rewrite (delete_misses _ _ _ _ _ _ _ _ Hq Ht Hok); [reflexivity|].
  apply (lookup_misses keycol key); [reflexivity|exact Hkey|exact Habs].
Qed.

Lemma rehash_nonempty (hash : string -> string) (data : list (string * value)) :
  data <> [] -> User.rehash hash data <> [].
Proof.
  unfold User.rehash. intros H.
  destruct (JS.lookup "password" data) as [[| |?|p]|]; try exact H.
  destruct (JS.truthy_string p); [|exact H].
  destruct data as [|[k v] data]; [contradiction|].
  unfold JS.set_prop. destruct (String.eqb "password" k); discriminate.
Qed.

(** The placeholders of the SET clause are 1, 2, ..., and its columns the
    columns of the keys. *)
Lemma map_from_placeholders (jsToSql : list (string * string)) (i : nat)
      (keys : list string) :
  map snd (Sql.map_from (fun colName idx => (Sql.column_for jsToSql colName, idx + 1)%nat)
                        i keys)
  = seq (i + 1) (List.length keys)
  /\ map fst (Sql.map_from
                (fun colName idx => (Sql.column_for jsToSql colName, idx + 1)%nat)
                i keys)
     = map (Sql.column_for jsToSql) keys.
Proof.
  revert i. induction keys as [|k keys IH]; intros i; [split; reflexivity|].
  destruct (IH (S i)) as [IH1 IH2]. simpl. rewrite IH1, IH2. split; reflexivity.
Qed.

Lemma params_cover (n : nat) (binds : list value) :
  List.length binds = (n + 1)%nat ->
  params_ok (seq 1 n ++ [(n + 1)%nat])%list binds = true.
Proof.
  intros Hlen. unfold params_ok. rewrite Hlen.
  assert (forall k, In k (seq 1 n ++ [(n + 1)%nat])%list <-> (1 <= k <= n + 1)%nat)
    as Hin.
  { intros k. rewrite in_app_iff, in_seq. simpl. lia. }
  apply andb_true_intro. split; apply forallb_forall; intros k Hk.
  - apply Hin in Hk. apply andb_true_intro.
    split; apply Nat.leb_le; lia.
  - apply existsb_exists. exists k. split; [|apply Nat.eqb_refl].
    apply Hin. apply in_seq in Hk. lia.
Qed.

(** Data that names existing, distinct columns with values of their types
    makes an UPDATE the store accepts. *)
Lemma accepted_stmt_ok (def : tabledef) (tbl keycol : string)
      (jsToSql : list (string * string)) (shape : projection)
      (data : list (string * value)) (key : value) (kc : column) :
  data <> [] ->
  Spec.accepted def jsToSql data = true ->
  proj_ok def shape = true ->
  find_col keycol (t_cols def) = Some kc ->
  has_type (col_type kc) key = true ->
  stmt_ok def
    (Update tbl
       (Sql.map_from (fun colName idx => (Sql.column_for jsToSql colName, idx + 1)%nat)
                     0 (map fst data))
       [Company.cond_on keycol OpEq (List.length (map snd data) + 1)] shape)
    (map snd data ++ [key])%list = true.
Proof.
  intros Hne Hacc Hproj Hkc Hkey.
  apply andb_prop in Hacc. destruct Hacc as [Hdist Hcols].
  destruct (map_from_placeholders jsToSql 0 (map fst data)) as [Hsnd Hfst].
  unfold stmt_ok. simpl params_used. rewrite Hsnd, Hproj.
  rewrite !length_map. simpl c_param.
  rewrite params_cover by (rewrite length_app, length_map; reflexivity).
  simpl forallb. unfold cond_ok. simpl c_col. simpl c_param. rewrite Hkc.
  rewrite <- (length_map snd data) at 1. rewrite param_last, Hkey.
  rewrite Hfst, map_map, Hdist.
  assert (negb match Sql.map_from
                       (fun colName idx => (Sql.column_for jsToSql colName, idx + 1)%nat)
                       0 (map fst data) with
               | [] => true
               | _ :: _ => false
               end = true) as ->.
  { destruct data; [contradiction|reflexivity]. }
  simpl. apply forallb_forall. intros a Ha.
  apply In_nth_error in Ha. destruct Ha as [i Hi].
  rewrite map_from_nth, nth_error_map in Hi.
  destruct (nth_error data i) as [[k v]|] eqn:Hd; [|discriminate Hi].
  simpl in Hi. injection Hi as <-. unfold set_ok. simpl fst. simpl snd.
  rewrite forallb_forall in Hcols.
  specialize (Hcols (k, v) (nth_error_In _ _ Hd)). simpl in Hcols.
  destruct (find_col (Sql.column_for jsToSql k) (t_cols def)); [|discriminate].
  assert (param (map snd data ++ [key]) (i + 1) = Some v) as ->.
  { rewrite Nat.add_1_r. simpl. rewrite nth_error_app1.
    - now rewrite nth_error_map, Hd.
    - rewrite length_map. apply nth_error_Some. now rewrite Hd. }
  exact Hcols.
Qed.

Lemma company_update_missing (handle : string) (data : list (string * value))
      (w : World) :
  Spec.absent "handle" (VStr handle) (companies (db w)) ->
  db (snd (Company.update handle data w)) = db w
  /\ (exists e, fst (Company.update handle data w) = Throw e)
  /\ (data <> [] ->
      Spec.accepted companies_def Company.jsToSql data = true ->
      fst (Company.update handle data w)
      = Throw (NotFoundError ("No company: " ++ handle))).
Proof.
  intros Habs. destruct data as [|kv data].
  { split; [reflexivity|]. split; [eexists; reflexivity|]. intros H. contradiction. }
  assert (exists e w',
             Company.update handle (kv :: data) w = (Throw e, w') /\ db w' = db w
             /\ (Spec.accepted companies_def Company.jsToSql (kv :: data) = true ->
                 e = NotFoundError ("No company: " ++ handle)))
    as (e & w' & E & Hdb & Hacc).
  { unfold Company.update. unfold bind at 1.
    rewrite sqlForPartialUpdate_runs by discriminate.
    erewrite update_call_misses;
      [|reflexivity|reflexivity|discriminate|exact Habs].
    do 2 eexists. split; [reflexivity|]. split; [reflexivity|].
    intros Hacc. cbn [Sql.set_cols].
    rewrite (accepted_stmt_ok companies_def "companies" "handle" Company.jsToSql
               Company.company_shape (kv :: data) (VStr handle)
               {| col_name := "handle"; col_type := TText; col_nullable := false |});
      [reflexivity|discriminate|exact Hacc|reflexivity|reflexivity|reflexivity]. }
  rewrite E. split; [exact Hdb|]. split; [now exists e|].
  intros _ H. simpl. f_equal. now apply Hacc.
Qed.

Lemma job_update_missing (id : Z) (data : list (string * value)) (w : World) :
  Spec.absent "id" (VNum id) (jobs (db w)) ->
  db (snd (Job.update id data w)) = db w
  /\ (exists e, fst (Job.update id data w) = Throw e)
  /\ (data <> [] ->
      Spec.accepted jobs_def Job.jsToSql data = true ->
      exists message, fst (Job.update id data w) = Throw (NotFoundError message)).
Proof.
  intros Habs. destruct data as [|kv data].
  { split; [reflexivity|]. split; [eexists; reflexivity|]. intros H. contradiction. }
  assert (exists e w',
             Job.update id (kv :: data) w = (Throw e, w') /\ db w' = db w
             /\ (Spec.accepted jobs_def Job.jsToSql (kv :: data) = true ->
                 exists message, e = NotFoundError message))
    as (e & w' & E & Hdb & Hacc).
  { unfold Job.update. unfold bind at 1.
    rewrite sqlForPartialUpdate_runs by discriminate.
    erewrite update_call_misses;
      [|reflexivity|reflexivity|discriminate|exact Habs].
    do 2 eexists. split; [reflexivity|]. split; [reflexivity|].
    intros Hacc. cbn [Sql.set_cols].
    rewrite (accepted_stmt_ok jobs_def "jobs" "id" Job.jsToSql Job.job_shape
               (kv :: data) (VNum id)
               {| col_name := "id"; col_type := TInt; col_nullable := false |});
      [eexists; reflexivity|discriminate|exact Hacc|reflexivity|reflexivity
      |reflexivity]. }
  rewrite E. split; [exact Hdb|]. split; [now exists e|].
  intros _ H. destruct (Hacc H) as [message ->]. now exists message.
Qed.

Lemma user_update_missing (hash : string -> string) (username : string)
      (data : list (string * value)) (w : World) :
  Spec.absent "username" (VStr username) (users (db w)) ->
  db (snd (User.update hash username data w)) = db w
  /\ (exists e, fst (User.update hash username data w) = Throw e)
  /\ (data <> [] ->
      Spec.accepted users_def User.jsToSql (User.rehash hash data) = true ->
      exists message,
        fst (User.update hash username data w) = Throw (NotFoundError message)).
Proof.
  intros Habs.
  assert (exists e w',
             User.update hash username data w = (Throw e, w') /\ db w' = db w
             /\ (data <> [] ->
                 Spec.accepted users_def User.jsToSql (User.rehash hash data)
                 = true ->
                 exists message, e = NotFoundError message))
    as (e & w' & E & Hdb & Hacc).
  { unfold User.update.
    pose proof (rehash_nonempty hash data) as Hne.
    destruct (User.rehash hash data) as [|kv data'].
    { do 2 eexists. split; [reflexivity|]. split; [reflexivity|].
      intros H. now destruct (Hne H). }
    unfold bind at 1. rewrite sqlForPartialUpdate_runs by discriminate.
    erewrite update_call_misses;
      [|reflexivity|reflexivity|discriminate|exact Habs].
    do 2 eexists. split; [reflexivity|]. split; [reflexivity|].
    intros _ Hacc. cbn [Sql.set_cols].
    rewrite (accepted_stmt_ok users_def "users" "username" User.jsToSql
               User.user_shape (kv :: data') (VStr username)
               {| col_name := "username"; col_type := TText;
                  col_nullable := false |});
      [eexists; reflexivity|discriminate|exact Hacc|reflexivity|reflexivity
      |reflexivity]. }
  rewrite E. split; [exact Hdb|]. split; [now exists e|].
  intros H1 H2. destruct (Hacc H1 H2) as [message ->]. now exists message.
Qed.

(** C4, as the code has it: for a key that identifies no entity, remove
    throws NotFound; update never returns normally and leaves the store as it
    was: with an empty data mapping it throws the BadRequestError of the SET
    builder and the world is untouched (nothing is sent), and it throws
    NotFound whenever the data mapping is non-empty and names existing,
    distinct columns with values of the columns' types.  This holds for
    companies, jobs and users. *)
Theorem update_remove_missing (w : World) (hash : string -> string) :
  (forall handle,
      Spec.absent "handle" (VStr handle) (companies (db w)) ->
      fst (Company.remove handle w)
      = Throw (NotFoundError ("No company: " ++ handle))
      /\ db (snd (Company.remove handle w)) = db w
      /\ Company.update handle [] w = (Throw (BadRequestError "No data"), w)
      /\ forall data,
          db (snd (Company.update handle data w)) = db w
          /\ (exists e, fst (Company.update handle data w) = Throw e)
          /\ (data <> [] ->
              Spec.accepted companies_def Company.jsToSql data = true ->
              fst (Company.update handle data w)
              = Throw (NotFoundError ("No company: " ++ handle))))
  /\ (forall id,
         Spec.absent "id" (VNum id) (jobs (db w)) ->
         (exists message, fst (Job.remove id w) = Throw (NotFoundError message))
         /\ db (snd (Job.remove id w)) = db w
         /\ Job.update id [] w = (Throw (BadRequestError "No data"), w)
         /\ forall data,
             db (snd (Job.update id data w)) = db w
             /\ (exists e, fst (Job.update id data w) = Throw e)
             /\ (data <> [] ->
                 Spec.accepted jobs_def Job.jsToSql data = true ->
                 exists message,
                   fst (Job.update id data w) = Throw (NotFoundError message)))
  /\ (forall username,
         Spec.absent "username" (VStr username) (users (db w)) ->
         (exists message,
             fst (User.remove username w) = Throw (NotFoundError message))
         /\ db (snd (User.remove username w)) = db w
         /\ User.update hash username [] w
            = (Throw (BadRequestError "No data"), w)
         /\ forall data,
             db (snd (User.update hash username data w)) = db w
             /\ (exists e, fst (User.update hash username data w) = Throw e)
             /\ (data <> [] ->
                 Spec.accepted users_def User.jsToSql (User.rehash hash data)
                 = true ->
                 exists message,
                   fst (User.update hash username data w)
                   = Throw (NotFoundError message))).
Proof.
  split; [|split].
  - intros handle Habs.
    assert (Company.remove handle w
            = (Throw (NotFoundError ("No company: " ++ handle)),
               Spec.after w (db w) Company.delete_sql [VStr handle])) as E.
    { unfold Company.remove.
      apply remove_call_misses with (tbl := "companies") (keycol := "handle")
                                    (shape := [("handle", "handle")])
                                    (def := companies_def)
                                    (rows := companies (db w));
        [reflexivity|reflexivity|reflexivity|discriminate|exact Habs]. }
    rewrite E. split; [reflexivity|]. split; [reflexivity|].
    split; [reflexivity|].
    intros data. now apply company_update_missing.
  - intros id Habs.
    assert (exists q, Job.remove id w
                      = (Throw (NotFoundError ("No job: " ++ JS.show_Z id)),
                         Spec.after w (db w) q [VNum id])) as [q E].
    { eexists. unfold Job.remove.
      apply remove_call_misses with (tbl := "jobs") (keycol := "id")
                                    (shape := [("id", "id")])
                                    (def := jobs_def) (rows := jobs (db w));
        [reflexivity|reflexivity|reflexivity|discriminate|exact Habs]. }
    rewrite E. split; [eexists; reflexivity|]. split; [reflexivity|].
    split; [reflexivity|].
    intros data. now apply job_update_missing.
  - intros username Habs.
    assert (exists q, User.remove username w
                      = (Throw (NotFoundError ("No user found: " ++ username)),
                         Spec.after w (db w) q [VStr username])) as [q E].
    { eexists. unfold User.remove.
      apply remove_call_misses with (tbl := "users") (keycol := "username")
                                    (shape := [("username", "username")])
                                    (def := users_def) (rows := users (db w));
        [reflexivity|reflexivity|reflexivity|discriminate|exact Habs]. }
    rewrite E. split; [eexists; reflexivity|]. split; [reflexivity|].
    split; [reflexivity|].
    intros data. now apply user_update_missing.
Qed.

(** C4, as stated, fails: no company has the handle "nope", yet updating it
    with an empty data mapping throws the BadRequestError of the SET builder
    ("No data"), and updating it with a column the table does not have is
    rejected by the store; neither is NotFound. *)
Lemma update_missing_with_no_data :
  Spec.absent "handle" (VStr "nope") (companies (db Sample.world))
  /\ fst (Company.update "nope" [] Sample.world)
     = Throw (BadRequestError "No data")
  /\ fst (Company.update "nope" [("founded", VNum 1999)] Sample.world)
     = Throw (DatabaseError "statement rejected")
  /\ ~ Spec.update_always_not_found "nope" Sample.world.
Proof.
  split; [|split; [|split]].
  - intros r Hr. simpl in Hr.
    destruct Hr as [<-|[<-|[<-|[]]]]; discriminate.
  - reflexivity.
  - reflexivity.
  - intros H. destruct (H []) as [message Hm]. discriminate Hm.
Qed.

Lemma update_remove_missing_witness :
  fst (Company.update "nope" [("name", VStr "Nope Inc"); ("numEmployees", VNum (-5))]
                      Sample.world)
  = Throw (NotFoundError "No company: nope")
  /\ Company.update "nope" [] Sample.world
     = (Throw (BadRequestError "No data"), Sample.world)
  /\ fst (Company.remove "nope" Sample.world)
     = Throw (NotFoundError "No company: nope").
Proof.
  destruct (update_remove_missing Sample.world Sample.toy_hash) as [H _].
  destruct (H "nope") as (Hrm & _ & Hempty & Hup).
  - intros r Hr. simpl in Hr. destruct Hr as [<-|[<-|[<-|[]]]]; discriminate.
  - split; [|split; [exact Hempty|exact Hrm]].
    destruct (Hup [("name", VStr "Nope Inc"); ("numEmployees", VNum (-5))])
      as (_ & _ & Hnf).
    apply Hnf; [discriminate|reflexivity].
Defined.

(** ** Looking a row up by its key *)

Lemma present_or_absent (c : string) (k : value) (rows : list row) :
  Spec.present c k rows \/ Spec.absent c k rows.
Proof.
  induction rows as [|r rows [IH|IH]].
  - right. intros r [].
  - left. destruct IH as (r0 & Hin & Hget). exists r0. split; [now right|exact Hget].
  - destruct (value_eqb (get c r) k) eqn:E.
    + left. exists r. split; [now left|now apply value_eqb_eq].
    + right. intros r0 [<-|Hin]; [|now apply IH].
      intros Heq. apply value_eqb_eq in Heq. congruence.
Qed.

Lemma find_by_key_misses (q : query) (tbl keycol : string) (proj : projection)
      (key : value) (w : World) (def : tabledef) (rows : list row) :
  q_sem q = Select tbl proj [Company.cond_on keycol OpEq 1] None ->
  get_table tbl (db w) = Some (def, rows) ->
  stmt_ok def (Select tbl proj [Company.cond_on keycol OpEq 1] None) [key] = true ->
  key <> VNull ->
  Spec.absent keycol key rows ->
  db_query q [key] w = (Return [], Spec.after w (db w) q [key]).
Proof.
  intros Hq Ht Hok Hkey Habs.
  rewrite (select_runs _ _ _ _ _ _ _ _ _ Hq Ht Hok). unfold order_rows.
  rewrite filter_none; [reflexivity|].
  apply (lookup_misses keycol key); [reflexivity|exact Hkey|exact Habs].
Qed.

Lemma find_by_key_hits (q : query) (tbl keycol : string) (proj : projection)
      (key : value) (w : World) (def : tabledef) (rows : list row) :
  q_sem q = Select tbl proj [Company.cond_on keycol OpEq 1] None ->
  get_table tbl (db w) = Some (def, rows) ->
  stmt_ok def (Select tbl proj [Company.cond_on keycol OpEq 1] None) [key] = true ->
  key <> VNull ->
  Spec.present keycol key rows ->
  exists r rest,
    db_query q [key] w
    = (Return (project proj r :: rest), Spec.after w (db w) q [key])
    /\ In r rows /\ get keycol r = key.
Proof.
  intros Hq Ht Hok Hkey Hpres.
  rewrite (select_runs _ _ _ _ _ _ _ _ _ Hq Ht Hok). unfold order_rows.
  destruct (lookup_hits keycol key rows 1 [key] eq_refl Hkey Hpres)
    as (r & rest & E & Hin & Hget).
  rewrite E. simpl map. eauto.
Qed.

Lemma present_existsb (c : string) (k : value) (rows : list row) :
  Spec.present c k rows ->
  existsb (fun r' => value_eqb (get c r') k) rows = true.
Proof.
  intros (r & Hin & Hget). apply existsb_exists. exists r.
  split; [exact Hin|now apply value_eqb_eq].
Qed.

Lemma absent_neq (c : string) (k : value) (rows : list row) (r : row) :
  Spec.absent c k rows -> In r rows -> value_eqb k (get c r) = false.
Proof.
  intros Habs Hin. apply value_eqb_neq. intros E. now apply (Habs r Hin).
Qed.

(** ** Company.create and User.register *)

Lemma create_duplicate (handle name description : string)
      (numEmployees : option Z) (logoUrl : option string) (w : World) :
  Spec.present "handle" (VStr handle) (companies (db w)) ->
  Company.create handle name description numEmployees logoUrl w
  = (Throw (BadRequestError ("Duplicate company: " ++ handle)),
     Spec.after w (db w) Company.duplicate_check_sql [VStr handle]).
Proof.
  intros Hpres. unfold Company.create, bind.
  destruct (find_by_key_hits Company.duplicate_check_sql "companies" "handle"
              [("handle", "handle")] (VStr handle) w companies_def
              (companies (db w)) eq_refl eq_refl eq_refl)
    as (r & rest & -> & _); [discriminate|exact Hpres|reflexivity].
Qed.

Lemma create_fresh (handle name description : string)
      (numEmployees : option Z) (logoUrl : option string) (w : World) :
  Spec.absent "handle" (VStr handle) (companies (db w)) ->
  (forall n, numEmployees = Some n -> (0 <= n)%Z) ->
  Company.create handle name description numEmployees logoUrl w
  = (Return
       (Some [ ("handle", VStr handle); ("name", VStr name);
               ("description", VStr description);
               ("numEmployees", Company.of_number numEmployees);
               ("logoUrl", Company.of_string logoUrl) ]),
     {| db :=
          {| companies :=
               (companies (db w)
                ++ [[ ("handle", VStr handle); ("name", VStr name);
                      ("description", VStr description);
                      ("num_employees", Company.of_number numEmployees);
                      ("logo_url", Company.of_string logoUrl) ]])%list;
             jobs := jobs (db w);
             users := users (db w);
             applications := applications (db w) |};
        sent :=
          (sent w
           ++ [(q_text Company.duplicate_check_sql, [VStr handle]);
               (q_text Company.insert_sql,
                [VStr handle; VStr name; VStr description;
                 Company.of_number numEmployees; Company.of_string logoUrl])])%list
     |}).
Proof.
  intros Habs Hnum. unfold Company.create, bind.
  rewrite (find_by_key_misses Company.duplicate_check_sql "companies" "handle"
             [("handle", "handle")] (VStr handle) w companies_def
             (companies (db w)) eq_refl eq_refl eq_refl);
    [|discriminate|exact Habs].
  erewrite insert_runs with (def := companies_def) (rows := companies (db w));
    [|reflexivity|reflexivity|reflexivity| | |reflexivity].
  - unfold ret, Spec.after. simpl. rewrite <- app_assoc. reflexivity.
  - unfold row_ok. simpl.
    destruct numEmployees as [n|], logoUrl as [l|]; simpl;
      rewrite ?andb_true_r; try reflexivity;
      apply Z.leb_le; now apply Hnum.
  - intros r Hr. unfold same_key. simpl. rewrite andb_true_r.
    now apply (absent_neq "handle" (VStr handle) (companies (db w))).
Qed.

Lemma register_fresh (hash : string -> string)
      (username password firstName lastName email : string)
      (isAdmin : option bool) (w : World) :
  Spec.absent "username" (VStr username) (users (db w)) ->
  exists q1 q2,
    User.register hash username password firstName lastName email isAdmin w
    = (Return
         (Some [ ("username", VStr username); ("firstName", VStr firstName);
                 ("lastName", VStr lastName); ("email", VStr email);
                 ("isAdmin",
                  VBool (match isAdmin with Some b => b | None => false end)) ]),
       {| db :=
            {| companies := companies (db w);
               jobs := jobs (db w);
               users :=
                 (users (db w)
                  ++ [[ ("username", VStr username);
                        ("password", VStr (hash password));
                        ("first_name", VStr firstName);
                        ("last_name", VStr lastName); ("email", VStr email);
                        ("is_admin",
                         VBool (match isAdmin with
                                | Some b => b | None => false end)) ]])%list;
               applications := applications (db w) |};
          sent := (sent w ++ [q1; q2])%list |}).
Proof.
  intros Habs. do 2 eexists. unfold User.register, bind.
  rewrite find_by_key_misses
    with (tbl := "users") (keycol := "username")
         (proj := [("username", "username")]) (def := users_def)
         (rows := users (db w));
    [|reflexivity|reflexivity|reflexivity|discriminate|exact Habs].
  erewrite insert_runs with (def := users_def) (rows := users (db w));
    [|reflexivity|reflexivity|reflexivity|reflexivity| |reflexivity].
  - unfold ret, Spec.after. simpl. rewrite <- app_assoc. reflexivity.
  - intros r Hr. unfold same_key. simpl. rewrite andb_true_r.
    now apply (absent_neq "username" (VStr username) (users (db w))).
Qed.

Lemma register_duplicate (hash : string -> string)
      (username password firstName lastName email : string)
      (isAdmin : option bool) (w : World) :
  Spec.present "username" (VStr username) (users (db w)) ->
  fst (User.register hash username password firstName lastName email isAdmin w)
  = Throw (BadRequestError ("Duplicate username: " ++ username))
  /\ db (snd (User.register hash username password firstName lastName email
                            isAdmin w))
     = db w.
Proof.
  intros Hpres. unfold User.register, bind.
  match goal with
  | |- context [db_query ?q [VStr username] w] =>
      destruct (find_by_key_hits q "users" "username" [("username", "username")]
                  (VStr username) w users_def (users (db w))
                  eq_refl eq_refl eq_refl)
        as (r & rest & -> & _); [discriminate|exact Hpres|]
  end.
  split; reflexivity.
Qed.

(** C5: creating a company whose handle is already stored throws the
    duplicate BadRequestError out of the lookup that precedes the insert (the
    lookup is the only statement sent, and the store is unchanged); with a
    fresh handle the row is inserted and the stored shape is returned.
    Registering a username that is not yet stored succeeds and returns the
    user without the password; registering the same username again then
    throws a BadRequestError whose message starts with "Duplicate
    username". *)
Theorem create_register_duplicates (w : World) (hash : string -> string) :
  (forall handle name description numEmployees logoUrl,
      Spec.present "handle" (VStr handle) (companies (db w)) ->
      Company.create handle name description numEmployees logoUrl w
      = (Throw (BadRequestError ("Duplicate company: " ++ handle)),
         Spec.after w (db w) Company.duplicate_check_sql [VStr handle]))
  /\ (forall handle name description numEmployees logoUrl,
         Spec.absent "handle" (VStr handle) (companies (db w)) ->
         (forall n, numEmployees = Some n -> (0 <= n)%Z) ->
         exists w',
           Company.create handle name description numEmployees logoUrl w
           = (Return
                (Some [ ("handle", VStr handle); ("name", VStr name);
                        ("description", VStr description);
                        ("numEmployees", Company.of_number numEmployees);
                        ("logoUrl", Company.of_string logoUrl) ]), w')
           /\ companies (db w')
              = (companies (db w)
                 ++ [[ ("handle", VStr handle); ("name", VStr name);
                       ("description", VStr description);
                       ("num_employees", Company.of_number numEmployees);
                       ("logo_url", Company.of_string logoUrl) ]])%list
           /\ sent w'
              = (sent w
                 ++ [(q_text Company.duplicate_check_sql, [VStr handle]);
                     (q_text Company.insert_sql,
                      [VStr handle; VStr name; VStr description;
                       Company.of_number numEmployees;
                       Company.of_string logoUrl])])%list)
  /\ (forall username password firstName lastName email isAdmin,
         Spec.absent "username" (VStr username) (users (db w)) ->
         exists user w1,
           User.register hash username password firstName lastName email
                         isAdmin w
           = (Return (Some user), w1)
           /\ get "username" user = VStr username
           /\ JS.lookup "password" user = None
           /\ forall password' firstName' lastName' email' isAdmin',
               exists message,
                 fst (User.register hash username password' firstName'
                                    lastName' email' isAdmin' w1)
                 = Throw (BadRequestError message)
                 /\ String.prefix "Duplicate username" message = true).
Proof.
  split; [|split].
  - intros. now apply create_duplicate.
  - intros handle name description numEmployees logoUrl Habs Hnum.
    eexists. split; [apply (create_fresh _ _ _ _ _ _ Habs Hnum)|].
    split; reflexivity.
  - intros username password firstName lastName email isAdmin Habs.
    destruct (register_fresh hash username password firstName lastName email
                             isAdmin w Habs) as (q1 & q2 & E).
    do 2 eexists. split; [exact E|]. split; [reflexivity|]. split; [reflexivity|].
    intros password' firstName' lastName' email' isAdmin'.
    eexists. split.
    + apply register_duplicate. simpl.
      eexists. split; [apply in_or_app; right; left; reflexivity|reflexivity].
    + reflexivity.
Qed.

(** ** Company.get *)

Lemma get_missing (handle : string) (w : World) :
  Spec.absent "handle" (VStr handle) (companies (db w)) ->
  Company.get handle w
  = (Throw (NotFoundError ("No company: " ++ handle)),
     Spec.after w (db w) Company.select_company_sql [VStr handle]).
Proof.
  intros Habs. unfold Company.get, bind.
  rewrite (find_by_key_misses Company.select_company_sql "companies" "handle"
             Company.company_shape (VStr handle) w companies_def
             (companies (db w)) eq_refl eq_refl eq_refl);
    [reflexivity|discriminate|exact Habs].
Qed.

Lemma get_found (handle : string) (w : World) :
  Spec.present "handle" (VStr handle) (companies (db w)) ->
  exists c,
    In c (companies (db w)) /\ get "handle" c = VStr handle
    /\ fst (Company.get handle w)
       = Return
           (Company.object_of_row (project Company.company_shape c)
            ++ [("jobs",
                 Company.Nested
                   (map (project [("id", "id"); ("title", "title");
                                  ("salary", "salary"); ("equity", "equity")])
                        (sort (key_leb "id")
                              (filter
                                 (fun j => value_eqb (get "company_handle" j)
                                                     (VStr handle))
                                 (jobs (db w))))))])%list.
Proof.
  intros Hpres. unfold Company.get, bind.
  destruct (find_by_key_hits Company.select_company_sql "companies" "handle"
              Company.company_shape (VStr handle) w companies_def
              (companies (db w)) eq_refl eq_refl eq_refl)
    as (c & rest & -> & Hin & Hget); [discriminate|exact Hpres|].
  exists c. split; [exact Hin|]. split; [exact Hget|].
  erewrite select_runs with (def := jobs_def) (rows := jobs (db (Spec.after w (db w) Company.select_company_sql [VStr handle])));
    [|reflexivity|reflexivity|reflexivity].
  unfold ret, order_rows. simpl fst.
  erewrite filter_ext; [reflexivity|].
  intros j. apply holds_single; [reflexivity|discriminate].
Qed.

(** C6: [get] throws NotFound when no company has the handle; otherwise it
    returns that company with a "jobs" property holding exactly the jobs of
    the company, in ascending order of id (so of two jobs the one with the
    smaller id comes first). *)
Theorem get_company_with_jobs (handle : string) (w : World) :
  (Spec.absent "handle" (VStr handle) (companies (db w)) ->
   fst (Company.get handle w) = Throw (NotFoundError ("No company: " ++ handle)))
  /\ (Spec.present "handle" (VStr handle) (companies (db w)) ->
      exists c js,
        In c (companies (db w)) /\ get "handle" c = VStr handle
        /\ fst (Company.get handle w)
           = Return (Company.object_of_row (project Company.company_shape c)
                     ++ [("jobs", Company.Nested js)])%list
        /\ Permutation
             (map (project [("id", "id"); ("title", "title");
                            ("salary", "salary"); ("equity", "equity")])
                  (filter (fun j => value_eqb (get "company_handle" j) (VStr handle))
                          (jobs (db w))))
             js
        /\ Spec.ascending "id" js
        /\ forall a b x y,
            js = [a; b] -> get "id" a = VNum x -> get "id" b = VNum y ->
            (x <= y)%Z).
Proof.
  split.
  - intros Habs. now rewrite get_missing.
  - intros Hpres. destruct (get_found handle w Hpres) as (c & Hin & Hget & E).
    exists c. eexists. split; [exact Hin|]. split; [exact Hget|].
    split; [exact E|].
    assert (Spec.ascending "id"
              (map (project [("id", "id"); ("title", "title");
                             ("salary", "salary"); ("equity", "equity")])
                   (sort (key_leb "id")
                         (filter (fun j => value_eqb (get "company_handle" j)
                                                     (VStr handle))
                                 (jobs (db w)))))) as Hasc.
    { apply (ordered_projection
               [("id", "id"); ("title", "title"); ("salary", "salary");
                ("equity", "equity")] "id").
      reflexivity. }
    split; [apply Permutation_map, sort_perm|].
    split; [exact Hasc|].
    intros a b x y Hjs Ha Hb. rewrite Hjs in Hasc.
    inversion Hasc as [|? ? _ Hhd]; subst. inversion Hhd as [|? ? Hab]; subst.
    rewrite Ha, Hb in Hab. now apply Z.leb_le.
Qed.

(** ** User.authenticate *)

Lemma authenticate_runs (compare : string -> string -> bool)
      (username password : string) (w : World) :
  exists q,
    User.authenticate compare username password w
    = (match filter (fun u => value_eqb (get "username" u) (VStr username))
                    (users (db w)) with
       | [] => Throw User.invalid_credentials
       | u :: _ =>
           if Spec.password_matches compare password u
           then Return (project User.user_shape u)
           else Throw User.invalid_credentials
       end,
       Spec.after w (db w) q [VStr username]).
Proof.
  eexists. unfold User.authenticate, bind.
  erewrite select_runs with (def := users_def) (rows := users (db w));
    [|reflexivity|reflexivity|reflexivity].
  unfold order_rows.
  erewrite filter_ext;
    [|intros u; apply holds_single; [reflexivity|discriminate]].
  destruct (filter _ (users (db w))) as [|u rest]; [reflexivity|].
  cbn [map]. unfold Spec.password_matches.
  change (get "password" (project (("password", "password") :: User.user_shape) u))
    with (get "password" u).
  destruct (get "password" u) as [| | |hashed]; try reflexivity.
  destruct (compare password hashed); reflexivity.
Qed.

(** C7: [authenticate] throws the same UnauthorizedError, "Invalid
    username/password", when no user has the username and when the password
    does not check against the stored hash; when it returns, the user it
    returns has no password field (and it does return when the password
    checks). *)
Theorem authenticate_generic_failure (compare : string -> string -> bool)
        (username password : string) (w : World) :
  (Spec.absent "username" (VStr username) (users (db w)) ->
   fst (User.authenticate compare username password w)
   = Throw (UnauthorizedError "Invalid username/password"))
  /\ (Spec.present "username" (VStr username) (users (db w)) ->
      (forall u, In u (users (db w)) -> get "username" u = VStr username ->
                 Spec.password_matches compare password u = false) ->
      fst (User.authenticate compare username password w)
      = Throw (UnauthorizedError "Invalid username/password"))
  /\ (forall user,
         fst (User.authenticate compare username password w) = Return user ->
         JS.lookup "password" user = None
         /\ get "username" user = VStr username)
  /\ (Spec.present "username" (VStr username) (users (db w)) ->
      (forall u, In u (users (db w)) -> get "username" u = VStr username ->
                 Spec.password_matches compare password u = true) ->
      exists user,
        fst (User.authenticate compare username password w) = Return user).
Proof.
  destruct (authenticate_runs compare username password w) as [q ->].
  simpl fst.
  assert (forall u rest,
             filter (fun u => value_eqb (get "username" u) (VStr username))
                    (users (db w)) = u :: rest ->
             In u (users (db w)) /\ get "username" u = VStr username) as Hhd.
  { intros u rest E.
    assert (In u (filter (fun u => value_eqb (get "username" u) (VStr username))
                         (users (db w)))) as Hu by (rewrite E; now left).
    apply filter_In in Hu. destruct Hu as [Hu1 Hu2].
    split; [exact Hu1|now apply value_eqb_eq]. }
  assert (Spec.present "username" (VStr username) (users (db w)) ->
          exists u rest,
            filter (fun u => value_eqb (get "username" u) (VStr username))
                   (users (db w)) = u :: rest) as Hpres.
  { intros (u0 & Hin & Hget). apply (filter_some _ _ u0 Hin).
    now apply value_eqb_eq. }
  split; [|split; [|split]].
  - intros Habs. rewrite filter_none; [reflexivity|].
    intros u Hu. apply value_eqb_neq. now apply Habs.
  - intros Hp Hbad. destruct (Hpres Hp) as (u & rest & E). rewrite E.
    destruct (Hhd u rest E) as [Hin Hget]. now rewrite (Hbad u Hin Hget).
  - intros user.
    destruct (filter _ (users (db w))) as [|u rest] eqn:E; [discriminate|].
    destruct (Spec.password_matches compare password u); [|discriminate].
    intros [= <-]. split; [reflexivity|].
    destruct (Hhd u rest eq_refl) as [_ Hget]. exact Hget.
  - intros Hp Hgood. destruct (Hpres Hp) as (u & rest & E). rewrite E.
    destruct (Hhd u rest E) as [Hin Hget]. rewrite (Hgood u Hin Hget).
    eexists. reflexivity.
Qed.

(** ** User.applyToJob *)

Lemma holds_pair (username : string) (jobId : Z) (r : row) :
  holds [Company.cond_on "username" OpEq 1; Company.cond_on "job_id" OpEq 2]
        [VStr username; VNum jobId] r
  = value_eqb (get "username" r) (VStr username)
    && value_eqb (get "job_id" r) (VNum jobId).
Proof.
  unfold holds, eval_cond, sql_cmp; simpl.
  destruct (get "username" r), (get "job_id" r); simpl;
    rewrite ?andb_true_r, ?andb_false_r; reflexivity.
Qed.

Lemma applyToJob_no_job (username : string) (jobId : Z) (status : option string)
      (w : World) :
  Spec.absent "id" (VNum jobId) (jobs (db w)) ->
  fst (User.applyToJob username jobId status w)
  = Throw (NotFoundError ("No job: " ++ JS.show_Z jobId))
  /\ db (snd (User.applyToJob username jobId status w)) = db w.
Proof.
  intros Habs. unfold User.applyToJob, bind.
  rewrite find_by_key_misses
    with (tbl := "jobs") (keycol := "id") (proj := [("id", "id")])
         (def := jobs_def) (rows := jobs (db w));
    [|reflexivity|reflexivity|reflexivity|discriminate|exact Habs].
  split; reflexivity.
Qed.

Lemma applyToJob_no_user (username : string) (jobId : Z) (status : option string)
      (w : World) :
  Spec.present "id" (VNum jobId) (jobs (db w)) ->
  Spec.absent "username" (VStr username) (users (db w)) ->
  fst (User.applyToJob username jobId status w)
  = Throw (NotFoundError ("No username: " ++ username))
  /\ db (snd (User.applyToJob username jobId status w)) = db w.
Proof.
  intros Hjob Habs. unfold User.applyToJob, bind.
  match goal with
  | |- context [db_query ?q [VNum jobId] w] =>
      destruct (find_by_key_hits q "jobs" "id" [("id", "id")] (VNum jobId) w
                  jobs_def (jobs (db w)) eq_refl eq_refl eq_refl)
        as (j & rest & -> & _); [discriminate|exact Hjob|]
  end.
  rewrite find_by_key_misses
    with (tbl := "users") (keycol := "username")
         (proj := [("username", "username")]) (def := users_def)
         (rows := users (db w));
    [|reflexivity|reflexivity|reflexivity|discriminate|exact Habs].
  split; reflexivity.
Qed.

Lemma applyToJob_both_known (username : string) (jobId : Z)
      (status : option string) (w : World) :
  Spec.present "id" (VNum jobId) (jobs (db w)) ->
  Spec.present "username" (VStr username) (users (db w)) ->
  exists q1 q2 q3 q4,
    User.applyToJob username jobId status w
    = match filter (fun r => value_eqb (get "username" r) (VStr username)
                             && value_eqb (get "job_id" r) (VNum jobId))
                   (applications (db w)) with
      | _ :: _ =>
          (Throw (BadRequestError ("Already applied to job: " ++ JS.show_Z jobId)),
           {| db := db w; sent := (sent w ++ [q1; q2; q3])%list |})
      | [] =>
          (Return tt,
           {| db :=
                {| companies := companies (db w);
                   jobs := jobs (db w);
                   users := users (db w);
                   applications :=
                     (applications (db w)
                      ++ [[ ("username", VStr username); ("job_id", VNum jobId);
                            ("status",
                             VStr (match status with
                                   | Some s => s | None => "applied" end)) ]])%list |};
              sent := (sent w ++ [q1; q2; q3; q4])%list |})
      end.
Proof.
  intros Hjob Huser. do 4 eexists. unfold User.applyToJob, bind.
  match goal with
  | |- context [db_query ?q [VNum jobId] w] =>
      destruct (find_by_key_hits q "jobs" "id" [("id", "id")] (VNum jobId) w
                  jobs_def (jobs (db w)) eq_refl eq_refl eq_refl)
        as (j & rest & -> & _); [discriminate|exact Hjob|]
  end.
  match goal with
  | |- context [db_query ?q [VStr username] ?w1] =>
      destruct (find_by_key_hits q "users" "username" [("username", "username")]
                  (VStr username) w1 users_def (users (db w))
                  eq_refl eq_refl eq_refl)
        as (u & rest' & -> & _); [discriminate|exact Huser|]
  end.
  cbv beta iota.
  erewrite select_runs with (def := applications_def) (rows := applications (db w));
    [|reflexivity|reflexivity|reflexivity].
  unfold order_rows.
  erewrite filter_ext; [|intros r; apply holds_pair].
  destruct (filter _ (applications (db w))) as [|a rest''] eqn:E.
  - cbn [map]. cbv beta iota.
    erewrite insert_runs with (def := applications_def) (rows := applications (db w));
      [|reflexivity|reflexivity|reflexivity|reflexivity| |].
    3: {
      change (existsb (fun r' => value_eqb (get "username" r') (VStr username))
                      (users (db w))
              && (existsb (fun r' => value_eqb (get "id" r') (VNum jobId))
                          (jobs (db w)) && true) = true).
      now rewrite (present_existsb _ _ _ Huser), (present_existsb _ _ _ Hjob). }
    + unfold ret, Spec.after. simpl. rewrite <- !app_assoc. reflexivity.
    + intros r Hr.
      change (value_eqb (VStr username) (get "username" r)
              && (value_eqb (VNum jobId) (get "job_id" r) && true) = false).
      rewrite andb_true_r.
      assert (~ In r (filter (fun r => value_eqb (get "username" r) (VStr username)
                                        && value_eqb (get "job_id" r) (VNum jobId))
                             (applications (db w)))) as Hnot
          by (rewrite E; intros []).
      rewrite filter_In in Hnot.
      destruct (value_eqb (VStr username) (get "username" r)) eqn:E1;
        [|reflexivity].
      destruct (value_eqb (VNum jobId) (get "job_id" r)) eqn:E2; [|reflexivity].
      exfalso. apply Hnot. split; [exact Hr|].
      apply value_eqb_eq in E1, E2. rewrite <- E1, <- E2. simpl.
      now rewrite String.eqb_refl, Z.eqb_refl.
  - cbn [map]. cbv beta iota. unfold throw, Spec.after. simpl.
    rewrite <- !app_assoc. reflexivity.
Qed.

(** C8: [applyToJob] checks the job and the user one after the other and
    throws a NotFoundError naming the one that is missing: "No job" when the
    job is missing, "No username" when the job exists and the user is
    missing, so that a missing job or a missing user always ends in a
    NotFoundError and nothing is stored; when both exist and the pair has an
    application already, it throws a BadRequestError "Already applied";
    otherwise it inserts the application row, with status "applied" unless a
    status was passed. *)
Theorem applyToJob_checks (username : string) (jobId : Z)
        (status : option string) (w : World) :
  (Spec.absent "id" (VNum jobId) (jobs (db w)) ->
   exists message,
     fst (User.applyToJob username jobId status w) = Throw (NotFoundError message)
     /\ String.prefix "No job" message = true
     /\ db (snd (User.applyToJob username jobId status w)) = db w)
  /\ (Spec.present "id" (VNum jobId) (jobs (db w)) ->
      Spec.absent "username" (VStr username) (users (db w)) ->
      exists message,
        fst (User.applyToJob username jobId status w)
        = Throw (NotFoundError message)
        /\ String.prefix "No username" message = true
        /\ db (snd (User.applyToJob username jobId status w)) = db w)
  /\ (Spec.absent "id" (VNum jobId) (jobs (db w))
      \/ Spec.absent "username" (VStr username) (users (db w)) ->
      exists message,
        fst (User.applyToJob username jobId status w)
        = Throw (NotFoundError message)
        /\ (String.prefix "No job" message = true
            \/ String.prefix "No username" message = true)
        /\ db (snd (User.applyToJob username jobId status w)) = db w)
  /\ (Spec.present "id" (VNum jobId) (jobs (db w)) ->
      Spec.present "username" (VStr username) (users (db w)) ->
      Spec.applied username jobId (applications (db w)) ->
      exists message,
        fst (User.applyToJob username jobId status w)
        = Throw (BadRequestError message)
        /\ String.prefix "Already applied" message = true
        /\ db (snd (User.applyToJob username jobId status w)) = db w)
  /\ (Spec.present "id" (VNum jobId) (jobs (db w)) ->
      Spec.present "username" (VStr username) (users (db w)) ->
      ~ Spec.applied username jobId (applications (db w)) ->
      fst (User.applyToJob username jobId status w) = Return tt
      /\ applications (db (snd (User.applyToJob username jobId status w)))
         = (applications (db w)
            ++ [[ ("username", VStr username); ("job_id", VNum jobId);
                  ("status",
                   VStr (match status with
                         | Some s => s | None => "applied" end)) ]])%list
      /\ companies (db (snd (User.applyToJob username jobId status w)))
         = companies (db w)
      /\ jobs (db (snd (User.applyToJob username jobId status w))) = jobs (db w)
      /\ users (db (snd (User.applyToJob username jobId status w)))
         = users (db w)).
Proof.
  assert (Spec.absent "id" (VNum jobId) (jobs (db w)) ->
          exists message,
            fst (User.applyToJob username jobId status w)
            = Throw (NotFoundError message)
            /\ String.prefix "No job" message = true
            /\ db (snd (User.applyToJob username jobId status w)) = db w)
    as Hnojob.
  { intros Hjob. destruct (applyToJob_no_job username jobId status w Hjob)
      as [E1 E2].
    eexists. split; [exact E1|]. split; [reflexivity|exact E2]. }
  assert (Spec.present "id" (VNum jobId) (jobs (db w)) ->
          Spec.absent "username" (VStr username) (users (db w)) ->
          exists message,
            fst (User.applyToJob username jobId status w)
            = Throw (NotFoundError message)
            /\ String.prefix "No username" message = true
            /\ db (snd (User.applyToJob username jobId status w)) = db w)
    as Hnouser.
  { intros Hjob Huser.
    destruct (applyToJob_no_user username jobId status w Hjob Huser) as [E1 E2].
    eexists. split; [exact E1|]. split; [reflexivity|exact E2]. }
  split; [exact Hnojob|]. split; [exact Hnouser|]. split; [|split].
  - intros Hmiss.
    destruct (present_or_absent "id" (VNum jobId) (jobs (db w))) as [Hjob|Hjob].
    + destruct Hmiss as [Habs|Huser].
      * destruct Hjob as (j & Hin & Hget). now destruct (Habs j Hin).
      * destruct (Hnouser Hjob Huser) as (message & E & Hp & Hdb).
        exists message. auto.
    + destruct (Hnojob Hjob) as (message & E & Hp & Hdb).
      exists message. auto.
  - intros Hjob Huser (a & Hin & Hu & Hj).
    destruct (applyToJob_both_known username jobId status w Hjob Huser)
      as (q1 & q2 & q3 & q4 & ->).
    destruct (filter_some
                (fun r => value_eqb (get "username" r) (VStr username)
                          && value_eqb (get "job_id" r) (VNum jobId))
                (applications (db w)) a Hin) as (y & rest & ->).
    { rewrite Hu, Hj. simpl. now rewrite String.eqb_refl, Z.eqb_refl. }
    eexists. split; [reflexivity|]. split; reflexivity.
  - intros Hjob Huser Hnot.
    destruct (applyToJob_both_known username jobId status w Hjob Huser)
      as (q1 & q2 & q3 & q4 & ->).
    rewrite filter_none.
    + repeat split.
    + intros r Hr.
      destruct (value_eqb (get "username" r) (VStr username)) eqn:E1;
        [|reflexivity].
      destruct (value_eqb (get "job_id" r) (VNum jobId)) eqn:E2; [|reflexivity].
      exfalso. apply Hnot. exists r. apply value_eqb_eq in E1, E2. auto.
Qed.

(** ** JoblyApi.request *)

Lemma member_fails_with_TypeError (o : Api.js) (k : string) (t : Api.thrown) :
  Api.member o k = Api.Abrupt t -> exists m, t = Api.TypeError m.
Proof.
  destruct o; simpl; try discriminate; intros [= <-]; eexists; reflexivity.
Qed.

Lemma message_of_fails_with_TypeError (err : Api.js) (t : Api.thrown) :
  Api.message_of err = Api.Abrupt t -> exists m, t = Api.TypeError m.
Proof.
  unfold Api.message_of.
  destruct (Api.member err "response") as [response|t1] eqn:E1; simpl;
    [|intros [= <-]; now apply (member_fails_with_TypeError err "response")].
  destruct (Api.member response "data") as [d|t2] eqn:E2; simpl;
    [|intros [= <-]; now apply (member_fails_with_TypeError response "data")].
  destruct (Api.member d "error") as [e|t3] eqn:E3; simpl;
    [|intros [= <-]; now apply (member_fails_with_TypeError d "error")].
  apply member_fails_with_TypeError.
Qed.




(** ** The theorems at work on the sample store *)

Ltac not_in_sample :=
  let r := fresh "r" in
  let Hr := fresh "Hr" in
  intros r Hr; simpl in Hr;
  repeat (destruct Hr as [<-|Hr]; [discriminate|]); destruct Hr.

Lemma create_register_duplicates_witness :
  fst (Company.create "c1" "Acme" "Once more" None None Sample.world)
  = Throw (BadRequestError "Duplicate company: c1")
  /\ (exists w',
         Company.create "c9" "Nine" "A ninth" (Some 3%Z) None Sample.world
         = (Return
              (Some [ ("handle", VStr "c9"); ("name", VStr "Nine");
                      ("description", VStr "A ninth"); ("numEmployees", VNum 3);
                      ("logoUrl", VNull) ]), w'))
  /\ exists user w1 message,
      User.register Sample.toy_hash "new" "password" "Test" "Tester"
                    "test@test.com" None Sample.world
      = (Return (Some user), w1)
      /\ fst (User.register Sample.toy_hash "new" "password" "Test" "Tester"
                            "test@test.com" None w1)
         = Throw (BadRequestError message)
      /\ String.prefix "Duplicate username" message = true.
Proof.
  destruct (create_register_duplicates Sample.world Sample.toy_hash)
    as (Hdup & Hnew & Hreg).
  split; [|split].
  - rewrite Hdup; [reflexivity|].
    exists (Sample.company "c1" "Acme" (VNum 0)). split; [simpl; auto|reflexivity].
  - destruct (Hnew "c9" "Nine" "A ninth" (Some 3%Z) None) as (w' & E & _).
    + not_in_sample.
    + intros n [= <-]. lia.
    + exists w'. exact E.
  - destruct (Hreg "new" "password" "Test" "Tester" "test@test.com" None)
      as (user & w1 & E & _ & _ & Hagain).
    + not_in_sample.
    + destruct (Hagain "password" "Test" "Tester" "test@test.com" None)
        as (message & E2 & Hp).
      exists user, w1, message. auto.
Defined.

Lemma get_company_with_jobs_witness :
  fst (Company.get "nope" Sample.world)
  = Throw (NotFoundError "No company: nope")
  /\ exists c js,
      fst (Company.get "c1" Sample.world)
      = Return (Company.object_of_row (project Company.company_shape c)
                ++ [("jobs", Company.Nested js)])%list
      /\ Spec.ascending "id" js.
Proof.
  split.
  - destruct (get_company_with_jobs "nope" Sample.world) as [H _].
    apply H. not_in_sample.
  - destruct (get_company_with_jobs "c1" Sample.world) as [_ H].
    destruct H as (c & js & _ & _ & E & _ & Hasc & _).
    + exists (Sample.company "c1" "Acme" (VNum 0)).
      split; [simpl; auto|reflexivity].
    + exists c, js. auto.
Defined.

Lemma authenticate_generic_failure_witness :
  fst (User.authenticate Sample.toy_compare "nope" "password" Sample.world)
  = Throw (UnauthorizedError "Invalid username/password")
  /\ fst (User.authenticate Sample.toy_compare "u1" "wrong" Sample.world)
     = Throw (UnauthorizedError "Invalid username/password")
  /\ exists user,
      fst (User.authenticate Sample.toy_compare "u1" "password1" Sample.world)
      = Return user
      /\ JS.lookup "password" user = None.
Proof.
  assert (Spec.present "username" (VStr "u1") (users (db Sample.world))) as Hu1.
  { exists (Sample.user "u1" (Sample.toy_hash "password1")).
    split; [simpl; auto|reflexivity]. }
  split; [|split].
  - destruct (authenticate_generic_failure Sample.toy_compare "nope" "password"
                                           Sample.world) as (H & _).
    apply H. not_in_sample.
  - destruct (authenticate_generic_failure Sample.toy_compare "u1" "wrong"
                                           Sample.world) as (_ & H & _).
    apply H; [exact Hu1|].
    intros u Hu _. simpl in Hu. destruct Hu as [<-|[]]. reflexivity.
  - destruct (authenticate_generic_failure Sample.toy_compare "u1" "password1"
                                           Sample.world) as (_ & _ & Hno & Hok).
    destruct Hok as [user E]; [exact Hu1| |].
    + intros u Hu _. simpl in Hu. destruct Hu as [<-|[]]. reflexivity.
    + exists user. split; [exact E|]. now destruct (Hno user E).
Defined.

Lemma applyToJob_checks_witness :
  (exists message,
      fst (User.applyToJob "u1" 0 None Sample.world)
      = Throw (NotFoundError message)
      /\ String.prefix "No job" message = true)
  /\ (exists message,
         fst (User.applyToJob "nope" 1 None Sample.world)
         = Throw (NotFoundError message)
         /\ String.prefix "No username" message = true)
  /\ (exists message,
         fst (User.applyToJob "nope" 0 None Sample.world)
         = Throw (NotFoundError message))
  /\ (exists message,
         fst (User.applyToJob "u1" 1 None Sample.world)
         = Throw (BadRequestError message)
         /\ String.prefix "Already applied" message = true)
  /\ fst (User.applyToJob "u1" 2 None Sample.world) = Return tt
  /\ applications (db (snd (User.applyToJob "u1" 2 None Sample.world)))
     = (applications Sample.store
        ++ [[ ("username", VStr "u1"); ("job_id", VNum 2);
              ("status", VStr "applied") ]])%list.
Proof.
  assert (Spec.present "username" (VStr "u1") (users (db Sample.world))) as Hu1.
  { exists (Sample.user "u1" (Sample.toy_hash "password1")).
    split; [simpl; auto|reflexivity]. }
  assert (Spec.present "id" (VNum 1) (jobs (db Sample.world))) as Hj1.
  { exists (Sample.job 1 "Baker" "c1"). split; [simpl; auto|reflexivity]. }
  assert (Spec.present "id" (VNum 2) (jobs (db Sample.world))) as Hj2.
  { exists (Sample.job 2 "Clerk" "c2"). split; [simpl; auto|reflexivity]. }
  split; [|split; [|split; [|split]]].
  - destruct (applyToJob_checks "u1" 0 None Sample.world) as (H & _).
    destruct H as (message & E & Hp & _); [not_in_sample|].
    exists message. auto.
  - destruct (applyToJob_checks "nope" 1 None Sample.world) as (_ & H & _).
    destruct H as (message & E & Hp & _); [exact Hj1|not_in_sample|].
    exists message. auto.
  - destruct (applyToJob_checks "nope" 0 None Sample.world) as (_ & _ & H & _).
    destruct H as (message & E & _); [right; not_in_sample|].
    exists message. exact E.
  - destruct (applyToJob_checks "u1" 1 None Sample.world) as (_ & _ & _ & H & _).
    destruct H as (message & E & Hp & _); [exact Hj1|exact Hu1| |].
    + eexists. split; [simpl; left; reflexivity|]. split; reflexivity.
    + exists message. auto.
  - destruct (applyToJob_checks "u1" 2 None Sample.world) as (_ & _ & _ & _ & H).
    destruct H as (E1 & E2 & _); [exact Hj2|exact Hu1| |].
    + intros (r & Hr & _ & Hjob). simpl in Hr. destruct Hr as [<-|[]].
      discriminate Hjob.
    + split; [exact E1|exact E2].
Defined.

Lemma findAll_falsy_name_zero_bounds_witness :
  Company.findAll {| Company.minEmployees := None; Company.maxEmployees := None;
                     Company.name := Some EmptyString |} Sample.world
  = Company.findAll {| Company.minEmployees := None; Company.maxEmployees := None;
                       Company.name := None |} Sample.world
  /\ exists q rows,
      Company.findAll {| Company.minEmployees := Some 0%Z;
                         Company.maxEmployees := None;
                         Company.name := None |} Sample.world
      = (Return rows, Spec.after Sample.world Sample.store q [VNum 0])
      /\ In (project Company.company_shape (Sample.company "c1" "Acme" (VNum 0)))
            rows
      /\ ~ In (project Company.company_shape (Sample.company "c3" "Burrow" VNull))
             rows.
Proof.
  destruct (findAll_falsy_name_zero_bounds Sample.world) as (Hname & Hmin & _).
  split.
  - destruct (Hname None None) as (_ & _ & Hsame & _). exact Hsame.
  - destruct (Hmin None None) as (_ & _ & Hrun).
    destruct (Hrun eq_refl) as (q & rows & Hq & _ & Hin).
    exists q, rows. split; [exact Hq|]. split.
    + apply Hin. exists (Sample.company "c1" "Acme" (VNum 0)).
      split; [simpl; auto|]. split; [reflexivity|]. split; reflexivity.
    + intros H. apply Hin in H. destruct H as (r0 & H0 & Heq & Hlow & _).
      simpl in H0. destruct H0 as [<-|[<-|[<-|[]]]];
        first [discriminate Heq | discriminate Hlow].
Defined.

(* ================================================================= *)
(** * Further properties of the company repository *)

(** What [findAll] returns, when it returns. *)
Lemma findAll_rows (f : Company.filters) (w : World) (rows : list row) :
  fst (Company.findAll f w) = Return rows ->
  Spec.in_range f
  /\ rows = map (project Company.company_shape)
                (sort (key_leb "name")
                      (filter (Spec.satisfies f) (companies (db w)))).
Proof.
  intros Hrun. unfold Spec.in_range.
  destruct (JS.gt (Company.minEmployees f) (Company.maxEmployees f)) eqn:Hgt.
  - unfold Company.findAll in Hrun. rewrite Hgt in Hrun. discriminate Hrun.
  - split; [reflexivity|].
    destruct (findAll_runs f w Hgt) as (q & Hq & _). rewrite Hq in Hrun.
    simpl in Hrun. now injection Hrun as <-.
Qed.

(** X1: whatever filters are present, the conditions of the WHERE clause
    carry the placeholders $1, $2, ... in order, one per bind value, so
    every placeholder is bound and every bind value is used. *)
Theorem findAll_placeholders (f : Company.filters) :
  map c_param (Company.whereClauses (Company.build f))
  = seq 1 (List.length (Company.values (Company.build f)))
  /\ List.length (Company.whereClauses (Company.build f))
     = List.length (Company.values (Company.build f))
  /\ forall c, In c (Company.whereClauses (Company.build f)) ->
               exists v, param (Company.values (Company.build f)) (c_param c)
                         = Some v.
Proof.
  destruct f as [[m|] [x|] [[|c n]|]];
    (split; [reflexivity|]; split; [reflexivity|]);
    intros c0 Hc; simpl in Hc;
    repeat (destruct Hc as [<-|Hc]; [eexists; reflexivity|]); destruct Hc.
Qed.

(** X2: [findAll] only reads: the store is the same afterwards, whatever
    the filters; it sends one statement when the filters are in range and
    none when they are not. *)
Theorem findAll_read_only (f : Company.filters) (w : World) :
  db (snd (Company.findAll f w)) = db w
  /\ (Spec.in_range f ->
      exists text,
        sent (snd (Company.findAll f w))
        = (sent w ++ [(text, Company.values (Company.build f))])%list)
  /\ (~ Spec.in_range f -> sent (snd (Company.findAll f w)) = sent w).
Proof.
  unfold Spec.in_range.
  destruct (JS.gt (Company.minEmployees f) (Company.maxEmployees f)) eqn:Hgt.
  - unfold Company.findAll. rewrite Hgt. split; [reflexivity|].
    split; [discriminate|reflexivity].
  - destruct (findAll_runs f w Hgt) as (q & -> & _).
    split; [reflexivity|]. split; [|intros H; now destruct H].
    intros _. exists (q_text q). reflexivity.
Qed.

Lemma satisfies_stricter (f' f : Company.filters) (r : row) :
  Spec.stricter f' f -> Spec.satisfies f' r = true -> Spec.satisfies f r = true.
Proof.
  intros (Hmin & Hmax & Hname). unfold Spec.satisfies. intros H.
  apply andb_prop in H. destruct H as [H H3].
  apply andb_prop in H. destruct H as [H1 H2].
  apply andb_true_intro. split; [apply andb_true_intro; split|].
  - destruct (Company.minEmployees f) as [m|]; [|reflexivity].
    destruct (Hmin m eq_refl) as (m' & E & Hle). rewrite E in H1.
    unfold Spec.at_least in *. destruct (get "num_employees" r); try discriminate.
    apply Z.leb_le in H1. apply Z.leb_le. lia.
  - destruct (Company.maxEmployees f) as [m|]; [|reflexivity].
    destruct (Hmax m eq_refl) as (m' & E & Hle). rewrite E in H2.
    unfold Spec.at_most in *. destruct (get "num_employees" r); try discriminate.
    apply Z.leb_le in H2. apply Z.leb_le. lia.
  - destruct (Company.name f) as [n|]; [|reflexivity].
    destruct (JS.truthy_string n) eqn:Hn; [|reflexivity].
    rewrite (Hname n eq_refl Hn), Hn in H3. exact H3.
Qed.

(** X3: tightening the filters never adds a company: if one call asks for
    at least what another asks for (same name filter, bounds as tight or
    tighter, possibly more filters), every row it returns is returned by the
    other as well; in particular every result is part of the unfiltered
    one. *)
Theorem findAll_narrows (f' f : Company.filters) (w : World)
        (rows' rows : list row) :
  Spec.stricter f' f ->
  fst (Company.findAll f' w) = Return rows' ->
  fst (Company.findAll f w) = Return rows ->
  (forall r, In r rows' -> In r rows)
  /\ (List.length rows' <= List.length (companies (db w)))%nat.
Proof.
  intros Hs H' H.
  destruct (findAll_rows f' w rows' H') as [_ ->].
  destruct (findAll_rows f w rows H) as [_ ->].
  split.
  - intros r Hr. apply in_map_iff in Hr. destruct Hr as (r0 & <- & Hr0).
    apply in_map. apply in_sorted_filter in Hr0. apply in_sorted_filter.
    destruct Hr0 as [Hin Hsat]. split; [exact Hin|].
    now apply (satisfies_stricter f' f).
  - rewrite length_map.
    rewrite <- (Permutation_length (sort_perm (key_leb "name") _)).
    apply filter_length_le.
Qed.

Lemma findAll_narrows_witness :
  In (project Company.company_shape (Sample.company "c1" "Acme" (VNum 0)))
     (map (project Company.company_shape)
          [ Sample.company "c1" "Acme" (VNum 0);
            Sample.company "c3" "Burrow" VNull;
            Sample.company "c2" "Zenith" (VNum 20) ]).
Proof.
  destruct (findAll_narrows
              {| Company.minEmployees := None; Company.maxEmployees := Some 5%Z;
                 Company.name := None |}
              {| Company.minEmployees := None; Company.maxEmployees := None;
                 Company.name := None |}
              Sample.world
              [ project Company.company_shape (Sample.company "c1" "Acme" (VNum 0)) ]
              (map (project Company.company_shape)
                   [ Sample.company "c1" "Acme" (VNum 0);
                     Sample.company "c3" "Burrow" VNull;
                     Sample.company "c2" "Zenith" (VNum 20) ]))
    as [H _].
  - split; [|split]; intros m Hm; discriminate Hm.
  - reflexivity.
  - reflexivity.
  - apply H. left. reflexivity.
Defined.

(** The world [get] leaves behind when the company exists. *)
Lemma get_found_world (handle : string) (w : World) :
  Spec.present "handle" (VStr handle) (companies (db w)) ->
  snd (Company.get handle w)
  = {| db := db w;
       sent := (sent w
                ++ [(q_text Company.select_company_sql, [VStr handle]);
                    (q_text Company.select_jobs_sql, [VStr handle])])%list |}.
Proof.
  intros Hpres. unfold Company.get, bind.
  destruct (find_by_key_hits Company.select_company_sql "companies" "handle"
              Company.company_shape (VStr handle) w companies_def
              (companies (db w)) eq_refl eq_refl eq_refl)
    as (c & rest & -> & _); [discriminate|exact Hpres|].
  erewrite select_runs with (def := jobs_def) (rows := jobs (db w));
    [|reflexivity|reflexivity|reflexivity].
  unfold ret, Spec.after. simpl. rewrite <- app_assoc. reflexivity.
Qed.

(** X4: [get] only reads, and it asks for the jobs only once it has found
    the company: two statements are sent when the handle is stored, the
    company lookup alone when it is not. *)
Theorem get_read_only (handle : string) (w : World) :
  db (snd (Company.get handle w)) = db w
  /\ (Spec.present "handle" (VStr handle) (companies (db w)) ->
      sent (snd (Company.get handle w))
      = (sent w
         ++ [(q_text Company.select_company_sql, [VStr handle]);
             (q_text Company.select_jobs_sql, [VStr handle])])%list)
  /\ (Spec.absent "handle" (VStr handle) (companies (db w)) ->
      sent (snd (Company.get handle w))
      = (sent w ++ [(q_text Company.select_company_sql, [VStr handle])])%list).
Proof.
  split; [|split].
  - destruct (present_or_absent "handle" (VStr handle) (companies (db w)))
      as [H|H].
    + now rewrite (get_found_world handle w H).
    + now rewrite (get_missing handle w H).
  - intros H. now rewrite (get_found_world handle w H).
  - intros H. now rewrite (get_missing handle w H).
Qed.

Lemma absent_existsb (c : string) (k : value) (rows : list row) :
  Spec.absent c k rows ->
  existsb (fun r' => value_eqb (get c r') k) rows = false.
Proof.
  intros Habs. induction rows as [|r rows IH]; [reflexivity|]. simpl.
  rewrite (value_eqb_neq _ _ (Habs r (or_introl eq_refl))).
  apply IH. intros x Hx. apply Habs. now right.
Qed.

(** Companies that no job refers to may be deleted. *)
Lemma companies_unreferenced (handle : string) (d : DB) (gone : list row) :
  Spec.absent "company_handle" (VStr handle) (jobs d) ->
  (forall r, In r gone -> get "handle" r = VStr handle) ->
  forallb (unreferenced "companies" d) gone = true.
Proof.
  intros Habs Hgone. apply forallb_forall. intros r Hr.
  change (negb (referred {| fk_col := "company_handle"; fk_table := "companies";
                            fk_ref := "handle" |} (jobs d) (get "handle" r))
          && true = true).
  rewrite (Hgone r Hr). simpl referred.
  now rewrite (absent_existsb _ _ _ Habs).
Qed.

(** What [remove] does to the world when no job refers to the company. *)
Lemma company_remove_world (handle : string) (w : World) :
  Spec.absent "company_handle" (VStr handle) (jobs (db w)) ->
  snd (Company.remove handle w)
  = {| db :=
         {| companies := Spec.without "handle" (VStr handle) (companies (db w));
            jobs := jobs (db w);
            users := users (db w);
            applications := applications (db w) |};
       sent := (sent w ++ [(q_text Company.delete_sql, [VStr handle])])%list |}
  /\ (Spec.present "handle" (VStr handle) (companies (db w)) ->
      fst (Company.remove handle w) = Return tt).
Proof.
  intros Hjobs. unfold Company.remove, bind.
  rewrite (delete_runs Company.delete_sql "companies"
             [Company.cond_on "handle" OpEq 1] [("handle", "handle")]
             [VStr handle] w companies_def (companies (db w))
             eq_refl eq_refl eq_refl).
  - assert (filter (fun r => negb (holds [Company.cond_on "handle" OpEq 1]
                                         [VStr handle] r)) (companies (db w))
            = Spec.without "handle" (VStr handle) (companies (db w))) as ->.
    { apply filter_ext. intros r. f_equal.
      apply holds_single; [reflexivity|discriminate]. }
    split.
    + destruct (map _ _); reflexivity.
    + intros Hpres.
      destruct (lookup_hits "handle" (VStr handle) (companies (db w)) 1
                            [VStr handle] eq_refl) as (r & rest & -> & _);
        [discriminate|exact Hpres|reflexivity].
  - apply (companies_unreferenced handle); [exact Hjobs|].
    intros r Hr. apply filter_In in Hr. destruct Hr as [_ Hr].
    rewrite holds_single with (v := VStr handle) in Hr;
      [now apply value_eqb_eq|reflexivity|discriminate].
Qed.

Lemma company_remove_missing (handle : string) (w : World) :
  Spec.absent "handle" (VStr handle) (companies (db w)) ->
  fst (Company.remove handle w)
  = Throw (NotFoundError ("No company: " ++ handle)).
Proof.
  intros Habs. unfold Company.remove.
  rewrite remove_call_misses
    with (tbl := "companies") (keycol := "handle")
         (shape := [("handle", "handle")]) (def := companies_def)
         (rows := companies (db w));
    [reflexivity|reflexivity|reflexivity|reflexivity|discriminate|exact Habs].
Qed.

Lemma without_absent (c : string) (k : value) (rows : list row) :
  Spec.absent c k (Spec.without c k rows).
Proof.
  intros r Hr. apply filter_In in Hr. destruct Hr as [_ Hr].
  intros E. rewrite E in Hr.
  assert (value_eqb k k = true) as Hk by now apply value_eqb_eq.
  rewrite Hk in Hr. discriminate Hr.
Qed.

(** X5: removing a stored company that no job refers to returns normally
    and deletes exactly the rows with that handle: afterwards no company has
    the handle, a company with another handle is stored if and only if it
    was before, and jobs, users and applications are as they were. *)
Theorem remove_existing (handle : string) (w : World) :
  Spec.present "handle" (VStr handle) (companies (db w)) ->
  Spec.absent "company_handle" (VStr handle) (jobs (db w)) ->
  fst (Company.remove handle w) = Return tt
  /\ Spec.absent "handle" (VStr handle)
                 (companies (db (snd (Company.remove handle w))))
  /\ (forall r, get "handle" r <> VStr handle ->
                (In r (companies (db (snd (Company.remove handle w))))
                 <-> In r (companies (db w))))
  /\ jobs (db (snd (Company.remove handle w))) = jobs (db w)
  /\ users (db (snd (Company.remove handle w))) = users (db w)
  /\ applications (db (snd (Company.remove handle w))) = applications (db w).
Proof.
  intros Hpres Hjobs.
  destruct (company_remove_world handle w Hjobs) as [-> Hret]. simpl.
  split; [now apply Hret|].
  split; [apply without_absent|].
  split; [|repeat split].
  intros r Hr. unfold Spec.without. rewrite filter_In.
  rewrite (value_eqb_neq _ _ Hr). simpl. tauto.
Qed.

Lemma remove_existing_witness :
  fst (Company.remove "c3" Sample.world) = Return tt
  /\ Spec.absent "handle" (VStr "c3")
                 (companies (db (snd (Company.remove "c3" Sample.world)))).
Proof.
  destruct (remove_existing "c3" Sample.world) as (H1 & H2 & _).
  - exists (Sample.company "c3" "Burrow" VNull). split; [simpl; auto|reflexivity].
  - not_in_sample.
  - split; [exact H1|exact H2].
Defined.

(** X6: once [remove] has run for a handle that no job refers to, whether
    it found the company or not, the company is gone for the calls that
    follow: looking it up and removing it once more both throw NotFound. *)
Theorem remove_then_missing (handle : string) (w : World) :
  Spec.absent "company_handle" (VStr handle) (jobs (db w)) ->
  fst (Company.get handle (snd (Company.remove handle w)))
  = Throw (NotFoundError ("No company: " ++ handle))
  /\ fst (Company.remove handle (snd (Company.remove handle w)))
     = Throw (NotFoundError ("No company: " ++ handle)).
Proof.
  intros Hjobs.
  assert (Spec.absent "handle" (VStr handle)
                      (companies (db (snd (Company.remove handle w))))) as Habs.
  { destruct (company_remove_world handle w Hjobs) as [-> _]. simpl.
    apply without_absent. }
  split.
  - now rewrite (get_missing _ _ Habs).
  - now apply company_remove_missing.
Qed.

Lemma remove_then_missing_witness :
  fst (Company.get "c3" (snd (Company.remove "c3" Sample.world)))
  = Throw (NotFoundError "No company: c3")
  /\ fst (Company.remove "c3" (snd (Company.remove "c3" Sample.world)))
     = Throw (NotFoundError "No company: c3").
Proof. apply (remove_then_missing "c3" Sample.world). not_in_sample. Defined.

(** ** Creating, then reading back *)

Lemma create_fresh_world_present (handle name description : string)
      (numEmployees : option Z) (logoUrl : option string) (w : World) :
  Spec.absent "handle" (VStr handle) (companies (db w)) ->
  (forall n, numEmployees = Some n -> (0 <= n)%Z) ->
  companies (db (snd (Company.create handle name description numEmployees
                                     logoUrl w)))
  = (companies (db w)
     ++ [[ ("handle", VStr handle); ("name", VStr name);
           ("description", VStr description);
           ("num_employees", Company.of_number numEmployees);
           ("logo_url", Company.of_string logoUrl) ]])%list
  /\ jobs (db (snd (Company.create handle name description numEmployees
                                   logoUrl w))) = jobs (db w).
Proof.
  intros Habs Hnum. rewrite (create_fresh _ _ _ _ _ _ Habs Hnum).
  split; reflexivity.
Qed.

(** X7: a company that was just created can be read back: [get] returns
    exactly the fields [create] returned, with the jobs attached, and a
    second [create] with the same handle is refused as a duplicate. *)
Theorem create_then_get (handle name description : string)
        (numEmployees : option Z) (logoUrl : option string) (w : World) :
  Spec.absent "handle" (VStr handle) (companies (db w)) ->
  (forall n, numEmployees = Some n -> (0 <= n)%Z) ->
  exists created js,
    fst (Company.create handle name description numEmployees logoUrl w)
    = Return (Some created)
    /\ fst (Company.get handle
              (snd (Company.create handle name description numEmployees
                                   logoUrl w)))
       = Return (Company.object_of_row created
                 ++ [("jobs", Company.Nested js)])%list
    /\ forall name' description' numEmployees' logoUrl',
        fst (Company.create handle name' description' numEmployees' logoUrl'
               (snd (Company.create handle name description numEmployees
                                    logoUrl w)))
        = Throw (BadRequestError ("Duplicate company: " ++ handle)).
Proof.
  intros Habs Hnum.
  destruct (create_fresh_world_present handle name description numEmployees
                                       logoUrl w Habs Hnum) as [Hco _].
  assert (Spec.present "handle" (VStr handle)
            (companies (db (snd (Company.create handle name description
                                                numEmployees logoUrl w)))))
    as Hpres.
  { rewrite Hco. eexists. split; [apply in_or_app; right; left; reflexivity|].
    reflexivity. }
  do 2 eexists. split; [now rewrite (create_fresh _ _ _ _ _ _ Habs Hnum)|].
  split.
  - destruct (get_found handle _ Hpres) as (c & Hin & Hget & E).
    rewrite E. rewrite Hco in Hin. apply in_app_or in Hin.
    destruct Hin as [Hin|[<-|[]]]; [now destruct (Habs c Hin)|].
    reflexivity.
  - intros name' description' numEmployees' logoUrl'.
    now rewrite (create_duplicate _ _ _ _ _ _ Hpres).
Qed.

Lemma create_then_get_witness :
  exists created js,
    fst (Company.create "c9" "Nine" "A ninth" (Some 3%Z) None Sample.world)
    = Return (Some created)
    /\ fst (Company.get "c9"
              (snd (Company.create "c9" "Nine" "A ninth" (Some 3%Z) None
                                   Sample.world)))
       = Return (Company.object_of_row created
                 ++ [("jobs", Company.Nested js)])%list.
Proof.
  destruct (create_then_get "c9" "Nine" "A ninth" (Some 3%Z) None Sample.world)
    as (created & js & H1 & H2 & _).
  - not_in_sample.
  - intros n [= <-]. lia.
  - exists created, js. split; [exact H1|exact H2].
Defined.

(** X9: a company that was just created is listed by every [findAll] whose
    filters it satisfies, in particular by the unfiltered one, and the
    companies listed before are still listed. *)
Theorem create_then_findAll (handle name description : string)
        (numEmployees : option Z) (logoUrl : option string)
        (f : Company.filters) (w : World) :
  Spec.absent "handle" (VStr handle) (companies (db w)) ->
  (forall n, numEmployees = Some n -> (0 <= n)%Z) ->
  Spec.in_range f ->
  exists before rows,
    fst (Company.findAll f w) = Return before
    /\ fst (Company.findAll f
              (snd (Company.create handle name description numEmployees
                                   logoUrl w)))
       = Return rows
    /\ (forall r, In r before -> In r rows)
    /\ (Spec.satisfies f
          [ ("handle", VStr handle); ("name", VStr name);
            ("description", VStr description);
            ("num_employees", Company.of_number numEmployees);
            ("logo_url", Company.of_string logoUrl) ] = true ->
        In [ ("handle", VStr handle); ("name", VStr name);
             ("description", VStr description);
             ("numEmployees", Company.of_number numEmployees);
             ("logoUrl", Company.of_string logoUrl) ] rows).
Proof.
  intros Habs Hnum Hr.
  destruct (create_fresh_world_present handle name description numEmployees
                                       logoUrl w Habs Hnum) as [Hco _].
  destruct (findAll_runs f w Hr) as (q & E & _).
  destruct (findAll_runs f (snd (Company.create handle name description
                                                numEmployees logoUrl w)) Hr)
    as (q' & E' & _).
  do 2 eexists. rewrite E, E'. split; [reflexivity|]. split; [reflexivity|].
  rewrite Hco. split.
  - intros r Hin. apply in_map_iff in Hin. destruct Hin as (r0 & <- & Hr0).
    apply in_map. apply in_sorted_filter in Hr0. apply in_sorted_filter.
    destruct Hr0 as [Hin Hsat]. split; [|exact Hsat].
    apply in_or_app. now left.
  - intros Hsat.
    change [("handle", VStr handle); ("name", VStr name);
            ("description", VStr description);
            ("numEmployees", Company.of_number numEmployees);
            ("logoUrl", Company.of_string logoUrl)]
      with (project Company.company_shape
              [("handle", VStr handle); ("name", VStr name);
               ("description", VStr description);
               ("num_employees", Company.of_number numEmployees);
               ("logo_url", Company.of_string logoUrl)]).
    apply in_map. apply in_sorted_filter. split; [|exact Hsat].
    apply in_or_app. right. now left.
Qed.

Lemma create_then_findAll_witness :
  exists before rows,
    fst (Company.findAll
           {| Company.minEmployees := Some 1%Z; Company.maxEmployees := None;
              Company.name := Some "ni" |}
           (snd (Company.create "c9" "Nine" "A ninth" (Some 3%Z) None
                                Sample.world)))
    = Return rows
    /\ (forall r, In r before -> In r rows)
    /\ In [ ("handle", VStr "c9"); ("name", VStr "Nine");
            ("description", VStr "A ninth"); ("numEmployees", VNum 3);
            ("logoUrl", VNull) ] rows.
Proof.
  destruct (create_then_findAll "c9" "Nine" "A ninth" (Some 3%Z) None
              {| Company.minEmployees := Some 1%Z; Company.maxEmployees := None;
                 Company.name := Some "ni" |} Sample.world)
    as (before & rows & _ & H2 & H3 & H4).
  - not_in_sample.
  - intros n [= <-]. lia.
  - reflexivity.
  - exists before, rows. split; [exact H2|]. split; [exact H3|].
    apply H4. reflexivity.
Defined.

(** ** What an update can and cannot touch *)

(** The store after an UPDATE went through [db.query]: as before, or with
    the matching rows of the one table rewritten and its keys still unique. *)
Lemma update_store (q : query) (t : string) (set : list (string * nat))
      (wh : list cond) (ret : projection) (binds : list value) (w : World)
      (def : tabledef) (rows : list row) :
  q_sem q = Update t set wh ret ->
  get_table t (db w) = Some (def, rows) ->
  exists out d,
    db_query q binds w = (out, Spec.after w d q binds)
    /\ (d = db w
        \/ (d = set_table t
                  (map (fun r => if holds wh binds r then assign set binds r
                                 else r) rows) (db w)
            /\ keys_unique def
                 (map (fun r => if holds wh binds r then assign set binds r
                                else r) rows) = true)).
Proof.
  intros Hq Ht. unfold db_query, exec. rewrite Hq. simpl stmt_table. rewrite Ht.
  destruct (stmt_ok def (Update t set wh ret) binds).
  - cbv zeta. destruct (filter (holds wh binds) rows) as [|r0 rest].
    + do 2 eexists. split; [reflexivity|now left].
    + destruct (forallb (set_fits def binds) set).
      * destruct (keys_unique def _) eqn:Hk.
        -- destruct (forallb _ (r0 :: rest)).
           ++ do 2 eexists. split; [reflexivity|]. right.
              split; reflexivity.
           ++ do 2 eexists. split; [reflexivity|now left].
        -- do 2 eexists. split; [reflexivity|now left].
      * do 2 eexists. split; [reflexivity|now left].
  - do 2 eexists. split; [reflexivity|now left].
Qed.

(** The store [Company.update] leaves behind. *)
Lemma company_update_store (handle : string) (data : list (string * value))
      (w : World) :
  db (snd (Company.update handle data w)) = db w
  \/ exists touch : row -> row,
      db (snd (Company.update handle data w))
      = {| companies :=
             map (fun r => if value_eqb (get "handle" r) (VStr handle)
                           then touch r else r) (companies (db w));
           jobs := jobs (db w);
           users := users (db w);
           applications := applications (db w) |}
      /\ keys_unique companies_def
           (map (fun r => if value_eqb (get "handle" r) (VStr handle)
                          then touch r else r) (companies (db w))) = true.
Proof.
  destruct data as [|kv data]; [now left|].
  assert (exists res w',
             Company.update handle (kv :: data) w = (res, w')
             /\ (db w' = db w
                 \/ exists touch : row -> row,
                     db w'
                     = {| companies :=
                            map (fun r =>
                                   if value_eqb (get "handle" r) (VStr handle)
                                   then touch r else r) (companies (db w));
                          jobs := jobs (db w);
                          users := users (db w);
                          applications := applications (db w) |}
                     /\ keys_unique companies_def
                          (map (fun r =>
                                  if value_eqb (get "handle" r) (VStr handle)
                                  then touch r else r) (companies (db w)))
                        = true))
    as (res & w' & -> & H); [|exact H].
  unfold Company.update. unfold bind at 1.
  rewrite sqlForPartialUpdate_runs by discriminate.
  unfold bind.
  match goal with
  | |- context [db_query ?q ?b w] =>
      destruct (update_store q "companies"
                  (Sql.map_from
                     (fun colName idx =>
                        (Sql.column_for Company.jsToSql colName, idx + 1)%nat)
                     0 (map fst (kv :: data)))
                  [Company.cond_on "handle" OpEq
                     (List.length (map snd (kv :: data)) + 1)]
                  Company.company_shape b w companies_def (companies (db w))
                  eq_refl eq_refl)
        as (out & d & -> & Hd)
  end.
  assert (forall r,
             holds [Company.cond_on "handle" OpEq
                      (List.length (map snd (kv :: data)) + 1)]
                   (map snd (kv :: data) ++ [VStr handle]) r
             = value_eqb (get "handle" r) (VStr handle)) as Hholds.
  { intros r. apply holds_single; [apply param_last|discriminate]. }
  assert (forall g : row -> row,
             map (fun r =>
                    if holds [Company.cond_on "handle" OpEq
                                (List.length (map snd (kv :: data)) + 1)]
                             (map snd (kv :: data) ++ [VStr handle]) r
                    then g r else r) (companies (db w))
             = map (fun r => if value_eqb (get "handle" r) (VStr handle)
                             then g r else r) (companies (db w))) as Hmap.
  { intros g. apply map_ext. intros r. now rewrite Hholds. }
  destruct Hd as [->|[-> Hk]].
  - destruct out as [[|r rs]|e]; do 2 eexists; (split; [reflexivity|now left]).
  - rewrite Hmap in Hk.
    destruct out as [[|r rs]|e]; do 2 eexists;
      (split; [reflexivity|]; right; eexists;
       split; [simpl; rewrite Hmap; reflexivity|exact Hk]).
Qed.

(** X10: whatever the data, [update] can only rewrite the companies that
    carry the handle: every company with another handle stays where it is,
    unchanged, the number of companies stays the same, and jobs, users and
    applications are not touched. *)
Theorem update_touches_only_handle (handle : string)
        (data : list (string * value)) (w : World) :
  List.length (companies (db (snd (Company.update handle data w))))
  = List.length (companies (db w))
  /\ (forall i r,
         nth_error (companies (db w)) i = Some r ->
         get "handle" r <> VStr handle ->
         nth_error (companies (db (snd (Company.update handle data w)))) i
         = Some r)
  /\ jobs (db (snd (Company.update handle data w))) = jobs (db w)
  /\ users (db (snd (Company.update handle data w))) = users (db w)
  /\ applications (db (snd (Company.update handle data w)))
     = applications (db w).
Proof.
  destruct (company_update_store handle data w) as [->|(touch & -> & _)].
  - repeat split. intros i r H _. exact H.
  - simpl. split; [apply length_map|]. split; [|repeat split].
    intros i r Hi Hr. rewrite nth_error_map, Hi. simpl.
    now rewrite (value_eqb_neq _ _ Hr).
Qed.

Lemma update_touches_only_handle_example :
  fst (Company.update "c1" [("numEmployees", VNum 10); ("name", VStr "Apex")]
                      Sample.world)
  = Return [ ("handle", VStr "c1"); ("name", VStr "Apex");
             ("description", VStr "A company"); ("numEmployees", VNum 10);
             ("logoUrl", VNull) ]
  /\ companies (db (snd (Company.update "c1"
                           [("numEmployees", VNum 10); ("name", VStr "Apex")]
                           Sample.world)))
     = [ Sample.company "c2" "Zenith" (VNum 20);
         Sample.company "c1" "Apex" (VNum 10);
         Sample.company "c3" "Burrow" VNull ].
Proof. split; reflexivity. Qed.

(* ================================================================= *)
(** * Further properties of the API client *)

(** How [request] ends, by how the [axios] promise settles. *)
Lemma request_settles (env : option string) (token : string)
      (axios : Api.config -> Api.settled) (endpoint : string)
      (data : option Api.js) (method : option string) :
  Api.request env token axios endpoint data method
  = match axios (Api.request_config env token endpoint data method) with
    | Api.Fulfilled response =>
        match Api.member response "data" with
        | Api.Normal v => Api.Normal v
        | Api.Abrupt t =>
            Api.and_then (Api.message_of (Api.caught t))
                         (fun message => Api.Abrupt (Api.Value (Spec.as_array message)))
        end
    | Api.Rejected err =>
        Api.and_then (Api.message_of err)
                     (fun message => Api.Abrupt (Api.Value (Spec.as_array message)))
    end.
Proof.
  unfold Api.request.
  destruct (axios (Api.request_config env token endpoint data method))
    as [response|err]; [|reflexivity].
  destruct (Api.member response "data"); reflexivity.
Qed.

Lemma as_array_is_array (message : Api.js) :
  Api.isArray (Spec.as_array message) = true.
Proof. unfold Spec.as_array. destruct message; reflexivity. Qed.

Lemma request_rejected (env : option string) (token : string)
      (axios : Api.config -> Api.settled) (endpoint : string)
      (data : option Api.js) (method : option string) (err message : Api.js) :
  axios (Api.request_config env token endpoint data method) = Api.Rejected err ->
  Api.message_of err = Api.Normal message ->
  Api.request env token axios endpoint data method
  = Api.Abrupt (Api.Value (Spec.as_array message)).
Proof. intros Hax Hm. rewrite request_settles, Hax, Hm. reflexivity. Qed.

Lemma request_fulfilled (env : option string) (token : string)
      (axios : Api.config -> Api.settled) (endpoint : string)
      (data : option Api.js) (method : option string)
      (props : list (string * Api.js)) :
  axios (Api.request_config env token endpoint data method)
  = Api.Fulfilled (Api.JObject props) ->
  Api.request env token axios endpoint data method
  = Api.Normal (match JS.lookup "data" props with
                | Some v => v
                | None => Api.JUndefined
                end).
Proof. intros Hax. rewrite request_settles, Hax. reflexivity. Qed.

(** X12: whatever the server answers, the only value [request] ever throws
    is an array; apart from that it can only return, or fail with a
    TypeError while reading the error. *)
Theorem request_throws_arrays_only (env : option string) (token : string)
        (axios : Api.config -> Api.settled) (endpoint : string)
        (data : option Api.js) (method : option string) (v : Api.js) :
  Api.request env token axios endpoint data method = Api.Abrupt (Api.Value v) ->
  Api.isArray v = true.
Proof.
  rewrite request_settles.
  assert (forall err,
             Api.and_then (Api.message_of err)
                          (fun message =>
                             Api.Abrupt (Api.Value (Spec.as_array message)))
             = (Api.Abrupt (Api.Value v) : Api.completion Api.js) ->
             Api.isArray v = true) as Hcatch.
  { intros err. destruct (Api.message_of err) as [m|t] eqn:E; simpl.
    - intros [= <-]. apply as_array_is_array.
    - intros [= ->]. destruct (message_of_fails_with_TypeError _ _ E) as [m H].
      discriminate H. }
  destruct (axios (Api.request_config env token endpoint data method))
    as [response|err]; [|apply Hcatch].
  destruct (Api.member response "data") as [d|t]; [discriminate|].
  apply Hcatch.
Qed.

Lemma request_throws_arrays_only_witness :
  Api.isArray (Api.JArray [Api.JString "Invalid username/password"]) = true.
Proof.
  apply (request_throws_arrays_only None "token"
           (fun _ => Api.Rejected
                       (Sample.rejection (Api.JString "Invalid username/password")))
           "auth/token" None (Some "post")).
  reflexivity.
Defined.

(** X13: when the promise is fulfilled with a response object, [request]
    returns its [data] property (undefined when there is none); when it is
    fulfilled with undefined or null, reading [data] fails inside the [try],
    and the handler, finding no response on that error, fails with a
    TypeError of its own. *)
Theorem request_returns_data (env : option string) (token : string)
        (axios : Api.config -> Api.settled) (endpoint : string)
        (data : option Api.js) (method : option string) (response : Api.js) :
  axios (Api.request_config env token endpoint data method)
  = Api.Fulfilled response ->
  (forall props,
      response = Api.JObject props ->
      Api.request env token axios endpoint data method
      = Api.Normal (match JS.lookup "data" props with
                    | Some v => v
                    | None => Api.JUndefined
                    end))
  /\ (response = Api.JUndefined \/ response = Api.JNull ->
      Api.request env token axios endpoint data method
      = Api.Abrupt
          (Api.TypeError "Cannot read properties of undefined (reading 'data')")).
Proof.
  intros Hax. split.
  - intros props ->. now apply request_fulfilled.
  - intros [-> | ->]; rewrite request_settles, Hax; reflexivity.
Qed.

Lemma request_returns_data_witness :
  Api.request None "token"
    (fun _ => Api.Fulfilled
                (Api.JObject [("status", Api.JNumber 200);
                              ("data", Api.JObject [("token", Api.JString "abc")])]))
    "auth/token" None (Some "post")
  = Api.Normal (Api.JObject [("token", Api.JString "abc")]).
Proof.
  destruct (request_returns_data None "token"
              (fun _ => Api.Fulfilled
                          (Api.JObject
                             [("status", Api.JNumber 200);
                              ("data", Api.JObject [("token", Api.JString "abc")])]))
              "auth/token" None (Some "post") _ eq_refl) as [H _].
  exact (H _ eq_refl).
Defined.

(** X14: every route of the client passes a backend error on as [request]
    throws it: when the request is rejected with the error envelope, each of
    the nine routes throws the array made from its message, and none of them
    returns. *)
Theorem routes_throw_messages (env : option string) (token : string)
        (axios : Api.config -> Api.settled) (err message : Api.js) :
  (forall cfg, axios cfg = Api.Rejected err) ->
  Api.message_of err = Api.Normal message ->
  (forall handle,
      Api.getCompany env token axios handle
      = Api.Abrupt (Api.Value (Spec.as_array message)))
  /\ (forall name,
         Api.getCompanies env token axios name
         = Api.Abrupt (Api.Value (Spec.as_array message)))
  /\ (forall title,
         Api.getJobs env token axios title
         = Api.Abrupt (Api.Value (Spec.as_array message)))
  /\ (forall id,
         Api.getJob env token axios id
         = Api.Abrupt (Api.Value (Spec.as_array message)))
  /\ (forall data,
         Api.signup env token axios data
         = Api.Abrupt (Api.Value (Spec.as_array message)))
  /\ (forall data,
         Api.login env token axios data
         = Api.Abrupt (Api.Value (Spec.as_array message)))
  /\ (forall username,
         Api.getCurrentUser env token axios username
         = Api.Abrupt (Api.Value (Spec.as_array message)))
  /\ (forall username data,
         Api.updateProfile env token axios username data
         = Api.Abrupt (Api.Value (Spec.as_array message)))
  /\ (forall username jobId,
         Api.applyToJob env token axios username jobId
         = Api.Abrupt (Api.Value (Spec.as_array message))).
Proof.
  intros Hax Hm.
  assert (forall endpoint data method,
             Api.request env token axios endpoint data method
             = Api.Abrupt (Api.Value (Spec.as_array message))) as Hreq.
  { intros. now apply (request_rejected _ _ _ _ _ _ err). }
  unfold Api.getCompany, Api.getCompanies, Api.getJobs, Api.getJob, Api.signup,
    Api.login, Api.getCurrentUser, Api.updateProfile, Api.applyToJob.
  repeat split; intros; rewrite Hreq; reflexivity.
Qed.

Lemma routes_throw_messages_witness :
  Api.login None "token"
    (fun _ => Api.Rejected
                (Sample.rejection (Api.JString "Invalid username/password")))
    (Some (Api.JObject [("username", Api.JString "u1");
                        ("password", Api.JString "wrong")]))
  = Api.Abrupt (Api.Value (Api.JArray [Api.JString "Invalid username/password"])).
Proof.
  destruct (routes_throw_messages None "token"
              (fun _ => Api.Rejected
                          (Sample.rejection
                             (Api.JString "Invalid username/password")))
              (Sample.rejection (Api.JString "Invalid username/password"))
              (Api.JString "Invalid username/password")
              (fun _ => eq_refl) eq_refl)
    as (_ & _ & _ & _ & _ & Hlogin & _).
  apply Hlogin.
Defined.

(** X15: on success every route hands back one named field of the response
    data -- company, companies, jobs, job, token, token, user, user -- and
    [applyToJob] hands back undefined whatever the data is; a route that
    reads a field fails with a TypeError when the response has no data. *)
Theorem routes_return_field (env : option string) (token : string)
        (axios : Api.config -> Api.settled)
        (props : list (string * Api.js)) (d : Api.js) :
  (forall cfg, axios cfg = Api.Fulfilled (Api.JObject props)) ->
  JS.lookup "data" props = Some d ->
  (forall handle,
      Api.getCompany env token axios handle = Api.member d "company")
  /\ (forall name,
         Api.getCompanies env token axios name = Api.member d "companies")
  /\ (forall title, Api.getJobs env token axios title = Api.member d "jobs")
  /\ (forall id, Api.getJob env token axios id = Api.member d "job")
  /\ (forall data, Api.signup env token axios data = Api.member d "token")
  /\ (forall data, Api.login env token axios data = Api.member d "token")
  /\ (forall username,
         Api.getCurrentUser env token axios username = Api.member d "user")
  /\ (forall username data,
         Api.updateProfile env token axios username data = Api.member d "user")
  /\ (forall username jobId,
         Api.applyToJob env token axios username jobId
         = Api.Normal Api.JUndefined)
  /\ (d = Api.JUndefined ->
      forall username,
        exists m,
          Api.getCurrentUser env token axios username
          = Api.Abrupt (Api.TypeError m)).
Proof.
  intros Hax Hd.
  assert (forall endpoint data method,
             Api.request env token axios endpoint data method = Api.Normal d)
    as Hreq.
  { intros. rewrite (request_fulfilled _ _ _ _ _ _ props (Hax _)).
    now rewrite Hd. }
  unfold Api.getCompany, Api.getCompanies, Api.getJobs, Api.getJob, Api.signup,
    Api.login, Api.getCurrentUser, Api.updateProfile, Api.applyToJob.
  repeat split; intros; rewrite ?Hreq; try reflexivity.
  subst d. eexists. reflexivity.
Qed.

Lemma routes_return_field_witness :
  Api.getCompany None "token"
    (fun _ => Api.Fulfilled
                (Api.JObject
                   [("data",
                     Api.JObject
                       [("company",
                         Api.JObject [("handle", Api.JString "c1")])])]))
    "c1"
  = Api.Normal (Api.JObject [("handle", Api.JString "c1")]).
Proof.
  destruct (routes_return_field None "token"
              (fun _ => Api.Fulfilled
                          (Api.JObject
                             [("data",
                               Api.JObject
                                 [("company",
                                   Api.JObject [("handle", Api.JString "c1")])])]))
              [("data",
                Api.JObject
                  [("company", Api.JObject [("handle", Api.JString "c1")])])]
              (Api.JObject
                 [("company", Api.JObject [("handle", Api.JString "c1")])])
              (fun _ => eq_refl) eq_refl) as (H & _).
  apply H.
Defined.

(* ================================================================= *)
(** * The shape of what comes back, and letter case *)

Lemma project_keys (p : projection) (r : row) :
  map fst (project p r) = map snd p.
Proof. unfold project. rewrite map_map. reflexivity. Qed.

(** Every row a statement of the repository brings back is a projection on
    the statement's output columns. *)
Lemma db_query_projects (q : query) (binds : list value) (w : World)
      (rs : list row) (r : row) :
  fst (db_query q binds w) = Return rs -> In r rs ->
  exists p r0,
    r = project p r0
    /\ p = match q_sem q with
           | Select _ proj _ _ => proj
           | Insert _ _ ret | Update _ _ _ ret | Delete _ _ ret => ret
           end.
Proof.
  unfold db_query, exec.
  destruct (get_table (stmt_table (q_sem q)) (db w)) as [[def rows]|];
    [|discriminate].
  destruct (stmt_ok def (q_sem q) binds); [|discriminate].
  destruct (q_sem q) as [t proj wh o|t cols ret|t set wh ret|t wh ret].
  - simpl. intros [= <-] Hin. apply in_map_iff in Hin.
    destruct Hin as (r0 & <- & _). eauto.
  - cbv zeta.
    destruct (row_ok def (new_row def cols binds)
              && negb (existsb (same_key def (new_row def cols binds)) rows)
              && refs_ok def (db w) (new_row def cols binds));
      [|discriminate].
    simpl. intros [= <-] [<-|[]]. eauto.
  - cbv zeta. destruct (filter (holds wh binds) rows) as [|r1 rest].
    + simpl. intros [= <-] [].
    + match goal with
      | |- context [if ?c then _ else _] => destruct c
      end; [|discriminate].
      simpl. intros [= <-] Hin.
      change (In r (map (fun r => project ret (assign set binds r)) (r1 :: rest)))
        in Hin.
      apply in_map_iff in Hin. destruct Hin as (r0 & <- & _). eauto.
  - cbv zeta. destruct (forallb (unreferenced t (db w)) _); [|discriminate].
    simpl. intros [= <-] Hin. apply in_map_iff in Hin.
    destruct Hin as (r0 & <- & _). eauto.
Qed.

Lemma update_returns_projection (handle : string)
      (data : list (string * value)) (w : World) (company : row) :
  fst (Company.update handle data w) = Return company ->
  exists r0, company = project Company.company_shape r0.
Proof.
  destruct data as [|kv data]; [discriminate|].
  unfold Company.update. unfold bind at 1.
  rewrite sqlForPartialUpdate_runs by discriminate. unfold bind.
  match goal with
  | |- context [db_query ?q ?b w] =>
      pose proof (db_query_projects q b w) as Hp;
        destruct (db_query q b w) as [[[|r rs]|e] w']
  end; try discriminate.
  simpl. intros [= <-].
  destruct (Hp (r :: rs) r eq_refl (or_introl eq_refl)) as (p & r0 & -> & ->).
  now exists r0.
Qed.

Lemma create_returns_projection (handle name description : string)
      (numEmployees : option Z) (logoUrl : option string) (w : World)
      (company : row) :
  fst (Company.create handle name description numEmployees logoUrl w)
  = Return (Some company) ->
  exists r0, company = project Company.company_shape r0.
Proof.
  unfold Company.create. unfold bind at 1.
  destruct (db_query Company.duplicate_check_sql [VStr handle] w)
    as [[[|d ds]|e] w1]; try discriminate.
  unfold bind.
  match goal with
  | |- context [db_query ?q ?b w1] =>
      pose proof (db_query_projects q b w1) as Hp;
        destruct (db_query q b w1) as [[[|r rs]|e] w']
  end; try discriminate.
  simpl. intros [= <-].
  destruct (Hp (r :: rs) r eq_refl (or_introl eq_refl)) as (p & r0 & -> & ->).
  now exists r0.
Qed.

(** X16: every operation that returns company data returns it in one
    shape: the rows of [findAll] and the row of [create] and of [update]
    have exactly the keys handle, name, description, numEmployees, logoUrl,
    in this order (the AS aliases of the statements agree), and the object
    of [get] has these keys followed by jobs. *)
Theorem company_rows_have_one_shape (w : World) :
  (forall f rows r,
      fst (Company.findAll f w) = Return rows -> In r rows ->
      map fst r = ["handle"; "name"; "description"; "numEmployees"; "logoUrl"])
  /\ (forall handle name description numEmployees logoUrl company,
         fst (Company.create handle name description numEmployees logoUrl w)
         = Return (Some company) ->
         map fst company
         = ["handle"; "name"; "description"; "numEmployees"; "logoUrl"])
  /\ (forall handle data company,
         fst (Company.update handle data w) = Return company ->
         map fst company
         = ["handle"; "name"; "description"; "numEmployees"; "logoUrl"])
  /\ (forall handle company,
         fst (Company.get handle w) = Return company ->
         map fst company
         = ["handle"; "name"; "description"; "numEmployees"; "logoUrl"; "jobs"]).
Proof.
  split; [|split; [|split]].
  - intros f rows r Hrun Hin. destruct (findAll_rows f w rows Hrun) as [_ ->].
    apply in_map_iff in Hin. destruct Hin as (r0 & <- & _).
    apply project_keys.
  - intros handle name description numEmployees logoUrl company Hrun.
    destruct (create_returns_projection _ _ _ _ _ _ _ Hrun) as [r0 ->].
    apply project_keys.
  - intros handle data company Hrun.
    destruct (update_returns_projection _ _ _ _ Hrun) as [r0 ->].
    apply project_keys.
  - intros handle company.
    destruct (present_or_absent "handle" (VStr handle) (companies (db w)))
      as [H|H].
    + destruct (get_found handle w H) as (c & _ & _ & ->).
      intros [= <-]. reflexivity.
    + rewrite (get_missing handle w H). discriminate.
Qed.

Lemma company_rows_have_one_shape_witness :
  map fst (project Company.company_shape (Sample.company "c2" "Zenith" (VNum 20)))
  = ["handle"; "name"; "description"; "numEmployees"; "logoUrl"].
Proof.
  destruct (company_rows_have_one_shape Sample.world) as [H _].
  apply (H {| Company.minEmployees := Some 5%Z; Company.maxEmployees := None;
              Company.name := None |}
           [ project Company.company_shape (Sample.company "c2" "Zenith" (VNum 20)) ]).
  - reflexivity.
  - left. reflexivity.
Defined.

(** Lower-casing leaves the LIKE metacharacters alone. *)
Lemma lower_ascii_meta (c : ascii) :
  Ascii.eqb (Like.lower_ascii c) "%" = Ascii.eqb c "%"
  /\ Ascii.eqb (Like.lower_ascii c) "_" = Ascii.eqb c "_"
  /\ Ascii.eqb (Like.lower_ascii c) "\" = Ascii.eqb c "\".
Proof.
  destruct c as [[] [] [] [] [] [] [] []]; vm_compute; repeat split.
Qed.

Lemma lower_ascii_idempotent (c : ascii) :
  Like.lower_ascii (Like.lower_ascii c) = Like.lower_ascii c.
Proof. destruct c as [[] [] [] [] [] [] [] []]; reflexivity. Qed.

(** The pattern, once lower-cased, depends on the lower-cased text only. *)
Lemma parse_lower (s : string) :
  option_map (map Like.lower_pat) (Like.parse s)
  = option_map (map Like.lower_pat) (Like.parse (Like.lower s))
  /\ forall c,
      option_map (map Like.lower_pat) (Like.parse (String c s))
      = option_map (map Like.lower_pat)
                   (Like.parse (String (Like.lower_ascii c) (Like.lower s))).
Proof.
  induction s as [|a s [IH1 IH2]].
  - split; [reflexivity|]. intros c.
    destruct (lower_ascii_meta c) as (H1 & H2 & H3).
    simpl. rewrite H1, H2, H3.
    destruct (Ascii.eqb c "%"), (Ascii.eqb c "_"), (Ascii.eqb c "\");
      simpl; try reflexivity.
    now rewrite lower_ascii_idempotent.
  - split; [apply IH2|]. intros c.
    destruct (lower_ascii_meta c) as (H1 & H2 & H3).
    change (Like.lower (String a s)) with (String (Like.lower_ascii a) (Like.lower s)).
    change (Like.parse (String c (String a s)))
      with (if Ascii.eqb c "%" then option_map (cons Like.PAny) (Like.parse (String a s))
            else if Ascii.eqb c "_" then option_map (cons Like.POne) (Like.parse (String a s))
            else if Ascii.eqb c "\" then option_map (cons (Like.PChar a)) (Like.parse s)
            else option_map (cons (Like.PChar c)) (Like.parse (String a s))).
    change (Like.parse (String (Like.lower_ascii c)
                               (String (Like.lower_ascii a) (Like.lower s))))
      with (if Ascii.eqb (Like.lower_ascii c) "%"
            then option_map (cons Like.PAny)
                            (Like.parse (String (Like.lower_ascii a) (Like.lower s)))
            else if Ascii.eqb (Like.lower_ascii c) "_"
            then option_map (cons Like.POne)
                            (Like.parse (String (Like.lower_ascii a) (Like.lower s)))
            else if Ascii.eqb (Like.lower_ascii c) "\"
            then option_map (cons (Like.PChar (Like.lower_ascii a)))
                            (Like.parse (Like.lower s))
            else option_map (cons (Like.PChar (Like.lower_ascii c)))
                            (Like.parse (String (Like.lower_ascii a) (Like.lower s)))).
    rewrite H1, H2, H3. specialize (IH2 a).
    destruct (Like.parse (String a s)) as [p1|],
             (Like.parse (String (Like.lower_ascii a) (Like.lower s))) as [p2|],
             (Like.parse s) as [p3|], (Like.parse (Like.lower s)) as [p4|];
      simpl in IH1, IH2; try discriminate;
      destruct (Ascii.eqb c "%"), (Ascii.eqb c "_"), (Ascii.eqb c "\");
      simpl; try reflexivity; try congruence;
      rewrite ?lower_ascii_idempotent; congruence.
Qed.

Lemma ilike_lower (pattern pattern' subject : string) :
  Like.lower pattern = Like.lower pattern' ->
  Like.ilike pattern subject = Like.ilike pattern' subject.
Proof.
  intros H. unfold Like.ilike.
  destruct (parse_lower pattern) as [E _].
  destruct (parse_lower pattern') as [E' _].
  rewrite H in E. rewrite <- E' in E.
  destruct (Like.parse pattern), (Like.parse pattern'); simpl in E;
    try discriminate; [|reflexivity].
  now injection E as ->.
Qed.

(** X17: the name filter ignores letter case: two names that differ only in
    the case of their letters select the same companies, whatever the bounds
    and the store. *)
Theorem findAll_ignores_case (lo hi : option Z) (n n' : string) (w : World) :
  Like.lower n = Like.lower n' ->
  fst (Company.findAll {| Company.minEmployees := lo; Company.maxEmployees := hi;
                          Company.name := Some n |} w)
  = fst (Company.findAll {| Company.minEmployees := lo; Company.maxEmployees := hi;
                            Company.name := Some n' |} w).
Proof.
  intros Hn.
  destruct (JS.gt lo hi) eqn:Hgt.
  - unfold Company.findAll. simpl. rewrite Hgt. reflexivity.
  - destruct (findAll_runs {| Company.minEmployees := lo;
                              Company.maxEmployees := hi;
                              Company.name := Some n |} w Hgt) as (q & -> & _).
    destruct (findAll_runs {| Company.minEmployees := lo;
                              Company.maxEmployees := hi;
                              Company.name := Some n' |} w Hgt) as (q' & -> & _).
    simpl. do 3 f_equal. apply filter_ext. intros r.
    unfold Spec.satisfies. simpl. f_equal.
    assert (JS.truthy_string n = JS.truthy_string n') as Ht.
    { destruct n, n'; try reflexivity; discriminate Hn. }
    rewrite Ht. destruct (JS.truthy_string n'); [|reflexivity].
    unfold Spec.name_like. destruct (get "name" r); try reflexivity.
    apply ilike_lower. rewrite !lower_append. now rewrite Hn.
Qed.

Lemma findAll_ignores_case_witness :
  fst (Company.findAll {| Company.minEmployees := None; Company.maxEmployees := None;
                          Company.name := Some "ACME" |} Sample.world)
  = fst (Company.findAll {| Company.minEmployees := None; Company.maxEmployees := None;
                            Company.name := Some "acme" |} Sample.world).
Proof. apply (findAll_ignores_case None None "ACME" "acme"). reflexivity. Defined.
